(** * kaggle-quickdraw: the training orchestration engine

    A shallow embedding of the parts of [train.py], [dataset.py] and
    [utils.py] that drive shard prefetching, per-shard filtering and
    splitting, metric averaging, checkpoint retention, SGDR restarts and
    top-K ensemble selection, followed by the properties established about
    them.

    Conventions.
    - Python [int] is [Z]; Python [float] is an exact rational [Q].  The
      averages returned by [evaluate] are quotients of finite sums, so no
      NaN is ever produced by the modelled code; [float("-inf")] is the
      extra constructor of [score].
    - A raised exception is [None].
    - The neural network, the loss functions, the metric formulas, the
      shard files and [sklearn]'s splitter are collaborators outside the
      repository sources: they appear as section variables or as
      per-epoch observations, never as fixed functions. *)

From Stdlib Require Import ZArith QArith Qround List Ascii String Lia Lqa Sorted.
From stdpp Require Import gmap strings list fin_maps pretty.

Local Open Scope Z_scope.

(* ===================================================================== *)
(** * Python numerics                                                     *)
(* ===================================================================== *)

Module Py.

(** [a < b] on floats. *)
Definition Qlt_bool (a b : Q) : bool := negb (Qle_bool b a).

(** [int(x)] on a float: truncation towards zero. *)
Definition int_of_float (x : Q) : Z := Z.quot (Qnum x) (Zpos (Qden x)).

(** [round(x)] on a float: nearest integer, halves go to the even
    neighbour.  Python's builtin; used only to compare against
    [int_of_float]. *)
Definition round (x : Q) : Z :=
  let f := Qfloor x in
  match Qcompare (x - inject_Z f) (1 # 2) with
  | Lt => f
  | Gt => f + 1
  | Eq => if Z.even f then f else f + 1
  end.

(** A score cell initialised with [float("-inf")]. *)
Inductive score : Type :=
| NegInf
| Fin (q : Q).

(** [v > best] where [v] is an average returned by [evaluate]. *)
Definition gt (v : Q) (best : score) : bool :=
  match best with
  | NegInf => true
  | Fin b => Qlt_bool b v
  end.

(** [v > best] as a proposition. *)
Definition exceeds (v : Q) (best : score) : Prop :=
  match best with
  | NegInf => True
  | Fin b => (b < v)%Q
  end.

(** [a <= b] on score cells, as a proposition. *)
Definition score_le (a b : score) : Prop :=
  match a, b with
  | NegInf, _ => True
  | Fin _, NegInf => False
  | Fin x, Fin y => (x <= y)%Q
  end.

End Py.


(* ===================================================================== *)
(** * train.py: [evaluate]                                                *)
(* ===================================================================== *)

Module Metrics.

(** The six averages returned by [evaluate], in the order of its
    [return]. *)
Record averages : Type := {
  loss_avg : Q;
  mapk_avg : Q;
  accuracy_top1_avg : Q;
  accuracy_top3_avg : Q;
  accuracy_top5_avg : Q;
  accuracy_top10_avg : Q
}.

(** The accumulators of the loop: the six [*_sum_t] tensors and
    [step_count]. *)
Record sums : Type := {
  loss_sum_t : Q;
  mapk_sum_t : Q;
  accuracy_top1_sum_t : Q;
  accuracy_top3_sum_t : Q;
  accuracy_top5_sum_t : Q;
  accuracy_top10_sum_t : Q;
  step_count : Z
}.

(** [x / n] for a float [x] and an int [n]: ZeroDivisionError when
    [n = 0]. *)
Definition float_div_int (x : Q) (n : Z) : option Q :=
  if Z.eqb n 0 then None else Some (x / inject_Z n)%Q.

Section Evaluate.

Context {Model Images Labels Logits : Type}.

(** [model(images)]. *)
Variable forward : Model -> Images -> Logits.
(** [metrics.mapk(logits, categories, topk=k)]. *)
Variable mapk : Logits -> Labels -> Z -> Q.
(** [metrics.accuracy(logits, categories, topk=k)]. *)
Variable accuracy : Logits -> Labels -> Z -> Q.

Definition zero_sums : sums :=
  {| loss_sum_t := 0; mapk_sum_t := 0; accuracy_top1_sum_t := 0;
     accuracy_top3_sum_t := 0; accuracy_top5_sum_t := 0;
     accuracy_top10_sum_t := 0; step_count := 0 |}.

(** One iteration of [for batch in data_loader]. *)
Definition evaluate_batch (model : Model) (criterion : Logits -> Labels -> Q)
    (mapk_topk : Z) (acc : sums) (batch : Images * Labels) : sums :=
  let prediction_logits := forward model (fst batch) in
  let categories := snd batch in
  {| loss_sum_t := (loss_sum_t acc + criterion prediction_logits categories)%Q;
     mapk_sum_t := (mapk_sum_t acc + mapk prediction_logits categories mapk_topk)%Q;
     accuracy_top1_sum_t := (accuracy_top1_sum_t acc + accuracy prediction_logits categories 1)%Q;
     accuracy_top3_sum_t := (accuracy_top3_sum_t acc + accuracy prediction_logits categories 3)%Q;
     accuracy_top5_sum_t := (accuracy_top5_sum_t acc + accuracy prediction_logits categories 5)%Q;
     accuracy_top10_sum_t := (accuracy_top10_sum_t acc + accuracy prediction_logits categories 10)%Q;
     step_count := step_count acc + 1 |}.

Definition accumulate (model : Model) (criterion : Logits -> Labels -> Q)
    (mapk_topk : Z) (data_loader : list (Images * Labels)) : sums :=
  fold_left (evaluate_batch model criterion mapk_topk) data_loader zero_sums.

(** [evaluate(model, data_loader, criterion, mapk_topk)]: the six
    divisions are made in the order of the source, the first one that
    fails raises. *)
Definition evaluate (model : Model) (data_loader : list (Images * Labels))
    (criterion : Logits -> Labels -> Q) (mapk_topk : Z) : option averages :=
  let s := accumulate model criterion mapk_topk data_loader in
  l ← float_div_int (loss_sum_t s) (step_count s);
  m ← float_div_int (mapk_sum_t s) (step_count s);
  a1 ← float_div_int (accuracy_top1_sum_t s) (step_count s);
  a3 ← float_div_int (accuracy_top3_sum_t s) (step_count s);
  a5 ← float_div_int (accuracy_top5_sum_t s) (step_count s);
  a10 ← float_div_int (accuracy_top10_sum_t s) (step_count s);
  Some {| loss_avg := l; mapk_avg := m; accuracy_top1_avg := a1;
          accuracy_top3_avg := a3; accuracy_top5_avg := a5;
          accuracy_top10_avg := a10 |}.

End Evaluate.

End Metrics.

(* ===================================================================== *)
(** * train.py: [load_ensemble_model]                                     *)
(* ===================================================================== *)

Module Ensemble.

(** ** A Python [dict] with float keys

    Entries are kept in insertion order, which is the order of
    [values()]; keys are compared with [==]. *)

Section Dict.

Context {V : Type}.

Definition dict : Type := list (Q * V).

(** [k in d]. *)
Definition dict_mem (k : Q) (d : dict) : bool :=
  existsb (fun e => Qeq_bool (fst e) k) d.

(** [d[k]] as an option. *)
Definition dict_get (k : Q) (d : dict) : option V :=
  snd <$> List.find (fun e => Qeq_bool (fst e) k) d.

(** [d[k] = v]: an existing key keeps its place and its key object, a
    new key goes last. *)
Fixpoint dict_set (k : Q) (v : V) (d : dict) : dict :=
  match d with
  | [] => [(k, v)]
  | (k', v') :: d' =>
      if Qeq_bool k' k then (k', v) :: d' else (k', v') :: dict_set k v d'
  end.

(** [del d[k]]. *)
Fixpoint dict_del (k : Q) (d : dict) : dict :=
  match d with
  | [] => []
  | (k', v') :: d' =>
      if Qeq_bool k' k then d' else (k', v') :: dict_del k d'
  end.

(** [min(d.keys())]: ValueError on an empty dict; the first of the
    smallest keys otherwise. *)
Fixpoint dict_min_key (d : dict) : option Q :=
  match d with
  | [] => None
  | (k, _) :: d' =>
      match dict_min_key d' with
      | None => Some k
      | Some m => if Py.Qlt_bool m k then Some m else Some k
      end
  end.

(** [list(d.values())]. *)
Definition dict_values (d : dict) : list V := map snd d.

(** No two entries have equal keys. *)
Fixpoint distinct_keys (d : dict) : Prop :=
  match d with
  | [] => True
  | (k, _) :: d' => dict_mem k d' = false /\ distinct_keys d'
  end.

(** Two dictionaries with the same values under equal keys, entry by
    entry. *)
Definition dict_same (d1 d2 : dict) : Prop :=
  Forall2 (fun e1 e2 => (fst e1 == fst e2)%Q /\ snd e1 = snd e2) d1 d2.

End Dict.

Arguments dict V : clear implicits.

(** [l[-n:]] for an int [n]: the last [n] elements when [n > 0], the
    whole list when [n = 0] (the slice [-0:] starts at index 0), and the
    list without its first [-n] elements when [n < 0]. *)
Definition slice_last {A : Type} (n : Z) (l : list A) : list A :=
  if 0 <? n then drop (length l - Z.to_nat n)%nat l
  else drop (Z.to_nat (- n)) l.

Section LoadEnsemble.

Context {Model Images Labels Logits : Type}.

Variable forward : Model -> Images -> Logits.
Variable mapk : Logits -> Labels -> Z -> Q.
Variable accuracy : Logits -> Labels -> Z -> Q.
(** The forward pass of [models.ensemble.Ensemble], a module that is
    imported by [train.py] and defined elsewhere. *)
Variable ensemble_forward : list Model -> Images -> Logits.

(** Lines 204-207: what the loop does with a model once its score
    [val_mapk_avg] is known. *)
Definition offer (ensemble_model_count : Z) (score_to_model : dict Model)
    (val_mapk_avg : Q) (model : Model) : option (dict Model) :=
  let len := Z.of_nat (length score_to_model) in
  accepted ←
    (if len <? ensemble_model_count then Some true
     else m ← dict_min_key score_to_model; Some (Py.Qlt_bool m val_mapk_avg));
  if accepted : bool then
    d1 ← (if ensemble_model_count <=? len
          then m ← dict_min_key score_to_model; Some (dict_del m score_to_model)
          else Some score_to_model);
    Some (dict_set val_mapk_avg model d1)
  else Some score_to_model.

(** The same lines run over models whose scores are given. *)
Fixpoint offer_all (ensemble_model_count : Z) (score_to_model : dict Model)
    (scored : list (Q * Model)) : option (dict Model) :=
  match scored with
  | [] => Some score_to_model
  | (val_mapk_avg, model) :: rest =>
      d ← offer ensemble_model_count score_to_model val_mapk_avg model;
      offer_all ensemble_model_count d rest
  end.

(** The body of [for model_file_path in ensemble_model_candidates], on
    the model loaded from the file. *)
Definition select_step (ensemble_model_count : Z)
    (data_loader : list (Images * Labels)) (criterion : Logits -> Labels -> Q)
    (score_to_model : dict Model) (model : Model) : option (dict Model) :=
  r ← Metrics.evaluate forward mapk accuracy model data_loader criterion 3;
  offer ensemble_model_count score_to_model (Metrics.mapk_avg r) model.

(** The score [val_mapk_avg] that the loop computes for a model. *)
Definition val_mapk_of (data_loader : list (Images * Labels))
    (criterion : Logits -> Labels -> Q) (model : Model) : option Q :=
  Metrics.mapk_avg
    <$> Metrics.evaluate forward mapk accuracy model data_loader criterion 3.

(** Every entry is filed under the score of its model. *)
Definition keyed_by_score (data_loader : list (Images * Labels))
    (criterion : Logits -> Labels -> Q) (d : dict Model) : Prop :=
  Forall
    (fun e => exists q,
       val_mapk_of data_loader criterion (snd e) = Some q /\ (q == fst e)%Q)
    d.

(** The whole loop, from a given dictionary. *)
Fixpoint select_from (ensemble_model_count : Z)
    (data_loader : list (Images * Labels)) (criterion : Logits -> Labels -> Q)
    (score_to_model : dict Model) (candidates : list Model)
    : option (dict Model) :=
  match candidates with
  | [] => Some score_to_model
  | model :: rest =>
      d ← select_step ensemble_model_count data_loader criterion
            score_to_model model;
      select_from ensemble_model_count data_loader criterion d rest
  end.

(** [load_ensemble_model].  [sorted_model_files] are the models stored
    in the files listed by [find_sorted_model_files(base_dir)], in that
    order; [swa_model] is the content of [swa_model.pth] when the file
    exists.  The result is the member list handed to [Ensemble]. *)
Definition load_ensemble_model (sorted_model_files : list Model)
    (swa_model : option Model) (ensemble_model_count : Z)
    (data_loader : list (Images * Labels)) (criterion : Logits -> Labels -> Q)
    : option (list Model) :=
  let ensemble_model_candidates :=
    slice_last (2 * ensemble_model_count) sorted_model_files
    ++ match swa_model with Some m => [m] | None => [] end in
  score_to_model ←
    select_from ensemble_model_count data_loader criterion [] ensemble_model_candidates;
  let ensemble := dict_values score_to_model in
  _ ← Metrics.evaluate ensemble_forward mapk accuracy ensemble data_loader criterion 3;
  Some ensemble.

End LoadEnsemble.

End Ensemble.

(* ===================================================================== *)
(** * utils.py [read_categories] and dataset.py [TrainData]               *)
(* ===================================================================== *)

Module Data.

Local Open Scope string_scope.

(** [l.remove(x)]: drops the first occurrence, ValueError when there is
    none. *)
Fixpoint list_remove (x : string) (l : list string) : option (list string) :=
  match l with
  | [] => None
  | y :: l' =>
      if String.eqb y x then Some l'
      else l'' ← list_remove x l'; Some (y :: l'')
  end.

(** [read_categories(file_path)], on the lines of the file with their
    newline already stripped. *)
Definition read_categories (lines : list string) : option (list string) :=
  c1 ← list_remove "aircraft carrier" lines;
  c2 ← list_remove "knife" c1;
  c3 ← list_remove "lighter" c2;
  c4 ← list_remove "rifle" c3;
  list_remove "syringe" c4.

(** [l.index(x)]: position of the first occurrence, ValueError when
    there is none. *)
Fixpoint list_index (x : string) (l : list string) : option Z :=
  match l with
  | [] => None
  | y :: l' =>
      if String.eqb y x then Some 0%Z
      else i ← list_index x l'; Some (i + 1)%Z
  end.

(** [l[a:b]] for ints [a] and [b]: a negative bound counts from the end,
    and both are clamped to the list. *)
Definition py_slice {A : Type} (a b : Z) (l : list A) : list A :=
  let n := Z.of_nat (length l) in
  let clamp i := Z.max 0 (Z.min n (if (i <? 0)%Z then i + n else i))%Z in
  let lo := clamp a in
  let hi := clamp b in
  take (Z.to_nat (hi - lo)) (drop (Z.to_nat lo) l).

(** [a // b] on ints: floor division, ZeroDivisionError when [b = 0]. *)
Definition floordiv (a b : Z) : option Z :=
  if (b =? 0)%Z then None else Some (a / b)%Z.

Definition words_to_exclude : list string :=
  ["alarm clock"; "angel"; "anvil"; "apple"; "bandage";
   "baseball bat"; "bee"; "binoculars"; "book"; "bowtie"; "butterfly";
   "cactus"; "camel"; "camera"; "carrot"; "castle"; "chair"; "clock";
   "computer"; "crab"; "crown"; "cruise ship"; "diamond"; "donut";
   "drill"; "ear"; "envelope"; "eye"; "eyeglasses"; "fish";
   "flashlight"; "flower"; "fork"; "giraffe"; "hand"; "harp";
   "headphones"; "helicopter"; "hourglass"; "house plant";
   "ice cream"; "jacket"; "jail"; "key"; "ladder"; "lighthouse";
   "lightning"; "lollipop"; "megaphone"; "mountain"; "mushroom";
   "octopus"; "palm tree"; "pants"; "paper clip"; "parachute";
   "pineapple"; "popsicle"; "postcard"; "power outlet"; "rain";
   "rainbow"; "rhinoceros"; "rollerskates"; "sailboat"; "saw";
   "scissors"; "scorpion"; "see saw"; "sink"; "skateboard"; "skull";
   "snail"; "snorkel"; "snowflake"; "snowman"; "sock"; "stairs";
   "star"; "stethoscope"; "stitches"; "stop sign"; "strawberry";
   "sun"; "swing set"; "sword"; "teapot"; "television";
   "tennis racquet"; "The Eiffel Tower"; "The Mona Lisa"; "tooth";
   "traffic light"; "triangle"; "t-shirt"; "umbrella"; "vase";
   "whale"; "windmill"; "wine bottle"; "wine glass"; "wristwatch"].

(** [[words_to_exclude.index(w) for w in words_to_exclude]]: each word
    is looked up in [words_to_exclude] itself. *)
Definition categories_to_exclude : option (list Z) :=
  mapM (fun w => list_index w words_to_exclude) words_to_exclude.

Section TrainData.

Context {Drawing : Type}.

(** One position of the three parallel arrays of a shard file. *)
Record sample : Type := {
  category : Z;
  drawing : Drawing;
  recognized : bool
}.

(** The [data_dir] as the loader reads it: the shard archives and the
    lines of [categories.txt]; [None] is a file that cannot be read. *)
Record data_dir : Type := {
  shard_file : Z -> option (list sample);
  categories_txt : option (list string)
}.

(** The object built by [TrainData.__init__]; a [*_set_df] holds the
    ["category"] and ["drawing"] columns row by row. *)
Record train_data : Type := {
  shard : Z;
  train_set_df : list (Z * Drawing);
  val_set_df : list (Z * Drawing);
  categories : list string
}.

(** The positions chosen by [sklearn.model_selection.train_test_split]
    for [n] rows, a test fraction, the [stratify] labels and a
    [random_state]: the train positions and the test positions, which it
    then applies to every array it was given.  [None] is a ValueError. *)
Variable train_test_split :
  nat -> Q -> list Z -> Z -> option (list nat * list nat).

(** [a[idx]] for an index array. *)
Definition take_rows {A : Type} (idx : list nat) (a : list A) : list A :=
  omap (fun i => a !! i) idx.

(** Lines 100-110: the category range of one category shard. *)
Definition category_shard_filter (num_category_shards category_shard : Z)
    (cats : list string) (data : list sample)
    : option (list string * list sample) :=
  if (num_category_shards =? 1)%Z then Some (cats, data)
  else
    category_shard_size ← floordiv (Z.of_nat (length cats)) num_category_shards;
    let min_category := (category_shard * category_shard_size)%Z in
    let max_category :=
      Z.min (min_category + category_shard_size) (Z.of_nat (length cats)) in
    let cats' := py_slice min_category max_category cats in
    let kept :=
      List.filter
        (fun s => (min_category <=? category s)%Z && (category s <? max_category)%Z)
        data in
    Some (cats',
          map (fun s => {| category := (category s - min_category)%Z;
                           drawing := drawing s;
                           recognized := recognized s |}) kept).

(** Lines 133-136: [dc not in categories_to_exclude], applied to the
    three arrays alike. *)
Definition exclude_filter (to_exclude : list Z) (data : list sample)
    : list sample :=
  List.filter (fun s => negb (existsb (Z.eqb (category s)) to_exclude)) data.

Definition row (s : sample) : Z * Drawing := (category s, drawing s).

(** Lines 92-136 of [TrainData.__init__]: the category list and the
    rows that reach the split. *)
Definition load_filtered (dir : data_dir) (shard_id : Z)
    (num_category_shards category_shard : Z)
    : option (list string * list sample) :=
  data ← shard_file dir shard_id;
  lines ← categories_txt dir;
  cats ← read_categories lines;
  '(cats, data) ← category_shard_filter num_category_shards category_shard cats data;
  to_exclude ← categories_to_exclude;
  Some (cats, exclude_filter to_exclude data).

(** [TrainData(data_dir, shard, test_size, train_on_unrecognized,
    num_category_shards, category_shard)]. *)
Definition TrainData (dir : data_dir) (shard_id : Z) (test_size : Q)
    (train_on_unrecognized : bool) (num_category_shards category_shard : Z)
    : option train_data :=
  '(cats, data) ← load_filtered dir shard_id num_category_shards category_shard;
  '(train_idx, val_idx) ←
    train_test_split (length data) test_size (map category data) 42;
  let train := take_rows train_idx data in
  let val := take_rows val_idx data in
  let train :=
    if negb train_on_unrecognized then List.filter recognized train else train in
  Some {| shard := shard_id;
          train_set_df := map row train;
          val_set_df := map row val;
          categories := cats |}.

End TrainData.

Arguments sample Drawing : clear implicits.
Arguments data_dir Drawing : clear implicits.
Arguments train_data Drawing : clear implicits.

End Data.

(* ===================================================================== *)
(** * dataset.py: [TrainDataProvider]                                     *)
(* ===================================================================== *)

Module Provider.

Section TrainDataProvider.

Context {Drawing : Type}.

Variable train_test_split :
  nat -> Q -> list Z -> Z -> option (list nat * list nat).

(** The outcome of [np.random.shuffle] on the shard list. *)
Variable shuffle : list Z -> list Z.

(** An [AsyncResult] of [pool.apply_async(TrainDataProvider.load_data,
    args)]: the handle is the argument tuple of the pending call, and
    [get()] delivers what the call computes from the read-only data
    directory. *)
Record request : Type := {
  req_data_dir : Data.data_dir Drawing;
  req_shard : Z;
  req_test_size : Q;
  req_train_on_unrecognized : bool;
  req_num_category_shards : Z;
  req_category_shard : Z
}.

(** The attributes of a [TrainDataProvider]. *)
Record provider : Type := {
  data_dir : Data.data_dir Drawing;
  test_size : Q;
  train_on_unrecognized : bool;
  num_category_shards : Z;
  category_shard : Z;
  shards : list Z;
  requests : list request;
  next_shard_index : Z
}.

(** [TrainDataProvider.load_data]. *)
Definition load_data (dir : Data.data_dir Drawing) (shard : Z) (test_size : Q)
    (train_on_unrecognized : bool) (num_category_shards category_shard : Z)
    : option (Data.train_data Drawing) :=
  Data.TrainData train_test_split dir shard test_size train_on_unrecognized
    num_category_shards category_shard.

(** [request.get()]. *)
Definition get (r : request) : option (Data.train_data Drawing) :=
  load_data (req_data_dir r) (req_shard r) (req_test_size r)
    (req_train_on_unrecognized r) (req_num_category_shards r)
    (req_category_shard r).

(** [l[i]] for an int [i]: a negative index counts from the end,
    IndexError outside the list. *)
Definition py_index {A : Type} (l : list A) (i : Z) : option A :=
  let n := Z.of_nat (length l) in
  if (0 <=? i) && (i <? n) then l !! Z.to_nat i
  else if (- n <=? i) && (i <? 0) then l !! Z.to_nat (i + n)
  else None.

(** [a % b] on ints: ZeroDivisionError when [b = 0]. *)
Definition py_mod (a b : Z) : option Z :=
  if b =? 0 then None else Some (a mod b).

(** [request_data(self)]. *)
Definition request_data (p : provider) : option provider :=
  next_shard ← py_index (shards p) (next_shard_index p);
  let r := {| req_data_dir := data_dir p;
              req_shard := next_shard;
              req_test_size := test_size p;
              req_train_on_unrecognized := train_on_unrecognized p;
              req_num_category_shards := num_category_shards p;
              req_category_shard := category_shard p |} in
  i ← py_mod (next_shard_index p + 1) (Z.of_nat (length (shards p)));
  Some {| data_dir := data_dir p;
          test_size := test_size p;
          train_on_unrecognized := train_on_unrecognized p;
          num_category_shards := num_category_shards p;
          category_shard := category_shard p;
          shards := shards p;
          requests := requests p ++ [r];
          next_shard_index := i |}.

(** [for _ in range(n): self.request_data()]. *)
Fixpoint request_data_times (n : nat) (p : provider) : option provider :=
  match n with
  | O => Some p
  | S n' => p' ← request_data p; request_data_times n' p'
  end.

(** [list(range(n))]. *)
Definition py_range (n : Z) : list Z := map Z.of_nat (seq 0 (Z.to_nat n)).

(** [TrainDataProvider.__init__].  [mp.Pool(processes=n)] raises for
    [n < 1]; the pool only runs the pending calls and holds no state of
    its own. *)
Definition TrainDataProvider (dir : Data.data_dir Drawing)
    (num_shards num_shard_preload num_workers : Z) (test_size : Q)
    (train_on_unrecognized : bool) (num_category_shards category_shard : Z)
    : option provider :=
  if num_workers <? 1 then None else
  request_data_times (Z.to_nat num_shard_preload)
    {| data_dir := dir;
       test_size := test_size;
       train_on_unrecognized := train_on_unrecognized;
       num_category_shards := num_category_shards;
       category_shard := category_shard;
       shards := shuffle (py_range num_shards);
       requests := [];
       next_shard_index := 0 |}.

(** [self.requests.pop(0)]: IndexError on an empty list. *)
Definition pop0 {A : Type} (l : list A) : option (A * list A) :=
  match l with
  | [] => None
  | x :: l' => Some (x, l')
  end.

(** [get_next(self)]: the provider after the call and the data
    returned. *)
Definition get_next (p : provider)
    : option (Data.train_data Drawing * provider) :=
  p1 ← request_data p;
  '(r, rest) ← pop0 (requests p1);
  data ← get r;
  Some (data,
        {| data_dir := data_dir p1;
           test_size := test_size p1;
           train_on_unrecognized := train_on_unrecognized p1;
           num_category_shards := num_category_shards p1;
           category_shard := category_shard p1;
           shards := shards p1;
           requests := rest;
           next_shard_index := next_shard_index p1 |}).

(** A sequence of [n] calls of [get_next]: the data returned, oldest
    first, and the provider after the last call. *)
Fixpoint get_next_times (n : nat) (p : provider)
    : option (list (Data.train_data Drawing) * provider) :=
  match n with
  | O => Some ([], p)
  | S n' =>
      '(d, p1) ← get_next p;
      '(ds, p2) ← get_next_times n' p1;
      Some (d :: ds, p2)
  end.

(** The part of a provider that [request_data] relies on: a shard list
    with at least one shard and a cursor inside it. *)
Definition cursor_ok (p : provider) : Prop :=
  0 <= next_shard_index p < Z.of_nat (length (shards p)).

(** Every shard of the provider can be loaded with its settings. *)
Definition loads_ok (p : provider) : Prop :=
  forall s, s ∈ shards p ->
    is_Some (load_data (data_dir p) s (test_size p) (train_on_unrecognized p)
               (num_category_shards p) (category_shard p)).

(** Every pending request is for a shard of the provider, with the
    provider's settings. *)
Definition requests_ok (p : provider) : Prop :=
  forall r, r ∈ requests p ->
    req_shard r ∈ shards p /\
    req_data_dir r = data_dir p /\ req_test_size r = test_size p /\
    req_train_on_unrecognized r = train_on_unrecognized p /\
    req_num_category_shards r = num_category_shards p /\
    req_category_shard r = category_shard p.

(** A provider on which neither [request_data] nor [get_next] can
    raise. *)
Definition healthy (p : provider) : Prop :=
  cursor_ok p /\ loads_ok p /\ requests_ok p.

End TrainDataProvider.

Arguments request Drawing : clear implicits.
Arguments provider Drawing : clear implicits.

End Provider.

(* ===================================================================== *)
(** * train.py: [main], the epoch loop                                    *)
(* ===================================================================== *)

Module Train.

Local Open Scope string_scope.

(** ** File names of the output directory *)

(** [name.endswith(suffix)]. *)
Definition ends_with (suffix name : string) : bool :=
  String.prefix (String.rev suffix) (String.rev name).

(** A base name matched by the glob pattern [model*.pth]. *)
Definition glob_model_any (name : string) : bool :=
  String.prefix "model" name && ends_with ".pth" name.

(** A base name matched by the glob pattern [model-*.pth]. *)
Definition glob_model_cycle (name : string) : bool :=
  String.prefix "model-" name && ends_with ".pth" name.

(** [s.replace(old, new)] for an empty [new]: every occurrence of [old]
    is dropped, scanning from the left; [skip] counts the characters of
    the current occurrence still to drop. *)
Fixpoint remove_all_from (old : string) (skip : nat) (s : string) : string :=
  match s with
  | EmptyString => EmptyString
  | String c s' =>
      match skip with
      | S k => remove_all_from old k s'
      | O =>
          if negb (String.eqb old EmptyString) && String.prefix old s
          then remove_all_from old (String.length old - 1) s'
          else String c (remove_all_from old O s')
      end
  end.

Definition remove_all (old s : string) : string := remove_all_from old O s.

Definition digit_of (c : Ascii.ascii) : option Z :=
  let n := Z.of_nat (Ascii.nat_of_ascii c) in
  if (48 <=? n)%Z && (n <=? 57)%Z then Some (n - 48)%Z else None.

Fixpoint digits_value (acc : Z) (s : string) : option Z :=
  match s with
  | EmptyString => Some acc
  | String c s' => d ← digit_of c; digits_value (10 * acc + d)%Z s'
  end.

(** [int(s)] on a string: an optional sign and at least one decimal
    digit; anything else is a ValueError.  (Blanks around the number and
    underscores between digits, which [int] also reads, do not occur in
    the names the program writes and are rejected here.) *)
Definition int_of_string (s : string) : option Z :=
  match s with
  | EmptyString => None
  | String "-"%char (String c s') => Z.opp <$> digits_value 0 (String c s')
  | String "+"%char (String c s') => digits_value 0 (String c s')
  | _ => digits_value 0 s
  end.

(** ["{}/model-{}.pth".format(output_dir, i)], as a base name. *)
Definition cycle_file (i : Z) : string := "model-" +:+ pretty i +:+ ".pth".

Definition best_file : string := "model.pth".

(** Lines 305-309: one past the largest index among the per-cycle files
    already present. *)
Definition first_free_index (names : list string) : option Z :=
  foldl
    (fun acc name =>
       ensemble_model_index ← acc;
       if glob_model_cycle name then
         model_index ← int_of_string (remove_all ".pth" (remove_all "model-" name));
         Some (Z.max ensemble_model_index (model_index + 1))
       else Some ensemble_model_index)
    (Some 0%Z) names.

(** ** Factories *)

Definition model_types : list string :=
  ["resnet"; "seresnext50"; "seresnext101"; "seresnet50"; "seresnet101";
   "seresnet152"; "senet154"; "nasnet"; "cnn"; "residual_cnn"; "fc_cnn";
   "hc_fc_cnn"; "mobilenetv2"; "drn_d_38"; "drn_d_54"; "drn_d_105";
   "seresnext50_cs"; "stack"].

Definition member (x : string) (l : list string) : bool :=
  existsb (String.eqb x) l.

(** [create_criterion(loss_type, num_classes)], as the tag of the loss
    it builds. *)
Definition create_criterion (loss_type : string) : option string :=
  if member loss_type ["cce"; "focal"; "topk_svm"; "center"]
  then Some loss_type else None.

(** The optimizer built by [create_optimizer(type, model, lr)]. *)
Record optimizer : Type := {
  opt_type : string;
  opt_lr : Q
}.

Definition create_optimizer (type : string) (lr : Q) : option optimizer :=
  if member type ["adam"; "sgd"]
  then Some {| opt_type := type; opt_lr := lr |} else None.

(** [CosineAnnealingLR(optimizer, T_max=..., eta_min=...)]. *)
Record cosine_annealing : Type := {
  T_max : Z;
  eta_min : Q
}.

(** ** Arguments and state *)

(** The command line arguments read by the loop. *)
Record args : Type := {
  epochs_to_train : Z;
  lr_scheduler_type : string;
  lr_min : Q;
  lr_max : Q;
  lr_min_decay : Q;
  lr_max_decay : Q;
  optimizer_type : string;
  loss_type : string;
  loss2_type : option string;
  loss2_start_sgdr_cycle : option Z;
  model_type : string;
  patience : Z;
  sgdr_cycle_epochs : Z;
  sgdr_cycle_epochs_mult : Q;
  sgdr_cycle_end_prolongation : Z;
  sgdr_cycle_end_patience : Z;
  max_sgdr_cycles : option Z
}.

Section Main.

(** A [state_dict]. *)
Context {Weights : Type}.

(** The local variables of [main] that live across epochs, and the
    [*.pth] files of the output directory. *)
Record loop_state : Type := {
  (** the weights of [model] *)
  model : Weights;
  files : gmap string Weights;
  global_val_mapk_best_avg : Py.score;
  sgdr_cycle_val_mapk_best_avg : Py.score;
  current_sgdr_cycle_epochs : Z;
  sgdr_next_cycle_end_epoch : Z;
  sgdr_iterations : Z;
  sgdr_cycle_count : Z;
  ensemble_model_index : Z;
  batch_count : Z;
  epoch_of_last_improval : Z;
  the_optimizer : optimizer;
  lr_scheduler : cosine_annealing;
  criterion : string
}.

(** What the collaborators deliver in one epoch. *)
Record epoch_obs : Type := {
  (** [len(train_set_data_loader)], the mini-batches of the pass *)
  o_batches : nat;
  (** [train_loss_sum_t.item()] once the pass is over *)
  o_train_loss_sum : Q;
  (** [model.state_dict()] once the pass is over *)
  o_state_dict : Weights;
  (** the result of [evaluate(model, val_set_data_loader, criterion,
      mapk_topk)] after the shard rotation *)
  o_val : option Metrics.averages
}.

(** What one iteration of [for epoch in range(epochs_to_train)] leaves
    behind. *)
Record epoch_result : Type := {
  r_state : loop_state;
  r_val_mapk_avg : Q;
  r_ckpt_saved : bool;
  r_sgdr_reset : bool;
  (** an exception ended the epoch after the checkpoint decisions *)
  r_raised : bool;
  r_break : bool
}.

(** The untrained weights of [create_model]. *)
Variable fresh_weights : Weights.

(** [create_model(type, input_size, num_classes)], as the weights of the
    model it builds. *)
Definition create_model (type : string) : option Weights :=
  if member type model_types then Some fresh_weights else None.

(** Lines 295-303: the model the run starts from and the output
    directory once [torch.save(model.state_dict(), ".../model.pth")] has
    run.  [base_model_dir] holds the files of that directory when the
    argument is given. *)
Definition initial_checkpoint (a : args)
    (base_model_dir : option (gmap string Weights))
    (output_dir : gmap string Weights)
    : option (Weights * gmap string Weights) :=
  '(model, dir) ←
    match base_model_dir with
    | Some base =>
        let dir := filter (fun e => glob_model_any (fst e) = true) base ∪ output_dir in
        _ ← create_model (model_type a);
        model ← dir !! best_file;
        Some (model, dir)
    | None =>
        model ← create_model (model_type a);
        Some (model, output_dir)
    end;
  Some (model, <[best_file := model]> dir).

(** Lines 295-355: everything [main] does before the first epoch. *)
Definition setup (a : args) (base_model_dir : option (gmap string Weights))
    (output_dir : gmap string Weights) : option (loop_state) :=
  '(model, dir) ← initial_checkpoint a base_model_dir output_dir;
  ensemble_model_index ← first_free_index (map fst (map_to_list dir));
  optimizer ← create_optimizer (optimizer_type a) (lr_max a);
  criterion ← create_criterion (loss_type a);
  Some {| model := model;
          files := dir;
          global_val_mapk_best_avg := Py.NegInf;
          sgdr_cycle_val_mapk_best_avg := Py.NegInf;
          current_sgdr_cycle_epochs := sgdr_cycle_epochs a;
          sgdr_next_cycle_end_epoch :=
            (sgdr_cycle_epochs a + sgdr_cycle_end_prolongation a)%Z;
          sgdr_iterations := 0;
          sgdr_cycle_count := 0;
          ensemble_model_index := ensemble_model_index;
          batch_count := 0;
          epoch_of_last_improval := 0;
          the_optimizer := optimizer;
          lr_scheduler := {| T_max := sgdr_cycle_epochs a; eta_min := lr_min a |};
          criterion := criterion |}.

(** Lines 377-408 and 425-436: the weights and the counters left by
    the training pass, and the two checkpoint decisions for the score
    [val_mapk_avg], each of which saves [model.state_dict()].  The flag
    is [model_improved], which is also [ckpt_saved]. *)
Definition checkpoint_decisions (epoch : Z) (st : loop_state) (o : epoch_obs)
    (val_mapk_avg : Q) : loop_state * bool :=
  let model_improved_within_sgdr_cycle :=
    Py.gt val_mapk_avg (sgdr_cycle_val_mapk_best_avg st) in
  let dir :=
    if model_improved_within_sgdr_cycle
    then <[cycle_file (ensemble_model_index st) := o_state_dict o]> (files st)
    else files st in
  let model_improved := Py.gt val_mapk_avg (global_val_mapk_best_avg st) in
  ({| model := o_state_dict o;
      files :=
        if model_improved then <[best_file := o_state_dict o]> dir else dir;
      global_val_mapk_best_avg :=
        if model_improved then Py.Fin val_mapk_avg
        else global_val_mapk_best_avg st;
      sgdr_cycle_val_mapk_best_avg :=
        if model_improved_within_sgdr_cycle then Py.Fin val_mapk_avg
        else sgdr_cycle_val_mapk_best_avg st;
      current_sgdr_cycle_epochs := current_sgdr_cycle_epochs st;
      sgdr_next_cycle_end_epoch := sgdr_next_cycle_end_epoch st;
      sgdr_iterations := (sgdr_iterations st + Z.of_nat (o_batches o))%Z;
      sgdr_cycle_count := sgdr_cycle_count st;
      ensemble_model_index := ensemble_model_index st;
      batch_count := (batch_count st + Z.of_nat (o_batches o))%Z;
      epoch_of_last_improval :=
        if model_improved then epoch else epoch_of_last_improval st;
      the_optimizer := the_optimizer st;
      lr_scheduler := lr_scheduler st;
      criterion := criterion st |},
   model_improved).

(** Line 439: the test of the SGDR restart. *)
Definition restart_due (a : args) (epoch : Z) (st : loop_state) : bool :=
  (sgdr_next_cycle_end_epoch st <=? epoch + 1)%Z
  && (sgdr_cycle_end_patience a <=? epoch - epoch_of_last_improval st)%Z.

(** Lines 440-446: the variables reassigned by a restart. *)
Definition restart_variables (a : args) (epoch : Z) (st : loop_state)
    : loop_state :=
  let current_sgdr_cycle_epochs :=
    Py.int_of_float
      (inject_Z (current_sgdr_cycle_epochs st) * sgdr_cycle_epochs_mult a) in
  {| model := model st;
     files := files st;
     global_val_mapk_best_avg := global_val_mapk_best_avg st;
     sgdr_cycle_val_mapk_best_avg := Py.NegInf;
     current_sgdr_cycle_epochs := current_sgdr_cycle_epochs;
     sgdr_next_cycle_end_epoch :=
       (epoch + 1 + current_sgdr_cycle_epochs + sgdr_cycle_end_prolongation a)%Z;
     sgdr_iterations := 0;
     sgdr_cycle_count := (sgdr_cycle_count st + 1)%Z;
     ensemble_model_index := (ensemble_model_index st + 1)%Z;
     batch_count := batch_count st;
     epoch_of_last_improval := epoch_of_last_improval st;
     the_optimizer := the_optimizer st;
     lr_scheduler := lr_scheduler st;
     criterion := criterion st |}.

(** Lines 438-447: the variables after the restart test, from the state
    left by the checkpoint decisions. *)
Definition after_restart_test (a : args) (epoch : Z) (st1 : loop_state)
    : loop_state :=
  if restart_due a epoch st1 then restart_variables a epoch st1 else st1.

(** Lines 449-456, on the state left by [restart_variables]: the
    optimizer and the scheduler with the decayed bounds, and the loss
    once the second one is due.  Both factories raise on an unknown
    tag, and so does the comparison with a missing
    [loss2_start_sgdr_cycle]. *)
Definition restart_objects (a : args) (st : loop_state) : option loop_state :=
  let new_lr_min := (lr_min a * Qpower (lr_min_decay a) (sgdr_cycle_count st))%Q in
  let new_lr_max := (lr_max a * Qpower (lr_max_decay a) (sgdr_cycle_count st))%Q in
  optimizer ← create_optimizer (optimizer_type a) new_lr_max;
  criterion ←
    match loss2_type a with
    | Some loss2 =>
        start ← loss2_start_sgdr_cycle a;
        if (start <=? sgdr_cycle_count st)%Z then create_criterion loss2
        else Some (criterion st)
    | None => Some (criterion st)
    end;
  Some {| model := model st;
          files := files st;
          global_val_mapk_best_avg := global_val_mapk_best_avg st;
          sgdr_cycle_val_mapk_best_avg := sgdr_cycle_val_mapk_best_avg st;
          current_sgdr_cycle_epochs := current_sgdr_cycle_epochs st;
          sgdr_next_cycle_end_epoch := sgdr_next_cycle_end_epoch st;
          sgdr_iterations := sgdr_iterations st;
          sgdr_cycle_count := sgdr_cycle_count st;
          ensemble_model_index := ensemble_model_index st;
          batch_count := batch_count st;
          epoch_of_last_improval := epoch_of_last_improval st;
          the_optimizer := optimizer;
          lr_scheduler := {| T_max := current_sgdr_cycle_epochs st;
                             eta_min := new_lr_min |};
          criterion := criterion |}.

(** Lines 497-503: the two early aborts. *)
Definition early_abort (a : args) (epoch : Z) (sgdr_reset : bool)
    (st : loop_state) : bool :=
  (sgdr_reset || String.eqb (lr_scheduler_type a) "reduce_on_plateau")
  && (patience a <=? epoch - epoch_of_last_improval st)%Z
  || match max_sgdr_cycles a with
     | Some m => (m <=? sgdr_cycle_count st)%Z
     | None => false
     end.

(** Lines 356-503: the body of the loop for one value of [epoch].
    [None] is an exception raised before the checkpoint decisions: the
    division by [epoch_batch_iter_count] after an empty pass, or
    [evaluate].  An exception raised inside the restart block leaves a
    result with [r_raised] set and the variables as they were at that
    moment. *)
Definition epoch_step (a : args) (epoch : Z) (st : loop_state) (o : epoch_obs)
    : option epoch_result :=
  _ ← Metrics.float_div_int (o_train_loss_sum o) (Z.of_nat (o_batches o));
  r ← o_val o;
  let val_mapk_avg := Metrics.mapk_avg r in
  let decisions := checkpoint_decisions epoch st o val_mapk_avg in
  let st1 := fst decisions in
  let ckpt_saved := snd decisions in
  let sgdr_reset := restart_due a epoch st1 in
  let st2 := after_restart_test a epoch st1 in
  match (if sgdr_reset then restart_objects a st2 else Some st2) with
  | None =>
      Some {| r_state := st2;
              r_val_mapk_avg := val_mapk_avg;
              r_ckpt_saved := ckpt_saved;
              r_sgdr_reset := sgdr_reset;
              r_raised := true;
              r_break := false |}
  | Some st3 =>
      Some {| r_state := st3;
              r_val_mapk_avg := val_mapk_avg;
              r_ckpt_saved := ckpt_saved;
              r_sgdr_reset := sgdr_reset;
              r_raised := false;
              r_break := early_abort a epoch sgdr_reset st3 |}
  end.

(** The loop from a given epoch on: the results of the epochs that
    reached their checkpoint decisions, in order.  The list stops at a
    [break], at a raised exception, or when the epochs are used up. *)
Fixpoint main_loop (a : args) (epoch : Z) (st : loop_state)
    (obs : list epoch_obs) : list epoch_result :=
  match obs with
  | [] => []
  | o :: rest =>
      match epoch_step a epoch st o with
      | None => []
      | Some r =>
          r :: (if r_raised r || r_break r then []
                else main_loop a (epoch + 1) (r_state r) rest)
      end
  end.

(** [for epoch in range(epochs_to_train)], with one observation per
    epoch. *)
Definition run (a : args) (st : loop_state) (obs : list epoch_obs)
    : list epoch_result :=
  main_loop a 0 st (take (Z.to_nat (epochs_to_train a)) obs).

(** The loop states at the points where the run can stop: before the
    first epoch and after every finished one. *)
Definition abort_points (st : loop_state) (trace : list epoch_result)
    : list loop_state :=
  st :: map r_state trace.

End Main.

Arguments loop_state Weights : clear implicits.
Arguments epoch_obs Weights : clear implicits.
Arguments epoch_result Weights : clear implicits.

End Train.

(* ===================================================================== *)
(** * Small concrete instances                                            *)
(* ===================================================================== *)

(** Collaborators small enough to run the definitions on: a model is a
    number that identifies it together with the score it evaluates to,
    and the loader yields one batch. *)
Module Toy.

Definition model : Type := nat * Q.

Definition forward (m : model) (_ : unit) : model := m.

Definition mapk (logits : model) (_ : unit) (_ : Z) : Q := snd logits.

Definition accuracy (_ : model) (_ : unit) (_ : Z) : Q := 0.

Definition ensemble_forward (_ : list model) (_ : unit) : model := (O, 0%Q).

Definition criterion (_ : model) (_ : unit) : Q := 0.

Definition data_loader : list (unit * unit) := [(tt, tt)].

(** [load_ensemble_model] on these collaborators, without a
    [swa_model.pth]. *)
Definition load_ensemble_model (sorted_model_files : list model)
    (ensemble_model_count : Z) : option (list model) :=
  Ensemble.load_ensemble_model forward mapk accuracy ensemble_forward
    sorted_model_files None ensemble_model_count data_loader criterion.

(** The defaults of the command line of [train.py], with the given
    [sgdr_cycle_end_patience] and [sgdr_cycle_epochs_mult]. *)
Definition args_with (cycle_end_patience : Z) (mult : Q) : Train.args :=
  {| Train.epochs_to_train := 500;
     Train.lr_scheduler_type := "cosine_annealing";
     Train.lr_min := 1 # 100;
     Train.lr_max := 1 # 10;
     Train.lr_min_decay := 1;
     Train.lr_max_decay := 1;
     Train.optimizer_type := "sgd";
     Train.loss_type := "cce";
     Train.loss2_type := None;
     Train.loss2_start_sgdr_cycle := None;
     Train.model_type := "cnn";
     Train.patience := 5;
     Train.sgdr_cycle_epochs := 5;
     Train.sgdr_cycle_epochs_mult := mult;
     Train.sgdr_cycle_end_prolongation := 0;
     Train.sgdr_cycle_end_patience := cycle_end_patience;
     Train.max_sgdr_cycles := None |}.

(** An epoch of ten mini-batches that leaves the weights [w] and the
    validation score [val_mapk_avg]. *)
Definition epoch (w : nat) (val_mapk_avg : Q) : Train.epoch_obs nat :=
  {| Train.o_batches := 10;
     Train.o_train_loss_sum := 1;
     Train.o_state_dict := w;
     Train.o_val :=
       Some {| Metrics.loss_avg := 1;
               Metrics.mapk_avg := val_mapk_avg;
               Metrics.accuracy_top1_avg := 0;
               Metrics.accuracy_top3_avg := 0;
               Metrics.accuracy_top5_avg := 0;
               Metrics.accuracy_top10_avg := 0 |} |}.

(** Epoch [i] leaves the weights [i]; the scores rise for three epochs
    and then stay below the third one. *)
Definition epochs_stalling : list (Train.epoch_obs nat) :=
  [epoch 1 (1 # 10); epoch 2 (2 # 10); epoch 3 (3 # 10); epoch 4 (2 # 10);
   epoch 5 (2 # 10); epoch 6 (2 # 10); epoch 7 (2 # 10)].

(** The same with a fourth rising epoch. *)
Definition epochs_stalling_later : list (Train.epoch_obs nat) :=
  [epoch 1 (1 # 10); epoch 2 (2 # 10); epoch 3 (3 # 10); epoch 4 (4 # 10);
   epoch 5 (2 # 10); epoch 6 (2 # 10); epoch 7 (2 # 10)].

(** The state in which [setup] leaves a run from an empty output
    directory, without a base model directory, with 0 as the untrained
    weights and the arguments [args_with]. *)
Definition start_state : Train.loop_state nat :=
  {| Train.model := O;
     Train.files := {[ "model.pth" := O ]};
     Train.global_val_mapk_best_avg := Py.NegInf;
     Train.sgdr_cycle_val_mapk_best_avg := Py.NegInf;
     Train.current_sgdr_cycle_epochs := 5;
     Train.sgdr_next_cycle_end_epoch := 5;
     Train.sgdr_iterations := 0;
     Train.sgdr_cycle_count := 0;
     Train.ensemble_model_index := 0;
     Train.batch_count := 0;
     Train.epoch_of_last_improval := 0;
     Train.the_optimizer := {| Train.opt_type := "sgd"; Train.opt_lr := 1 # 10 |};
     Train.lr_scheduler := {| Train.T_max := 5; Train.eta_min := 1 # 100 |};
     Train.criterion := "cce" |}.

(** The epochs of the run from [start_state]. *)
Definition run (a : Train.args) (obs : list (Train.epoch_obs nat))
    : list (Train.epoch_result nat) :=
  Train.run a start_state obs.

(** A [categories.txt] of eight lines. *)
Definition categories_lines : list string :=
  ["aircraft carrier"; "airplane"; "alarm clock"; "ambulance"; "knife";
   "lighter"; "rifle"; "syringe"].

Definition sample (category : Z) (recognized : bool) : Data.sample unit :=
  {| Data.category := category; Data.drawing := tt;
     Data.recognized := recognized |}.

(** A data directory in which every shard holds the given rows. *)
Definition dir (rows : list (Data.sample unit)) : Data.data_dir unit :=
  {| Data.shard_file := fun _ => Some rows;
     Data.categories_txt := Some categories_lines |}.

(** A shard whose rows have the category ids 0, 1 and 2. *)
Definition rows_012 : list (Data.sample unit) :=
  [sample 0 true; sample 1 true; sample 2 true].

(** A shard with rows of the category ids 200 and 201, one of them
    unrecognized. *)
Definition rows_200 : list (Data.sample unit) :=
  [sample 200 true; sample 201 false; sample 200 true; sample 201 true].

(** A splitter that sends the first row to the test side and the other
    rows to the train side. *)
Definition split (n : nat) (_ : Q) (_ : list Z) (_ : Z)
    : option (list nat * list nat) :=
  Some (seq 1 (n - 1), take 1 (seq 0 n)).

(** A provider of two shards with one request ahead and one worker,
    whose shuffle leaves the shard list as it is. *)
Definition provider : option (Provider.provider unit) :=
  Provider.TrainDataProvider (fun l => l) (dir rows_200) 2 1 1 (1 # 10) true 1 0.

End Toy.

(* ===================================================================== *)
(** * utils.py: strokes and learning rates                                *)
(* ===================================================================== *)

Module Utils.

(** A stroke is the list of its coordinate lists, [s[0]] the xs and
    [s[1]] the ys; a drawing is a list of strokes. *)
Definition stroke : Type := list (list Z).
Definition drawing : Type := list stroke.

(** [len(s[0])]: IndexError on a stroke without coordinate lists. *)
Definition stroke_points (s : stroke) : option Z :=
  xs ← Provider.py_index s 0; Some (Z.of_nat (length xs)).

(** [flatten_strokes(drawing, axis)]. *)
Fixpoint flatten_strokes (d : drawing) (axis : Z) : option (list Z) :=
  match d with
  | [] => Some []
  | s :: rest =>
      a ← Provider.py_index s axis;
      r ← flatten_strokes rest axis;
      Some (a ++ r)
  end.

(** [flatten_stroke_lens(drawing)]. *)
Definition flatten_stroke_lens (d : drawing) : option (list Z) :=
  mapM stroke_points d.

(** [s_start[0] = 1]: IndexError on an empty list. *)
Definition set_first_to_one (l : list Z) : option (list Z) :=
  match l with
  | [] => None
  | _ :: l' => Some (1 :: l')
  end.

(** [encode_stroke_start(drawing)]. *)
Fixpoint encode_stroke_start (d : drawing) : option (list Z) :=
  match d with
  | [] => Some []
  | s :: rest =>
      n ← stroke_points s;
      s_start ← set_first_to_one (repeat 0 (Z.to_nat n));
      r ← encode_stroke_start rest;
      Some (s_start ++ r)
  end.

(** The loop of [assemble_strokes], from a given [offset]. *)
Fixpoint assemble_from (x y : list Z) (offset : Z) (lens : list Z) : drawing :=
  match lens with
  | [] => []
  | l :: rest =>
      [Data.py_slice offset (offset + l) x; Data.py_slice offset (offset + l) y]
      :: assemble_from x y (offset + l) rest
  end.

(** [assemble_strokes(x, y, lens)]. *)
Definition assemble_strokes (x y lens : list Z) : drawing :=
  assemble_from x y 0 lens.

(** [sum(l)] on ints. *)
Definition py_sum (l : list Z) : Z := fold_left Z.add l 0.

(** [math.ceil(a / b)] for ints [a] and [b]: ZeroDivisionError when
    [b = 0]. *)
Definition ceil_div (a b : Z) : option Z :=
  if b =? 0 then None else Some (Qceiling (inject_Z a / inject_Z b)).

(** The first loop of [partition_strokes]; [s == len(strokes) - 1] holds
    at the last stroke, the one with nothing after it. *)
Fixpoint partition_loop (partition_num_points : Z) (strokes : list stroke)
    (partitions : list (list stroke)) (current_partition : list stroke)
    (current_partition_points : Z) : option (list (list stroke)) :=
  match strokes with
  | [] => Some partitions
  | s :: rest =>
      n ← stroke_points s;
      let current_partition := current_partition ++ [s] in
      let current_partition_points := current_partition_points + n in
      if (partition_num_points <=? current_partition_points)
         || (match rest with [] => true | _ => false end)
      then partition_loop partition_num_points rest
             (partitions ++ [current_partition]) [] 0
      else partition_loop partition_num_points rest partitions
             current_partition current_partition_points
  end.

(** [for _ in range(len(partitions), num_partitions):
    partitions.append([])]. *)
Definition pad_partitions (num_partitions : Z)
    (partitions : list (list stroke)) : list (list stroke) :=
  partitions
  ++ repeat [] (Z.to_nat (num_partitions - Z.of_nat (length partitions))).

(** [partition_strokes(strokes, num_partitions)]. *)
Definition partition_strokes (strokes : list stroke) (num_partitions : Z)
    : option (list (list stroke)) :=
  lens ← mapM stroke_points strokes;
  let total_num_points := py_sum lens in
  partition_num_points ← ceil_div total_num_points num_partitions;
  partitions ← partition_loop partition_num_points strokes [] [] 0;
  Some (pad_partitions num_partitions partitions).

(** The [param_groups] of an optimizer: each group is a dict of its
    settings. *)
Definition param_groups : Type := list (gmap string Q).

(** [adjust_learning_rate(optimizer, lr)]: the groups after the call;
    the value returned is [lr] itself. *)
Definition adjust_learning_rate (optimizer : param_groups) (lr : Q)
    : param_groups :=
  map (fun param_group => <["lr"%string := lr]> param_group) optimizer.

(** [get_learning_rate(optimizer)]: KeyError when the first group has
    no ["lr"]; with no group at all the loop body never runs and the
    function returns [None], which is [Some None] here. *)
Definition get_learning_rate (optimizer : param_groups) : option (option Q) :=
  match optimizer with
  | [] => Some None
  | param_group :: _ => lr ← param_group !! "lr"%string; Some (Some lr)
  end.

End Utils.

(* ===================================================================== *)
(** * train.py: inside one epoch                                          *)
(* ===================================================================== *)

Module Epoch.

(** [list(range(a, b, step))]: ValueError for a zero step. *)
Definition py_range3 (a b step : Z) : option (list Z) :=
  if step =? 0 then None
  else
    let n :=
      if 0 <? step then (b - a + step - 1) / step
      else (a - b - step - 1) / (- step) in
    Some (map (fun i => a + Z.of_nat i * step) (seq 0 (Z.to_nat n))).

(** Line 270: [progressive_image_sizes]. *)
Definition progressive_image_sizes
    (progressive_image_size_min image_size progressive_image_size_step : Z)
    : option (list Z) :=
  py_range3 progressive_image_size_min (image_size + 1)
    progressive_image_size_step.

(** Lines 362-363: [next_image_size] for an epoch. *)
Definition next_image_size (progressive_image_sizes : list Z)
    (epoch progressive_image_epoch_step : Z) : option Z :=
  q ← Data.floordiv epoch progressive_image_epoch_step;
  Provider.py_index progressive_image_sizes
    (Z.min q (Z.of_nat (length progressive_image_sizes) - 1)).

(** The gradients of the optimizer during a pass: the mini-batches
    whose [loss.backward()] has added to the gradient buffers since the
    last [optimizer.zero_grad()], and the sets of mini-batches whose
    gradients each [optimizer.step()] has applied, in order. *)
Record gradients : Type := {
  accumulated : list nat;
  applied : list (list nat)
}.

(** Lines 385-398 for the mini-batch [b] of a loader of [n]
    mini-batches. *)
Definition batch_step (batch_iterations : Z) (n : nat) (g : gradients)
    (b : nat) : option gradients :=
  first ← Provider.py_mod (Z.of_nat b) batch_iterations;
  let acc := (if first =? 0 then [] else accumulated g) ++ [b] in
  last ← Provider.py_mod (Z.of_nat b + 1) batch_iterations;
  if (last =? 0) || (Z.of_nat b + 1 =? Z.of_nat n)
  then Some {| accumulated := acc; applied := applied g ++ [acc] |}
  else Some {| accumulated := acc; applied := applied g |}.

(** [for b, batch in enumerate(train_set_data_loader)], over the given
    indices. *)
Fixpoint batches (batch_iterations : Z) (n : nat) (g : gradients)
    (bs : list nat) : option gradients :=
  match bs with
  | [] => Some g
  | b :: rest =>
      g' ← batch_step batch_iterations n g b;
      batches batch_iterations n g' rest
  end.

(** The pass over a loader of [n] mini-batches, from the gradient
    buffers [left_over] of the previous pass. *)
Definition training_pass (batch_iterations : Z) (n : nat)
    (left_over : list nat) : option gradients :=
  batches batch_iterations n {| accumulated := left_over; applied := [] |}
    (seq 0 n).

(** What holds after the mini-batches [0 .. b-1] while the last
    mini-batch is still to come: full groups have been applied, and the
    open group is accumulated. *)
Definition in_pass (k : Z) (b : nat) (g : gradients) : Prop :=
  concat (applied g)
    ++ (if Z.of_nat b mod k =? 0 then [] else accumulated g) = seq 0 b
  /\ Forall (fun s => Z.of_nat (length s) = k) (applied g)
  /\ (Z.of_nat b mod k <> 0 -> Z.of_nat (length (accumulated g)) = Z.of_nat b mod k)
  /\ Z.of_nat (length (applied g)) = Z.of_nat b / k.

End Epoch.

(* ===================================================================== *)
(** * train.py: what [load_ensemble_model] retains                        *)
(* ===================================================================== *)

Module Ranking.

Import Ensemble.

(** No two scores of the list are equal. *)
Definition pairwise_distinct (vs : list Q) : Prop :=
  forall (i j : nat) (vi vj : Q),
    i <> j -> vs !! i = Some vi -> vs !! j = Some vj -> ~ (vi == vj)%Q.

(** The dictionary holds the best of the scores seen so far: as many
    entries as scores were seen, up to [K]; every score seen is a key
    or, once the dictionary is full, lies strictly below every key; and
    every key is a score that was seen. *)
Definition kept_best {V : Type} (K : Z) (seen : list Q) (d : dict V) : Prop :=
  Z.of_nat (length d) = Z.min (Z.of_nat (length seen)) K
  /\ Forall
       (fun s =>
          dict_mem s d = true
          \/ (K <= Z.of_nat (length d)
              /\ forall k, dict_mem k d = true -> (s < k)%Q))
       seen
  /\ (forall k, dict_mem k d = true -> Exists (fun s => (s == k)%Q) seen).

End Ranking.


(* ===================================================================== *)
(** * train.py: the best checkpoint among the per-cycle checkpoints       *)
(* ===================================================================== *)

Module Cycles.

Import Train.

(** The in-cycle best score does not exceed the best score of the run,
    and once a score has been recorded [model.pth] has the content of a
    per-cycle file of a slot used by this run; when that slot is the
    current one, the two best scores are the same. *)
Definition best_is_cycle_checkpoint {Weights : Type} (first_slot : Z)
    (st : loop_state Weights) : Prop :=
  Py.score_le (sgdr_cycle_val_mapk_best_avg st) (global_val_mapk_best_avg st)
  /\ (global_val_mapk_best_avg st <> Py.NegInf ->
      exists (i : Z) (w : Weights),
        first_slot <= i <= ensemble_model_index st
        /\ files st !! cycle_file i = Some w
        /\ files st !! best_file = Some w
        /\ (i = ensemble_model_index st ->
            sgdr_cycle_val_mapk_best_avg st = global_val_mapk_best_avg st)).

(** The arguments of [Toy.args_with 1 1] with [--max_sgdr_cycles]. *)
Definition args_with_max_sgdr_cycles (m : Z) : Train.args :=
  {| Train.epochs_to_train := 500;
     Train.lr_scheduler_type := "cosine_annealing";
     Train.lr_min := 1 # 100;
     Train.lr_max := 1 # 10;
     Train.lr_min_decay := 1;
     Train.lr_max_decay := 1;
     Train.optimizer_type := "sgd";
     Train.loss_type := "cce";
     Train.loss2_type := None;
     Train.loss2_start_sgdr_cycle := None;
     Train.model_type := "cnn";
     Train.patience := 5;
     Train.sgdr_cycle_epochs := 5;
     Train.sgdr_cycle_epochs_mult := 1;
     Train.sgdr_cycle_end_prolongation := 0;
     Train.sgdr_cycle_end_patience := 1;
     Train.max_sgdr_cycles := Some m |}.

End Cycles.


(* ===================================================================== *)
(** * dataset.py: the order in which shards are served                    *)
(* ===================================================================== *)

Module RoundRobin.

Import Provider.

Section TrainDataProvider.

Context {Drawing : Type}.

(** Two providers with the same settings and the same shard list. *)
Definition same_settings (p p' : provider Drawing) : Prop :=
  data_dir p' = data_dir p /\ test_size p' = test_size p
  /\ train_on_unrecognized p' = train_on_unrecognized p
  /\ num_category_shards p' = num_category_shards p
  /\ category_shard p' = category_shard p
  /\ shards p' = shards p.

(** The provider has served [served] shards: its pending requests are
    for the next positions of the shard list, wrapping around, with the
    provider's settings, and the cursor is at the position after
    them. *)
Definition serves (p : provider Drawing) (served : Z) : Prop :=
  let n := Z.of_nat (length (shards p)) in
  next_shard_index p = (served + Z.of_nat (length (requests p))) mod n
  /\ forall (j : nat) (r : request Drawing),
       requests p !! j = Some r ->
       shards p !! Z.to_nat ((served + Z.of_nat j) mod n) = Some (req_shard r)
       /\ req_data_dir r = data_dir p /\ req_test_size r = test_size p
       /\ req_train_on_unrecognized r = train_on_unrecognized p
       /\ req_num_category_shards r = num_category_shards p
       /\ req_category_shard r = category_shard p.

End TrainDataProvider.

End RoundRobin.


(* ===================================================================== *)
(** * train.py: the slot of the first per-cycle checkpoint                *)
(* ===================================================================== *)

Module Slots.

Import Train.

(** Every character of the string passes the test. *)
Fixpoint all_chars (P : Ascii.ascii -> bool) (s : string) : bool :=
  match s with
  | EmptyString => true
  | String c s' => P c && all_chars P s'
  end.

(** A decimal digit. *)
Definition is_digit (c : Ascii.ascii) : bool :=
  match digit_of c with Some _ => true | None => false end.

(** Lines 307-308: the number read from the base name of a per-cycle
    file. *)
Definition model_index (name : string) : option Z :=
  int_of_string (remove_all ".pth" (remove_all "model-" name)).

End Slots.


(* ===================================================================== *)
(** * train.py: [find_sorted_model_files]                                 *)
(* ===================================================================== *)

Module ModelFiles.

Import Train.

(** [s[a:b]] on a string. *)
Definition str_slice (a b : Z) (s : string) : string :=
  string_of_list_ascii (Data.py_slice a b (list_ascii_of_string s)).

(** The sort key of line 187: [int(os.path.basename(e)[6:-4])]. *)
Definition sort_key (name : string) : option Z :=
  int_of_string (str_slice 6 (-4) name).

(** [sorted] puts an element in front of the first element of the
    sorted rest whose key is not smaller: elements with equal keys keep
    their order. *)
Fixpoint insert_by_key {A : Type} (k : Z) (x : A) (l : list (Z * A))
    : list (Z * A) :=
  match l with
  | [] => [(k, x)]
  | (k', y) :: l' =>
      if k <=? k' then (k, x) :: (k', y) :: l'
      else (k', y) :: insert_by_key k x l'
  end.

(** The order of two elements paired with their keys. *)
Definition by_key {A : Type} (e1 e2 : Z * A) : Prop := (fst e1 <= fst e2)%Z.

(** [sorted(l, key=...)] on the elements paired with their keys. *)
Definition sorted_by_key {A : Type} (l : list (Z * A)) : list A :=
  map snd (foldr (fun e acc => insert_by_key (fst e) (snd e) acc) [] l).

(** [find_sorted_model_files(base_dir)], as base names; [glob] lists the
    matching files of the directory in the order [listing].  The keys
    are computed for all names before any comparison, and the first
    name without a key raises. *)
Definition find_sorted_model_files (listing : list string)
    : option (list string) :=
  let names := List.filter glob_model_cycle listing in
  keys ← mapM sort_key names;
  Some (sorted_by_key (zip keys names)).

End ModelFiles.


(* ===================================================================== *)
(** * utils.py: [draw_strokes]                                            *)
(* ===================================================================== *)

Module Draw.

Import Utils.

Definition draw_size : Z := 256.

(** [scale_factor = (draw_size - 2 * padding) / draw_size]. *)
Definition scale_factor (padding : Z) : Q :=
  inject_Z (draw_size - 2 * padding) / inject_Z draw_size.

(** [int(scale_factor * v) + padding].  For a padding and a coordinate
    [v] of at most a few digits, as in the simplified drawings, the
    quotient by 256 and the product are exact in floating point, so
    the rational value is the value computed. *)
Definition scaled (padding v : Z) : Z :=
  Py.int_of_float (scale_factor padding * inject_Z v) + padding.

(** A call [cv2.line(image, pt1, pt2, color, line_width)]; the image
    and the line width are the same in every call. *)
Record line_call : Type := {
  pt1 : Z * Z;
  pt2 : Z * Z;
  line_color : Z
}.

(** The body of [for i in range(len(stroke[0]) - 1)]. *)
Definition segment (padding : Z) (fliplr : bool) (s : stroke)
    (stroke_color i : Z) : option line_call :=
  xs ← Provider.py_index s 0;
  a0 ← Provider.py_index xs i;
  ys ← Provider.py_index s 1;
  b0 ← Provider.py_index ys i;
  a1 ← Provider.py_index xs (i + 1);
  b1 ← Provider.py_index ys (i + 1);
  let x0 := scaled padding a0 in
  let y0 := scaled padding b0 in
  let x1 := scaled padding a1 in
  let y1 := scaled padding b1 in
  let x0 := if fliplr then draw_size - x0 else x0 in
  let x1 := if fliplr then draw_size - x1 else x1 in
  Some {| pt1 := (x0, y0); pt2 := (x1, y1); line_color := stroke_color |}.

(** The lines drawn for one stroke. *)
Definition stroke_lines (padding : Z) (fliplr : bool) (s : stroke)
    (stroke_color : Z) : option (list line_call) :=
  n ← stroke_points s;
  mapM (segment padding fliplr s stroke_color) (Provider.py_range (n - 1)).

(** [for s, stroke in enumerate(strokes)], from the index [s] on. *)
Fixpoint draw_from (padding : Z) (fliplr : bool) (stroke_colors : list Z)
    (s : Z) (strokes : drawing) : option (list line_call) :=
  match strokes with
  | [] => Some []
  | stroke :: rest =>
      c ← Provider.py_mod s (Z.of_nat (length stroke_colors));
      stroke_color ← Provider.py_index stroke_colors c;
      ls ← stroke_lines padding fliplr stroke stroke_color;
      r ← draw_from padding fliplr stroke_colors (s + 1) rest;
      Some (ls ++ r)
  end.

(** [draw_strokes(strokes, size, line_width, padding, fliplr)], as the
    calls of [cv2.line] it makes, in order. *)
Definition draw_strokes (strokes : drawing) (padding : Z) (fliplr : bool)
    : option (list line_call) :=
  stroke_colors ← Epoch.py_range3 0 240 40;
  draw_from padding fliplr stroke_colors 0 strokes.

(** A point of the 256 x 256 canvas that keeps the distance [padding]
    from its border; a mirrored x coordinate lies one pixel further to
    the right. *)
Definition inset (padding : Z) (fliplr : bool) (p : Z * Z) : Prop :=
  (if fliplr then padding + 1 <= fst p <= draw_size - padding
   else padding <= fst p <= draw_size - 1 - padding)
  /\ padding <= snd p <= draw_size - 1 - padding.

(** A stroke with as many ys as xs, all of them between 0 and 255. *)
Definition simplified (s : stroke) : Prop :=
  exists xs ys,
    s = [xs; ys] /\ length xs = length ys
    /\ Forall (fun v => 0 <= v <= 255) xs
    /\ Forall (fun v => 0 <= v <= 255) ys.

(** The number of lines of a stroke: one less than its points. *)
Definition segments (s : stroke) : nat :=
  match s with
  | xs :: _ => (length xs - 1)%nat
  | [] => O
  end.

End Draw.


(* ===================================================================== *)
(** * train.py and confusion_analysis.py: predicted words                 *)
(* ===================================================================== *)

Module Words.

(** [s.replace(old, new)] for one-character strings [old] and [new]. *)
Fixpoint replace_char (old new : Ascii.ascii) (s : string) : string :=
  match s with
  | EmptyString => EmptyString
  | String c s' =>
      String (if Ascii.eqb c old then new else c) (replace_char old new s')
  end.

(** [sep.join(l)]. *)
Fixpoint join (sep : string) (l : list string) : string :=
  match l with
  | [] => EmptyString
  | [x] => x
  | x :: rest => x +:+ sep +:+ join sep rest
  end.

(** [s.split(sep)] for a one-character string [sep]: empty pieces are
    kept, and the empty string gives one empty piece. *)
Fixpoint split (sep : Ascii.ascii) (s : string) : list string :=
  match s with
  | EmptyString => [EmptyString]
  | String c s' =>
      if Ascii.eqb c sep then EmptyString :: split sep s'
      else
        match split sep s' with
        | w :: ws => String c w :: ws
        | [] => [String c EmptyString]
        end
  end.

(** train.py, lines 132 and 152: the word written for one sample, whose
    top predictions are the category ids [pc];
    [categories[pc]] raises for an id outside the list. *)
Definition predicted_word (categories : list string) (pc : list Z)
    : option string :=
  let categories := map (replace_char " " "_") categories in
  names ← mapM (Provider.py_index categories) pc;
  Some (join " " names).

(** confusion_analysis.py, line 40: the converter of the [word]
    column. *)
Definition word_converter (word : string) : list string :=
  map (replace_char "_" " ") (split " " word).

End Words.


(* ===================================================================== *)
(** * Properties                                                          *)
(* ===================================================================== *)

(** ** Comparisons of scores *)

Module PyFacts.

Import Py.

Lemma Qlt_bool_iff (a b : Q) : Qlt_bool a b = true <-> (a < b)%Q.
Proof.
  unfold Qlt_bool. rewrite negb_true_iff.
  destruct (Qle_bool b a) eqn:E.
  - apply Qle_bool_iff in E. split; [discriminate|].
    intros H. exfalso. exact (Qlt_not_le _ _ H E).
  - split; [intros _|reflexivity].
    apply Qnot_le_lt. intros H. apply Qle_bool_iff in H. congruence.
Qed.

Lemma Qlt_bool_false_iff (a b : Q) : Qlt_bool a b = false <-> (b <= a)%Q.
Proof.
  unfold Qlt_bool. rewrite negb_false_iff. apply Qle_bool_iff.
Qed.

Lemma Qlt_bool_irrefl (a b : Q) : (a == b)%Q -> Qlt_bool a b = false.
Proof.
  intros H. apply Qlt_bool_false_iff. rewrite H. apply Qle_refl.
Qed.

Lemma score_le_refl (a : score) : score_le a a.
Proof. destruct a; simpl; [exact I | apply Qle_refl]. Qed.

Lemma score_le_trans (a b c : score) :
  score_le a b -> score_le b c -> score_le a c.
Proof.
  destruct a, b, c; simpl; try tauto. apply Qle_trans.
Qed.

Lemma gt_iff (v : Q) (best : score) : gt v best = true <-> exceeds v best.
Proof.
  destruct best as [|b]; simpl; [tauto|]. apply Qlt_bool_iff.
Qed.

(** A score that does not beat the best one is at most the best one. *)
Lemma gt_false_le (v : Q) (best : score) :
  gt v best = false -> score_le (Fin v) best.
Proof.
  destruct best as [|b]; simpl; [discriminate|].
  apply Qlt_bool_false_iff.
Qed.

(** A score that beats the best one is above it. *)
Lemma gt_true_le (v : Q) (best : score) :
  gt v best = true -> score_le best (Fin v).
Proof.
  destruct best as [|b]; simpl; [trivial|].
  intros H. apply Qlt_bool_iff in H. apply Qlt_le_weak, H.
Qed.

End PyFacts.

(** ** [evaluate] *)

Module MetricsFacts.

Import Metrics.

Section Evaluate.

Context {Model Images Labels Logits : Type}.
Variable forward : Model -> Images -> Logits.
Variable mapk : Logits -> Labels -> Z -> Q.
Variable accuracy : Logits -> Labels -> Z -> Q.

Lemma step_count_fold model criterion k (l : list (Images * Labels)) (acc : sums) :
  step_count (fold_left (evaluate_batch forward mapk accuracy model criterion k) l acc)
  = step_count acc + Z.of_nat (length l).
Proof.
  revert acc. induction l as [|b l IH]; intros acc; simpl fold_left.
  - simpl. lia.
  - rewrite IH. simpl step_count. rewrite length_cons. lia.
Qed.

Lemma step_count_accumulate model criterion k (l : list (Images * Labels)) :
  step_count (accumulate forward mapk accuracy model criterion k l)
  = Z.of_nat (length l).
Proof. unfold accumulate. rewrite step_count_fold. reflexivity. Qed.

(** [x / n] succeeds exactly when [n] is not zero. *)
Lemma float_div_int_nonzero (x : Q) (n : Z) :
  n <> 0 -> float_div_int x n = Some (x / inject_Z n)%Q.
Proof.
  intros Hn. unfold float_div_int.
  destruct (Z.eqb_spec n 0); [contradiction|reflexivity].
Qed.

(** [evaluate] returns on the loaders that yield a batch, and on no
    other. *)
Lemma evaluate_is_Some_iff model (data_loader : list (Images * Labels))
    criterion mapk_topk :
  is_Some (evaluate forward mapk accuracy model data_loader criterion mapk_topk)
  <-> data_loader <> [].
Proof.
  unfold evaluate. rewrite step_count_accumulate.
  destruct data_loader as [|b l].
  - simpl. split; [intros [x Hx]; discriminate|congruence].
  - assert (Hn : Z.of_nat (length (b :: l)) <> 0) by (rewrite length_cons; lia).
    rewrite !(float_div_int_nonzero _ _ Hn). simpl.
    split; [discriminate|eauto].
Qed.

(** C8. [evaluate] divides every accumulated sum by [step_count], the
    number of batches the loader yielded, and nothing guards that count:
    on a loader without batches the first division raises
    ZeroDivisionError and no result is returned; on every other loader
    each of the six results is its accumulated sum divided by the number
    of batches. *)
Theorem evaluate_divides_by_batch_count model (data_loader : list (Images * Labels))
    criterion mapk_topk :
  let s := accumulate forward mapk accuracy model criterion mapk_topk data_loader in
  let n := inject_Z (Z.of_nat (length data_loader)) in
  step_count s = Z.of_nat (length data_loader) /\
  evaluate forward mapk accuracy model data_loader criterion mapk_topk =
    match data_loader with
    | [] => None
    | _ :: _ =>
        Some {| loss_avg := (loss_sum_t s / n)%Q;
                mapk_avg := (mapk_sum_t s / n)%Q;
                accuracy_top1_avg := (accuracy_top1_sum_t s / n)%Q;
                accuracy_top3_avg := (accuracy_top3_sum_t s / n)%Q;
                accuracy_top5_avg := (accuracy_top5_sum_t s / n)%Q;
                accuracy_top10_avg := (accuracy_top10_sum_t s / n)%Q |}
    end.
Proof.
  intros s n. split; [apply step_count_accumulate|].
  unfold evaluate. fold s.
  assert (Hc : step_count s = Z.of_nat (length data_loader))
    by apply step_count_accumulate.
  rewrite Hc. destruct data_loader as [|b l].
  - reflexivity.
  - assert (Hn : Z.of_nat (length (b :: l)) <> 0) by (rewrite length_cons; lia).
    rewrite !(float_div_int_nonzero _ _ Hn). reflexivity.
Qed.

End Evaluate.

End MetricsFacts.

(** ** [TrainDataProvider] *)

Module ProviderFacts.

Import Provider.

Section TrainDataProvider.

Context {Drawing : Type}.
Variable train_test_split :
  nat -> Q -> list Z -> Z -> option (list nat * list nat).

Abbreviation provider := (provider Drawing).
Abbreviation request := (request Drawing).

Lemma py_index_in_range {A : Type} (l : list A) (i : Z) :
  0 <= i < Z.of_nat (length l) -> exists x, py_index l i = Some x.
Proof.
  intros Hi. unfold py_index.
  destruct (Z.leb_spec 0 i); [|lia].
  destruct (Z.ltb_spec i (Z.of_nat (length l))); [|lia].
  simpl. apply lookup_lt_is_Some_2. lia.
Qed.

(** [request_data] appends exactly one request and moves the cursor
    cyclically. *)
Lemma request_data_spec (p : provider) :
  cursor_ok p ->
  exists r p',
    request_data p = Some p' /\
    requests p' = requests p ++ [r] /\
    shards p' = shards p /\
    cursor_ok p'.
Proof.
  intros Hc. unfold request_data.
  destruct (py_index_in_range (shards p) (next_shard_index p) Hc) as [s Hs].
  rewrite Hs. simpl. unfold py_mod.
  unfold cursor_ok in Hc.
  destruct (Z.eqb_spec (Z.of_nat (length (shards p))) 0) as [E|E]; [lia|].
  simpl. eexists _, _. split; [reflexivity|]. simpl.
  split; [reflexivity|]. split; [reflexivity|].
  unfold cursor_ok. simpl. apply Z.mod_pos_bound. lia.
Qed.

Lemma request_data_inv (p p' : provider) :
  request_data p = Some p' ->
  exists r, requests p' = requests p ++ [r] /\ shards p' = shards p.
Proof.
  unfold request_data. intros H.
  destruct (py_index (shards p) (next_shard_index p)) as [s|]; [|discriminate].
  simpl in H.
  destruct (py_mod (next_shard_index p + 1) (Z.of_nat (length (shards p))))
    as [i|]; [|discriminate].
  simpl in H. injection H as <-. simpl. eauto.
Qed.

Lemma request_data_times_length (n : nat) (p p' : provider) :
  request_data_times n p = Some p' ->
  length (requests p') = (length (requests p) + n)%nat.
Proof.
  revert p. induction n as [|n IH]; intros p H; simpl in H.
  - injection H as <-. lia.
  - destruct (request_data p) as [p1|] eqn:E; [|discriminate]. simpl in H.
    apply IH in H. apply request_data_inv in E as (r & Er & _).
    rewrite H, Er, length_app. simpl. lia.
Qed.

(** What one call of [get_next] does to the queue: the new request goes
    to the back, the request at the front is awaited and leaves. *)
Lemma get_next_inv (p p' : provider) (d : Data.train_data Drawing) :
  get_next train_test_split p = Some (d, p') ->
  exists replacement oldest,
    requests p ++ [replacement] = oldest :: requests p' /\
    get train_test_split oldest = Some d.
Proof.
  unfold get_next. intros H.
  destruct (request_data p) as [p1|] eqn:E; [|discriminate]. simpl in H.
  apply request_data_inv in E as (r & Er & _).
  destruct (requests p1) as [|r0 rest] eqn:Eq; [discriminate|]. simpl in H.
  destruct (get train_test_split r0) as [d0|] eqn:Eg; [|discriminate].
  simpl in H. injection H as <- <-. simpl.
  exists r, r0. rewrite <- Er. split; [reflexivity|assumption].
Qed.

Lemma get_next_length (p p' : provider) (d : Data.train_data Drawing) :
  get_next train_test_split p = Some (d, p') ->
  length (requests p') = length (requests p).
Proof.
  intros H. apply get_next_inv in H as (r & r0 & E & _).
  apply (f_equal length) in E. rewrite length_app in E. simpl in E. lia.
Qed.

Lemma get_next_times_length (n : nat) (p p' : provider)
    (ds : list (Data.train_data Drawing)) :
  get_next_times train_test_split n p = Some (ds, p') ->
  length (requests p') = length (requests p).
Proof.
  revert p ds. induction n as [|n IH]; intros p ds H; simpl in H.
  - injection H as _ <-. reflexivity.
  - destruct (get_next train_test_split p) as [[d p1]|] eqn:E; [|discriminate].
    simpl in H.
    destruct (get_next_times train_test_split n p1) as [[ds' p2]|] eqn:E2;
      [|discriminate].
    simpl in H. injection H as _ <-.
    rewrite (IH _ _ E2). exact (get_next_length _ _ _ E).
Qed.

Lemma TrainDataProvider_length shuffle (dir : Data.data_dir Drawing)
    num_shards num_shard_preload num_workers ts tou ncs cs (p : provider) :
  TrainDataProvider shuffle dir num_shards num_shard_preload num_workers
    ts tou ncs cs = Some p ->
  length (requests p) = Z.to_nat num_shard_preload.
Proof.
  unfold TrainDataProvider. destruct (num_workers <? 1); [discriminate|].
  intros H. apply request_data_times_length in H. simpl in H. lia.
Qed.

(** C5. After the construction and after any sequence of [get_next]
    calls that returned, the number of outstanding requests is
    [num_shard_preload]; and every further call that returns has put a
    replacement request at the back of the queue, has awaited and
    removed the oldest request, whose data it returns, and leaves
    [num_shard_preload] requests outstanding again. *)
Theorem get_next_keeps_prefetch_depth shuffle (dir : Data.data_dir Drawing)
    num_shards num_shard_preload num_workers ts tou ncs cs
    (p0 p : provider) (n : nat) (ds : list (Data.train_data Drawing)) :
  0 <= num_shard_preload ->
  TrainDataProvider shuffle dir num_shards num_shard_preload num_workers
    ts tou ncs cs = Some p0 ->
  get_next_times train_test_split n p0 = Some (ds, p) ->
  Z.of_nat (length (requests p)) = num_shard_preload /\
  forall d p',
    get_next train_test_split p = Some (d, p') ->
    (exists replacement oldest,
        requests p ++ [replacement] = oldest :: requests p' /\
        get train_test_split oldest = Some d) /\
    Z.of_nat (length (requests p')) = num_shard_preload.
Proof.
  intros Hpre Hnew Hcalls.
  apply TrainDataProvider_length in Hnew.
  apply get_next_times_length in Hcalls.
  assert (Hlen : Z.of_nat (length (requests p)) = num_shard_preload) by lia.
  split; [exact Hlen|].
  intros d p' Hnext. split.
  - exact (get_next_inv _ _ _ Hnext).
  - apply get_next_length in Hnext. lia.
Qed.

(** *** The calls do return

    With at least one shard, a worker, and shards that load, neither the
    construction nor any call of [get_next] raises. *)

Lemma py_index_elem {A : Type} (l : list A) (i : Z) (x : A) :
  py_index l i = Some x -> x ∈ l.
Proof.
  unfold py_index. intros H.
  destruct ((0 <=? i) && (i <? Z.of_nat (length l))).
  - eapply list_elem_of_lookup_2, H.
  - destruct ((- Z.of_nat (length l) <=? i) && (i <? 0)); [|discriminate].
    eapply list_elem_of_lookup_2, H.
Qed.

Lemma request_data_healthy (p : provider) :
  healthy train_test_split p ->
  exists p', request_data p = Some p' /\ healthy train_test_split p'.
Proof.
  intros (Hc & Hl & Hr).
  destruct (request_data_spec p Hc) as (r & p' & E & Er & Es & Hc').
  exists p'. split; [exact E|].
  unfold request_data in E.
  destruct (py_index (shards p) (next_shard_index p)) as [s|] eqn:Ei;
    [|discriminate].
  simpl in E.
  destruct (py_mod (next_shard_index p + 1) (Z.of_nat (length (shards p))))
    as [i|]; [|discriminate].
  simpl in E. injection E as <-.
  split; [exact Hc'|]. split.
  - exact Hl.
  - intros r' Hin. simpl in Hin. apply elem_of_app in Hin as [Hin|Hin].
    + exact (Hr r' Hin).
    + apply list_elem_of_singleton in Hin as ->. simpl.
      split; [exact (py_index_elem _ _ _ Ei)|]. repeat split.
Qed.

Lemma get_next_healthy (p : provider) :
  healthy train_test_split p ->
  exists d p',
    get_next train_test_split p = Some (d, p') /\ healthy train_test_split p'.
Proof.
  intros Hp.
  destruct (request_data_healthy p Hp) as (p1 & E & Hc1 & Hl1 & Hr1).
  unfold get_next. rewrite E. simpl.
  destruct (request_data_inv _ _ E) as (r & Er & Es).
  destruct (requests p1) as [|r0 rest] eqn:Eq.
  { destruct (requests p); discriminate. }
  simpl.
  assert (Hin : r0 ∈ requests p1) by (rewrite Eq; apply list_elem_of_here).
  destruct (Hr1 r0 Hin) as (Hs & E1 & E2 & E3 & E4 & E5).
  destruct (Hl1 _ Hs) as [d Hd].
  assert (Hg : get train_test_split r0 = Some d).
  { unfold get. rewrite E1, E2, E3, E4, E5. exact Hd. }
  rewrite Hg. simpl. eexists _, _. split; [reflexivity|].
  split; [exact Hc1|]. split; [exact Hl1|].
  intros r' Hr'. simpl in Hr'. apply Hr1. rewrite Eq.
  apply list_elem_of_further, Hr'.
Qed.

Lemma request_data_times_healthy (n : nat) (p : provider) :
  healthy train_test_split p ->
  exists p', request_data_times n p = Some p' /\ healthy train_test_split p'.
Proof.
  revert p. induction n as [|n IH]; intros p Hp; simpl.
  - eauto.
  - destruct (request_data_healthy p Hp) as (p1 & E & Hp1).
    rewrite E. simpl. apply IH, Hp1.
Qed.

Lemma get_next_times_healthy (n : nat) (p : provider) :
  healthy train_test_split p ->
  exists ds p', get_next_times train_test_split n p = Some (ds, p').
Proof.
  revert p. induction n as [|n IH]; intros p Hp; simpl.
  - eauto.
  - destruct (get_next_healthy p Hp) as (d & p1 & E & Hp1).
    rewrite E. simpl.
    destruct (IH p1 Hp1) as (ds & p2 & E2). rewrite E2. simpl. eauto.
Qed.

(** Totality of the construction and of every sequence of calls. *)
Lemma get_next_always_returns shuffle (dir : Data.data_dir Drawing)
    num_shards num_shard_preload num_workers ts tou ncs cs :
  0 < num_shards -> 1 <= num_workers ->
  (forall l, length (shuffle l) = length l) ->
  (forall s, s ∈ shuffle (py_range num_shards) ->
     is_Some (load_data train_test_split dir s ts tou ncs cs)) ->
  exists p0,
    TrainDataProvider shuffle dir num_shards num_shard_preload num_workers
      ts tou ncs cs = Some p0 /\
    forall n, exists ds p,
      get_next_times train_test_split n p0 = Some (ds, p).
Proof.
  intros Hs Hw Hsh Hload. unfold TrainDataProvider.
  destruct (Z.ltb_spec num_workers 1); [lia|].
  match goal with
  | |- context [request_data_times ?n ?p] =>
      destruct (request_data_times_healthy n p) as (p0 & E & Hp0)
  end.
  { split; [|split].
    - unfold cursor_ok. simpl. rewrite Hsh. unfold py_range.
      rewrite length_map, length_seq. lia.
    - intros s Hin. simpl in *. apply Hload, Hin.
    - intros r Hr. simpl in Hr. inversion Hr. }
  exists p0. split; [exact E|].
  intros n. apply get_next_times_healthy, Hp0.
Qed.

End TrainDataProvider.

End ProviderFacts.

(** ** [TrainData] *)

Module DataFacts.

Import Data.

Section TrainData.

Context {Drawing : Type}.
Variable train_test_split :
  nat -> Q -> list Z -> Z -> option (list nat * list nat).

Abbreviation sample := (sample Drawing).

Lemma take_rows_seq_app {A : Type} (l0 l : list A) :
  take_rows (seq (length l0) (length l)) (l0 ++ l) = l.
Proof.
  revert l0. induction l as [|x l IH]; intros l0; [reflexivity|].
  unfold take_rows in *. rewrite length_cons. simpl seq. simpl omap.
  rewrite list_lookup_middle by reflexivity.
  f_equal. specialize (IH (l0 ++ [x])).
  rewrite length_app, <- app_assoc in IH. simpl in IH.
  replace (length l0 + 1)%nat with (S (length l0)) in IH by lia.
  exact IH.
Qed.

Lemma take_rows_all {A : Type} (l : list A) :
  take_rows (seq 0 (length l)) l = l.
Proof. exact (take_rows_seq_app [] l). Qed.

(** When the positions handed out by the splitter are a partition of
    the row positions, the rows of the two sides are a partition of the
    rows. *)
Lemma take_rows_partition {A : Type} (tr va : list nat) (l : list A) :
  Permutation (tr ++ va) (seq 0 (length l)) ->
  Permutation (take_rows tr l ++ take_rows va l) l.
Proof.
  intros HP. unfold take_rows. rewrite <- omap_app.
  rewrite (omap_Permutation _ _ _ HP). fold (take_rows (seq 0 (length l)) l).
  rewrite take_rows_all. reflexivity.
Qed.

(** C7. The split of a shard is the one [train_test_split] computes
    from the filtered rows and the test fraction, stratified on the
    category column and with the constant seed 42, so it is the same in
    every run on the same shard and fraction.  The validation split
    consists of all rows at the test positions whatever
    [train_on_unrecognized] says; the training split consists of the
    rows at the train positions, from which the unrecognized ones are
    removed exactly when the flag is off.  Where the splitter hands out
    a partition of the positions, the two sides taken with the flag on
    are a partition of the filtered rows. *)
Theorem split_fixed_seed_and_unrecognized_filter (dir : data_dir Drawing)
    (shard_id : Z) (test_size : Q) (num_category_shards category_shard : Z)
    (cats : list string) (data : list sample) :
  load_filtered dir shard_id num_category_shards category_shard
    = Some (cats, data) ->
  forall train_on_unrecognized : bool,
    TrainData train_test_split dir shard_id test_size train_on_unrecognized
      num_category_shards category_shard
    = match train_test_split (length data) test_size (map category data) 42 with
      | None => None
      | Some (train_idx, val_idx) =>
          Some {| shard := shard_id;
                  train_set_df :=
                    map row
                      (if train_on_unrecognized
                       then take_rows train_idx data
                       else List.filter recognized (take_rows train_idx data));
                  val_set_df := map row (take_rows val_idx data);
                  categories := cats |}
      end
    /\ (forall train_idx val_idx,
          train_test_split (length data) test_size (map category data) 42
            = Some (train_idx, val_idx) ->
          Permutation (train_idx ++ val_idx) (seq 0 (length data)) ->
          Permutation (take_rows train_idx data ++ take_rows val_idx data) data).
Proof.
  intros Hload flag. split.
  - unfold TrainData. rewrite Hload. simpl.
    destruct (train_test_split (length data) test_size (map category data) 42)
      as [[tr va]|]; [|reflexivity].
    simpl. destruct flag; reflexivity.
  - intros tr va _ HP. exact (take_rows_partition tr va data HP).
Qed.

End TrainData.

(** The ids computed from [words_to_exclude] are the positions 0..101
    of that list. *)
Lemma categories_to_exclude_positions :
  categories_to_exclude = Some (map Z.of_nat (seq 0 102)).
Proof. vm_compute. reflexivity. Qed.

(** The filter keeps a row exactly when its category id lies outside
    the given ids, and keeps ids and order of the rows it keeps. *)
Lemma exclude_filter_spec {Drawing : Type} (to_exclude : list Z)
    (data : list (Data.sample Drawing)) (s : Data.sample Drawing) :
  s ∈ exclude_filter to_exclude data <-> s ∈ data /\ category s ∉ to_exclude.
Proof.
  unfold exclude_filter. rewrite !list_elem_of_In, filter_In.
  rewrite negb_true_iff, <- not_true_iff_false, existsb_exists.
  split; intros [H1 H2]; (split; [exact H1|]).
  - intros Hin. apply H2. exists (category s). split.
    + exact Hin.
    + apply Z.eqb_refl.
  - intros (x & Hx & E). apply Z.eqb_eq in E. subst x.
    apply H2, Hx.
Qed.

End DataFacts.

(** ** The score dictionary of [load_ensemble_model] *)

Module DictFacts.

Import Ensemble.

Section Dict.

Context {V : Type}.

Implicit Types (d : dict V) (k m : Q) (v : V).

Lemma Qeq_bool_refl k : Qeq_bool k k = true.
Proof. apply Qeq_bool_iff. reflexivity. Qed.

Lemma Qeq_bool_sym a b : Qeq_bool a b = Qeq_bool b a.
Proof.
  destruct (Qeq_bool a b) eqn:E1, (Qeq_bool b a) eqn:E2; try reflexivity.
  - apply Qeq_bool_iff in E1. symmetry in E1. apply Qeq_bool_iff in E1.
    congruence.
  - apply Qeq_bool_iff in E2. symmetry in E2. apply Qeq_bool_iff in E2.
    congruence.
Qed.

Lemma Qeq_bool_trans_l a b c :
  Qeq_bool a b = true -> Qeq_bool a c = Qeq_bool b c.
Proof.
  intros H. apply Qeq_bool_iff in H. rewrite H. reflexivity.
Qed.

Lemma Qeq_bool_trans_r a b c :
  Qeq_bool a b = true -> Qeq_bool c a = Qeq_bool c b.
Proof.
  intros H. apply Qeq_bool_iff in H. rewrite H. reflexivity.
Qed.

Lemma dict_mem_proper k k' d :
  Qeq_bool k k' = true -> dict_mem k d = dict_mem k' d.
Proof.
  intros H. unfold dict_mem. induction d as [|[k0 v0] d IH]; [reflexivity|].
  simpl. rewrite IH. f_equal. apply Qeq_bool_trans_r, H.
Qed.

(** *** Assignment *)

Lemma dict_mem_set k k' v d :
  dict_mem k (dict_set k' v d) = dict_mem k d || Qeq_bool k' k.
Proof.
  induction d as [|[k0 v0] d IH]; simpl.
  - unfold dict_mem. simpl. rewrite orb_false_r. reflexivity.
  - destruct (Qeq_bool k0 k') eqn:E.
    + unfold dict_mem. simpl.
      rewrite <- (Qeq_bool_trans_l _ _ k E).
      destruct (Qeq_bool k0 k); simpl; [reflexivity|].
      rewrite orb_false_r. reflexivity.
    + unfold dict_mem in *. simpl. rewrite IH.
      rewrite orb_assoc. reflexivity.
Qed.

Lemma dict_set_fresh k v d :
  dict_mem k d = false -> dict_set k v d = d ++ [(k, v)].
Proof.
  unfold dict_mem. induction d as [|[k0 v0] d IH]; simpl; [reflexivity|].
  intros H. apply orb_false_elim in H as [H1 H2].
  rewrite H1. rewrite (IH H2). reflexivity.
Qed.

Lemma dict_set_length_present k v d :
  dict_mem k d = true -> length (dict_set k v d) = length d.
Proof.
  unfold dict_mem. induction d as [|[k0 v0] d IH]; simpl; [discriminate|].
  destruct (Qeq_bool k0 k) eqn:E; simpl; [reflexivity|].
  intros H. rewrite (IH H). reflexivity.
Qed.

Lemma dict_set_length_le k v d :
  (length (dict_set k v d) <= S (length d))%nat.
Proof.
  destruct (dict_mem k d) eqn:E.
  - rewrite (dict_set_length_present _ _ _ E). lia.
  - rewrite (dict_set_fresh _ _ _ E), length_app. simpl. lia.
Qed.

Lemma dict_get_set k v d : dict_get k (dict_set k v d) = Some v.
Proof.
  unfold dict_get. induction d as [|[k0 v0] d IH]; simpl.
  - rewrite Qeq_bool_refl. reflexivity.
  - destruct (Qeq_bool k0 k) eqn:E; simpl; rewrite E; [reflexivity|exact IH].
Qed.

Lemma distinct_keys_set k v d :
  distinct_keys d -> distinct_keys (dict_set k v d).
Proof.
  induction d as [|[k0 v0] d IH]; simpl.
  - intros _. split; [reflexivity|exact I].
  - intros [H1 H2]. destruct (Qeq_bool k0 k) eqn:E; simpl.
    + split; assumption.
    + split; [|exact (IH H2)].
      rewrite dict_mem_set, H1. simpl.
      rewrite Qeq_bool_sym. exact E.
Qed.

(** *** Deletion *)

Lemma dict_del_absent k d : dict_mem k d = false -> dict_del k d = d.
Proof.
  unfold dict_mem. induction d as [|[k0 v0] d IH]; simpl; [reflexivity|].
  intros H. apply orb_false_elim in H as [H1 H2].
  rewrite H1, (IH H2). reflexivity.
Qed.

Lemma dict_del_length k d :
  dict_mem k d = true -> S (length (dict_del k d)) = length d.
Proof.
  unfold dict_mem. induction d as [|[k0 v0] d IH]; simpl; [discriminate|].
  destruct (Qeq_bool k0 k) eqn:E; simpl; [reflexivity|].
  intros H. rewrite (IH H). reflexivity.
Qed.

(** Deleting a key removes no other key. *)
Lemma dict_mem_del_other k m d :
  Qeq_bool m k = false -> dict_mem k (dict_del m d) = dict_mem k d.
Proof.
  intros Hne. unfold dict_mem. induction d as [|[k0 v0] d IH]; [reflexivity|].
  simpl. destruct (Qeq_bool k0 m) eqn:E; simpl.
  - rewrite (Qeq_bool_trans_l _ _ k E), Hne. reflexivity.
  - rewrite IH. reflexivity.
Qed.

Lemma dict_mem_del_le k m d :
  dict_mem k (dict_del m d) = true -> dict_mem k d = true.
Proof.
  unfold dict_mem. induction d as [|[k0 v0] d IH]; simpl; [discriminate|].
  destruct (Qeq_bool k0 m); simpl.
  - intros ->. apply orb_true_r.
  - intros H. apply orb_true_iff in H as [H|H].
    + rewrite H. reflexivity.
    + rewrite (IH H). apply orb_true_r.
Qed.

Lemma distinct_keys_del m d : distinct_keys d -> distinct_keys (dict_del m d).
Proof.
  induction d as [|[k0 v0] d IH]; simpl; [trivial|].
  intros [H1 H2]. destruct (Qeq_bool k0 m); simpl; [exact H2|].
  split; [|exact (IH H2)].
  destruct (dict_mem k0 (dict_del m d)) eqn:E; [|reflexivity].
  apply dict_mem_del_le in E. congruence.
Qed.

(** With distinct keys, the deleted key is gone. *)
Lemma dict_mem_del_same m d :
  distinct_keys d -> dict_mem m (dict_del m d) = false.
Proof.
  induction d as [|[k0 v0] d IH]; simpl; [reflexivity|].
  intros [H1 H2]. destruct (Qeq_bool k0 m) eqn:E; simpl.
  - rewrite <- (dict_mem_proper _ _ _ E). exact H1.
  - unfold dict_mem in *. simpl. rewrite E. simpl. exact (IH H2).
Qed.

(** *** The smallest key *)

Lemma dict_min_key_nonempty d : d <> [] -> exists m, dict_min_key d = Some m.
Proof.
  destruct d as [|[k0 v0] d]; [congruence|]. intros _. simpl.
  destruct (dict_min_key d) as [m|]; [|eauto].
  destruct (Py.Qlt_bool m k0); eauto.
Qed.

Lemma dict_min_key_mem m d : dict_min_key d = Some m -> dict_mem m d = true.
Proof.
  revert m. unfold dict_mem.
  induction d as [|[k0 v0] d IH]; intros m; simpl; [discriminate|].
  destruct (dict_min_key d) as [m'|].
  - destruct (Py.Qlt_bool m' k0).
    + intros [= <-]. rewrite (IH _ eq_refl). apply orb_true_r.
    + intros [= <-]. rewrite Qeq_bool_refl. reflexivity.
  - intros [= <-]. rewrite Qeq_bool_refl. reflexivity.
Qed.

(** The smallest key is below every key. *)
Lemma dict_min_key_le m d k :
  dict_min_key d = Some m -> dict_mem k d = true -> (m <= k)%Q.
Proof.
  revert m. unfold dict_mem.
  induction d as [|[k0 v0] d IH]; intros m; simpl; [discriminate|].
  intros Hm Hk.
  destruct (dict_min_key d) as [m'|] eqn:Em.
  - destruct (Py.Qlt_bool m' k0) eqn:El; injection Hm as <-.
    + apply PyFacts.Qlt_bool_iff in El.
      apply orb_true_iff in Hk as [Hk|Hk].
      * apply Qeq_bool_iff in Hk. rewrite <- Hk. apply Qlt_le_weak, El.
      * exact (IH _ eq_refl Hk).
    + apply PyFacts.Qlt_bool_false_iff in El.
      apply orb_true_iff in Hk as [Hk|Hk].
      * apply Qeq_bool_iff in Hk. rewrite Hk. apply Qle_refl.
      * apply Qle_trans with m'; [exact El|exact (IH _ eq_refl Hk)].
  - injection Hm as <-. destruct d as [|[k1 v1] d].
    + simpl in Hk. rewrite orb_false_r in Hk.
      apply Qeq_bool_iff in Hk. rewrite Hk. apply Qle_refl.
    + simpl in Em. destruct (dict_min_key d) as [m''|];
        [destruct (Py.Qlt_bool m'' k1)|]; discriminate.
Qed.

(** *** Dictionaries that agree up to equality of their keys *)

Lemma dict_same_length d1 d2 : dict_same d1 d2 -> length d1 = length d2.
Proof. apply Forall2_length. Qed.

Lemma dict_same_values d1 d2 :
  dict_same d1 d2 -> dict_values d1 = dict_values d2.
Proof.
  unfold dict_values. induction 1 as [|[k1 v1] [k2 v2] d1 d2 [_ Hv] _ IH];
    [reflexivity|].
  simpl in *. subst. f_equal. exact IH.
Qed.

Lemma dict_same_min_key d1 d2 :
  dict_same d1 d2 ->
  match dict_min_key d1, dict_min_key d2 with
  | Some m1, Some m2 => (m1 == m2)%Q
  | None, None => True
  | _, _ => False
  end.
Proof.
  induction 1 as [|[k1 v1] [k2 v2] d1 d2 [Hk _] _ IH]; simpl; [exact I|].
  simpl in Hk.
  destruct (dict_min_key d1) as [m1|], (dict_min_key d2) as [m2|];
    try contradiction; [|exact Hk].
  unfold Py.Qlt_bool.
  assert (E : Qle_bool k1 m1 = Qle_bool k2 m2) by (rewrite IH, Hk; reflexivity).
  rewrite E. destruct (Qle_bool k2 m2); simpl; assumption.
Qed.

Lemma dict_same_set d1 d2 k1 k2 v :
  dict_same d1 d2 -> (k1 == k2)%Q ->
  dict_same (dict_set k1 v d1) (dict_set k2 v d2).
Proof.
  intros Hd Hk.
  induction Hd as [|[a1 v1] [a2 v2] d1 d2 [Ha Hv] Hd IH]; simpl in *.
  - constructor; [split; [exact Hk|reflexivity]|constructor].
  - assert (E : Qeq_bool a1 k1 = Qeq_bool a2 k2)
      by (rewrite Ha, Hk; reflexivity).
    rewrite E. destruct (Qeq_bool a2 k2).
    + constructor; [split; [exact Ha|reflexivity]|exact Hd].
    + constructor; [split; assumption|exact IH].
Qed.

Lemma dict_same_del d1 d2 k1 k2 :
  dict_same d1 d2 -> (k1 == k2)%Q ->
  dict_same (dict_del k1 d1) (dict_del k2 d2).
Proof.
  intros Hd Hk.
  induction Hd as [|[a1 v1] [a2 v2] d1 d2 [Ha Hv] Hd IH]; simpl in *.
  - constructor.
  - assert (E : Qeq_bool a1 k1 = Qeq_bool a2 k2)
      by (rewrite Ha, Hk; reflexivity).
    rewrite E. destruct (Qeq_bool a2 k2).
    + exact Hd.
    + constructor; [split; assumption|exact IH].
Qed.

End Dict.

End DictFacts.

(** ** [load_ensemble_model] *)

Module EnsembleFacts.

Import Ensemble DictFacts.

Section LoadEnsemble.

Context {Model Images Labels Logits : Type}.
Variable forward : Model -> Images -> Logits.
Variable mapk : Logits -> Labels -> Z -> Q.
Variable accuracy : Logits -> Labels -> Z -> Q.
Variable ensemble_forward : list Model -> Images -> Logits.

Implicit Types (d : dict Model) (K : Z) (v k : Q) (model : Model).

(** The two regimes of lines 204-207: below [K] entries the model is
    stored; from [K] entries on it is stored, in place of the entry with
    the smallest key, exactly when that key is strictly below its
    score. *)
Lemma offer_cases K d v model :
  (Z.of_nat (length d) < K /\ offer K d v model = Some (dict_set v model d))
  \/ (K <= Z.of_nat (length d) /\
      offer K d v model =
        match dict_min_key d with
        | None => None
        | Some mn =>
            Some (if Py.Qlt_bool mn v then dict_set v model (dict_del mn d)
                  else d)
        end).
Proof.
  unfold offer.
  destruct (Z.ltb_spec (Z.of_nat (length d)) K) as [Hlt|Hge].
  - left. split; [exact Hlt|]. simpl.
    destruct (Z.leb_spec K (Z.of_nat (length d))); [lia|]. reflexivity.
  - right. split; [exact Hge|].
    destruct (dict_min_key d) as [mn|]; [|reflexivity]. simpl.
    destruct (Py.Qlt_bool mn v); [|reflexivity].
    destruct (Z.leb_spec K (Z.of_nat (length d))); [|lia]. reflexivity.
Qed.

Lemma offer_length K d d' v model :
  0 <= K -> Z.of_nat (length d) <= K ->
  offer K d v model = Some d' -> Z.of_nat (length d') <= K.
Proof.
  intros HK Hd H.
  destruct (offer_cases K d v model) as [[Hlt E]|[Hge E]]; rewrite E in H.
  - injection H as <-. pose proof (dict_set_length_le v model d). lia.
  - destruct (dict_min_key d) as [mn|] eqn:Em; [|discriminate].
    injection H as <-. destruct (Py.Qlt_bool mn v); [|exact Hd].
    pose proof (dict_del_length _ _ (dict_min_key_mem _ _ Em)).
    pose proof (dict_set_length_le v model (dict_del mn d)). lia.
Qed.

Lemma offer_distinct K d d' v model :
  distinct_keys d -> offer K d v model = Some d' -> distinct_keys d'.
Proof.
  intros Hd H.
  destruct (offer_cases K d v model) as [[_ E]|[_ E]]; rewrite E in H.
  - injection H as <-. apply distinct_keys_set, Hd.
  - destruct (dict_min_key d) as [mn|]; [|discriminate].
    injection H as <-. destruct (Py.Qlt_bool mn v); [|exact Hd].
    apply distinct_keys_set, distinct_keys_del, Hd.
Qed.

(** A key leaves the dictionary only by the eviction of the smallest
    key, and only for a strictly greater score. *)
Lemma offer_evicts_only_min K d d' v model k :
  offer K d v model = Some d' ->
  dict_mem k d = true -> dict_mem k d' = false ->
  K <= Z.of_nat (length d) /\
  exists mn, dict_min_key d = Some mn /\ (mn == k)%Q /\ (mn < v)%Q.
Proof.
  intros H Hk Hk'.
  destruct (offer_cases K d v model) as [[_ E]|[Hge E]]; rewrite E in H.
  - injection H as <-. rewrite dict_mem_set, Hk in Hk'. discriminate.
  - split; [exact Hge|].
    destruct (dict_min_key d) as [mn|]; [|discriminate].
    injection H as <-. destruct (Py.Qlt_bool mn v) eqn:El; [|congruence].
    exists mn. split; [reflexivity|]. split.
    + destruct (Qeq_bool mn k) eqn:Eq; [apply Qeq_bool_iff, Eq|].
      rewrite dict_mem_set, (dict_mem_del_other _ _ _ Eq), Hk in Hk'.
      discriminate.
    + apply PyFacts.Qlt_bool_iff, El.
Qed.

(** [offer] does not tell apart dictionaries and scores that are equal
    as numbers. *)
Lemma offer_same K d1 d2 v1 v2 model :
  dict_same d1 d2 -> (v1 == v2)%Q ->
  match offer K d1 v1 model, offer K d2 v2 model with
  | Some a, Some b => dict_same a b
  | None, None => True
  | _, _ => False
  end.
Proof.
  intros Hd Hv.
  pose proof (dict_same_length _ _ Hd) as Hlen.
  pose proof (dict_same_min_key _ _ Hd) as Hmin.
  destruct (offer_cases K d1 v1 model) as [[H1 E1]|[H1 E1]];
    destruct (offer_cases K d2 v2 model) as [[H2 E2]|[H2 E2]];
    try lia; rewrite E1, E2.
  - apply dict_same_set; assumption.
  - destruct (dict_min_key d1) as [m1|], (dict_min_key d2) as [m2|];
      try contradiction; [|exact I].
    assert (E : Py.Qlt_bool m1 v1 = Py.Qlt_bool m2 v2)
      by (unfold Py.Qlt_bool; rewrite Hmin, Hv; reflexivity).
    rewrite E. destruct (Py.Qlt_bool m2 v2); [|exact Hd].
    apply dict_same_set; [|exact Hv]. apply dict_same_del; assumption.
Qed.

Lemma In_dict_set (e : Q * Model) k model d :
  In e (dict_set k model d) -> In e d \/ (snd e = model /\ (fst e == k)%Q).
Proof.
  induction d as [|[k0 v0] d IH]; simpl.
  - intros [<-|[]]. right. split; reflexivity.
  - destruct (Qeq_bool k0 k) eqn:E; simpl.
    + intros [<-|H]; [|left; right; exact H].
      right. split; [reflexivity|]. apply Qeq_bool_iff, E.
    + intros [<-|H]; [left; left; reflexivity|].
      destruct (IH H) as [H'|H']; [left; right; exact H'|right; exact H'].
Qed.

Lemma In_dict_del (e : Q * Model) m d : In e (dict_del m d) -> In e d.
Proof.
  induction d as [|[k0 v0] d IH]; simpl; [trivial|].
  destruct (Qeq_bool k0 m); simpl; [auto|].
  intros [<-|H]; [left; reflexivity|right; exact (IH H)].
Qed.

Lemma select_step_offer K loader crit d model d' :
  select_step forward mapk accuracy K loader crit d model = Some d' ->
  exists v,
    val_mapk_of forward mapk accuracy loader crit model = Some v /\
    offer K d v model = Some d'.
Proof.
  unfold select_step, val_mapk_of. intros H.
  destruct (Metrics.evaluate forward mapk accuracy model loader crit 3)
    as [r|]; [|discriminate].
  simpl in *. eauto.
Qed.

Lemma offer_keyed K loader crit d d' v model :
  val_mapk_of forward mapk accuracy loader crit model = Some v ->
  keyed_by_score forward mapk accuracy loader crit d ->
  offer K d v model = Some d' ->
  keyed_by_score forward mapk accuracy loader crit d'.
Proof.
  intros Hv Hd H. unfold keyed_by_score in *.
  rewrite List.Forall_forall in *.
  assert (Hset : forall d0,
    (forall e, In e d0 -> exists q,
        val_mapk_of forward mapk accuracy loader crit (snd e) = Some q
        /\ (q == fst e)%Q) ->
    forall e, In e (dict_set v model d0) -> exists q,
        val_mapk_of forward mapk accuracy loader crit (snd e) = Some q
        /\ (q == fst e)%Q).
  { intros d0 H0 e He. apply In_dict_set in He as [He|[-> He]].
    - exact (H0 e He).
    - exists v. split; [exact Hv|]. symmetry. exact He. }
  destruct (offer_cases K d v model) as [[_ E]|[_ E]]; rewrite E in H.
  - injection H as <-. apply Hset, Hd.
  - destruct (dict_min_key d) as [mn|]; [|discriminate].
    injection H as <-. destruct (Py.Qlt_bool mn v); [|exact Hd].
    apply Hset. intros e He. apply Hd. exact (In_dict_del _ _ _ He).
Qed.

(** What holds of the empty dictionary and is kept by every iteration
    holds of the dictionary the loop ends with. *)
Lemma select_from_invariant (P : dict Model -> Prop) K loader crit :
  (forall d model d',
      P d -> select_step forward mapk accuracy K loader crit d model = Some d' ->
      P d') ->
  forall candidates d d',
    P d ->
    select_from forward mapk accuracy K loader crit d candidates = Some d' ->
    P d'.
Proof.
  intros Hstep candidates.
  induction candidates as [|model rest IH]; intros d d' Hd H; simpl in H.
  - injection H as <-. exact Hd.
  - destruct (select_step forward mapk accuracy K loader crit d model)
      as [d1|] eqn:E; [|discriminate].
    simpl in H. exact (IH _ _ (Hstep _ _ _ Hd E) H).
Qed.

Lemma select_from_length K loader crit candidates d :
  0 <= K ->
  select_from forward mapk accuracy K loader crit [] candidates = Some d ->
  Z.of_nat (length d) <= K.
Proof.
  intros HK.
  apply (select_from_invariant (fun d => Z.of_nat (length d) <= K)).
  - intros d0 model d' Hd0 H.
    apply select_step_offer in H as (v & _ & H).
    exact (offer_length _ _ _ _ _ HK Hd0 H).
  - simpl. exact HK.
Qed.

Lemma select_from_distinct K loader crit candidates d :
  select_from forward mapk accuracy K loader crit [] candidates = Some d ->
  distinct_keys d /\ keyed_by_score forward mapk accuracy loader crit d.
Proof.
  apply (select_from_invariant
           (fun d => distinct_keys d
                     /\ keyed_by_score forward mapk accuracy loader crit d)).
  - intros d0 model d' [Hd Hs] H.
    apply select_step_offer in H as (v & Hv & H). split.
    + exact (offer_distinct _ _ _ _ _ Hd H).
    + exact (offer_keyed _ _ _ _ _ _ _ Hv Hs H).
  - split; [exact I|constructor].
Qed.

Lemma load_ensemble_model_inv sorted swa K loader crit ens :
  load_ensemble_model forward mapk accuracy ensemble_forward sorted swa K
    loader crit = Some ens ->
  exists candidates d,
    select_from forward mapk accuracy K loader crit [] candidates = Some d /\
    ens = dict_values d.
Proof.
  unfold load_ensemble_model. intros H.
  match type of H with
  | context [select_from _ _ _ _ _ _ _ ?c] =>
      destruct (select_from forward mapk accuracy K loader crit [] c)
        as [d|] eqn:E; [exists c, d|discriminate]
  end.
  simpl in H.
  destruct (Metrics.evaluate ensemble_forward mapk accuracy (dict_values d)
              loader crit 3); [|discriminate].
  simpl in H. injection H as <-. split; [exact E|reflexivity].
Qed.

(** Entries at different places of a dictionary with distinct keys have
    different keys. *)
Lemma distinct_keys_lookup d (i j : nat) (e1 e2 : Q * Model) :
  distinct_keys d -> i <> j ->
  d !! i = Some e1 -> d !! j = Some e2 ->
  ~ (fst e1 == fst e2)%Q.
Proof.
  assert (Hlt : forall d i j e1 e2,
    distinct_keys d -> (i < j)%nat ->
    d !! i = Some e1 -> d !! j = Some e2 -> ~ (fst e1 == fst e2)%Q).
  { clear. intros d. induction d as [|[k0 v0] d IH]; intros i j e1 e2 Hd Hij H1 H2.
    - destruct i; discriminate.
    - destruct Hd as [Hk Hd]. destruct j as [|j]; [lia|]. simpl in H2.
      destruct i as [|i].
      + simpl in H1. injection H1 as <-. simpl. intros Heq.
        assert (Hm : dict_mem k0 d = true).
        { unfold dict_mem. apply existsb_exists. exists e2. split.
          - apply list_elem_of_In. eapply list_elem_of_lookup_2, H2.
          - apply Qeq_bool_iff. symmetry. exact Heq. }
        congruence.
      + simpl in H1. apply (IH i j e1 e2 Hd); [lia|assumption|assumption]. }
  intros Hd Hij H1 H2.
  destruct (Nat.lt_total i j) as [H|[H|H]]; [|contradiction|].
  - exact (Hlt d i j e1 e2 Hd H H1 H2).
  - intros Heq. symmetry in Heq. exact (Hlt d j i e2 e1 Hd H H2 H1 Heq).
Qed.

(** The loop on models of known scores is the chain of [offer] on those
    scores, up to equality of the keys as numbers. *)
Lemma select_from_scored K loader crit models (scored : list (Q * Model)) d1 d2 :
  Forall2
    (fun model vm =>
       snd vm = model /\
       exists q, val_mapk_of forward mapk accuracy loader crit model = Some q
                 /\ (q == fst vm)%Q)
    models scored ->
  dict_same d1 d2 ->
  match select_from forward mapk accuracy K loader crit d1 models,
        offer_all K d2 scored with
  | Some a, Some b => dict_same a b
  | None, None => True
  | _, _ => False
  end.
Proof.
  intros HF. revert d1 d2.
  induction HF as [|model [v m'] models scored (Hm & q & Hq & Hv) _ IH];
    intros d1 d2 Hd; simpl.
  - exact Hd.
  - simpl in Hm, Hv. subst m'.
    unfold select_step. unfold val_mapk_of in Hq.
    destruct (Metrics.evaluate forward mapk accuracy model loader crit 3)
      as [r|]; [|discriminate].
    simpl in Hq. injection Hq as Hq. subst q. simpl.
    pose proof (offer_same K d1 d2 _ _ model Hd Hv) as Ha.
    destruct (offer K d1 (Metrics.mapk_avg r) model) as [a|],
             (offer K d2 v model) as [b|]; try contradiction; simpl.
    + exact (IH a b Ha).
    + exact I.
Qed.

Lemma val_mapk_of_loader loader crit model v :
  val_mapk_of forward mapk accuracy loader crit model = Some v -> loader <> [].
Proof.
  unfold val_mapk_of. intros H.
  apply (MetricsFacts.evaluate_is_Some_iff forward mapk accuracy model loader crit 3).
  destruct (Metrics.evaluate forward mapk accuracy model loader crit 3);
    [eauto|discriminate].
Qed.

(** The function returns the values of the dictionary the loop ends
    with, as soon as the loader yields a batch. *)
Lemma load_ensemble_model_values sorted swa K loader crit d :
  loader <> [] ->
  select_from forward mapk accuracy K loader crit []
    (slice_last (2 * K) sorted ++ match swa with Some m => [m] | None => [] end)
  = Some d ->
  load_ensemble_model forward mapk accuracy ensemble_forward sorted swa K
    loader crit = Some (dict_values d).
Proof.
  intros Hl H. unfold load_ensemble_model. rewrite H. simpl.
  destruct (proj2 (MetricsFacts.evaluate_is_Some_iff ensemble_forward mapk
                     accuracy (dict_values d) loader crit 3) Hl) as [r ->].
  reflexivity.
Qed.

(** C4. For a count [K >= 0]: the dictionary never holds more than [K]
    entries, after any number of candidates, and neither does the
    ensemble returned; a score leaves the dictionary only when it is the
    smallest one of a dictionary that already holds [K] entries and the
    candidate's score is strictly greater; and candidates that evaluate
    to 0.1, 0.5, 0.3, 0.9, 0.4, in this order, leave with [K = 3] exactly
    the second, fourth and fifth one, whose scores are 0.5, 0.9, 0.4. *)
Theorem ensemble_bounded_and_strict_eviction K loader crit :
  0 <= K ->
  (forall candidates d,
      select_from forward mapk accuracy K loader crit [] candidates = Some d ->
      Z.of_nat (length d) <= K)
  /\ (forall sorted swa ens,
        load_ensemble_model forward mapk accuracy ensemble_forward sorted swa K
          loader crit = Some ens ->
        Z.of_nat (length ens) <= K)
  /\ (forall d v model d' k,
        offer K d v model = Some d' ->
        dict_mem k d = true -> dict_mem k d' = false ->
        K <= Z.of_nat (length d) /\
        exists mn,
          dict_min_key d = Some mn /\ (mn == k)%Q /\
          (forall k', dict_mem k' d = true -> (mn <= k')%Q) /\
          (mn < v)%Q)
  /\ (forall m1 m2 m3 m4 m5,
        Forall2
          (fun model q =>
             exists v, val_mapk_of forward mapk accuracy loader crit model = Some v
                       /\ (v == q)%Q)
          [m1; m2; m3; m4; m5] [1 # 10; 5 # 10; 3 # 10; 9 # 10; 4 # 10]%Q ->
        load_ensemble_model forward mapk accuracy ensemble_forward
          [m1; m2; m3; m4; m5] None 3 loader crit = Some [m2; m4; m5]).
Proof.
  intros HK. split; [|split; [|split]].
  - intros candidates d. apply select_from_length, HK.
  - intros sorted swa ens H.
    apply load_ensemble_model_inv in H as (candidates & d & H & ->).
    unfold dict_values. rewrite length_map.
    exact (select_from_length _ _ _ _ _ HK H).
  - intros d v model d' k H Hk Hk'.
    destruct (offer_evicts_only_min _ _ _ _ _ _ H Hk Hk')
      as (Hfull & mn & Hmn & Heq & Hlt).
    split; [exact Hfull|]. exists mn. repeat split; try assumption.
    intros k' Hk2. exact (dict_min_key_le _ _ _ Hmn Hk2).
  - intros m1 m2 m3 m4 m5 HF.
    assert (Hl : loader <> []).
    { inversion HF as [|? ? ? ? (v & Hv & _) _]; subst.
      exact (val_mapk_of_loader _ _ _ _ Hv). }
    pose proof (select_from_scored 3 loader crit [m1; m2; m3; m4; m5]
      [(1 # 10, m1); (5 # 10, m2); (3 # 10, m3); (9 # 10, m4); (4 # 10, m5)]%Q
      [] []) as Hsel.
    assert (Hsc : offer_all 3 []
      [(1 # 10, m1); (5 # 10, m2); (3 # 10, m3); (9 # 10, m4); (4 # 10, m5)]%Q
      = Some [(5 # 10, m2); (9 # 10, m4); (4 # 10, m5)]%Q) by reflexivity.
    rewrite Hsc in Hsel. clear Hsc.
    assert (Hsame :
      match select_from forward mapk accuracy 3 loader crit []
              [m1; m2; m3; m4; m5] with
      | Some a => dict_same a [(5 # 10, m2); (9 # 10, m4); (4 # 10, m5)]%Q
      | None => False
      end).
    { apply Hsel; [|constructor].
      repeat match goal with
             | H : Forall2 _ (_ :: _) (_ :: _) |- _ =>
                 apply Forall2_cons_1 in H as [(? & ? & ?) H]
             end.
      repeat (constructor; [split; [reflexivity|eauto]|]). constructor. }
    destruct (select_from forward mapk accuracy 3 loader crit []
                [m1; m2; m3; m4; m5]) as [a|] eqn:Ea; [|contradiction].
    rewrite (load_ensemble_model_values [m1; m2; m3; m4; m5] None 3 loader
               crit a Hl Ea).
    f_equal. exact (dict_same_values _ _ Hsame).
Qed.

(** C9 (as amended).  The members are filed in a dictionary keyed by
    their score, so two members with the same score are never kept
    together.  A candidate whose score is already a key and which is
    accepted (the dictionary holds fewer than [K] entries, or its
    smallest key is strictly below the candidate's score) silently takes
    the place of the earlier member under that key, and the dictionary
    does not grow; a candidate that arrives at a dictionary of [K]
    entries with a score not above the smallest key is dropped and the
    earlier members stay.  The ensemble can therefore hold strictly
    fewer than min(number of candidates, K) members: two candidates of
    equal score leave one member for every [K >= 2]. *)
Theorem equal_scores_share_one_key K loader crit :
  (forall d v model d' earlier,
      dict_get v d = Some earlier ->
      offer K d v model = Some d' ->
      (Z.of_nat (length d) < K
       \/ exists mn, dict_min_key d = Some mn /\ (mn < v)%Q) ->
      dict_get v d' = Some model /\ (length d' <= length d)%nat)
  /\ (forall d v model mn,
        K <= Z.of_nat (length d) ->
        dict_min_key d = Some mn -> (v <= mn)%Q ->
        offer K d v model = Some d)
  /\ (forall sorted swa ens (i j : nat) mi mj vi vj,
        load_ensemble_model forward mapk accuracy ensemble_forward sorted swa K
          loader crit = Some ens ->
        i <> j -> ens !! i = Some mi -> ens !! j = Some mj ->
        val_mapk_of forward mapk accuracy loader crit mi = Some vi ->
        val_mapk_of forward mapk accuracy loader crit mj = Some vj ->
        ~ (vi == vj)%Q)
  /\ (forall m1 m2 v1 v2,
        2 <= K ->
        val_mapk_of forward mapk accuracy loader crit m1 = Some v1 ->
        val_mapk_of forward mapk accuracy loader crit m2 = Some v2 ->
        (v1 == v2)%Q ->
        load_ensemble_model forward mapk accuracy ensemble_forward [m1; m2]
          None K loader crit = Some [m2]
        /\ Z.of_nat (length [m2]) < Z.min (Z.of_nat (length [m1; m2])) K).
Proof.
  split; [|split; [|split]].
  - intros d v model d' earlier Hget H Hadm.
    assert (Hmem : dict_mem v d = true).
    { unfold dict_get in Hget. unfold dict_mem.
      destruct (List.find (fun e => Qeq_bool (fst e) v) d) as [e|] eqn:Ef;
        [|discriminate].
      apply find_some in Ef as [Hin He]. apply existsb_exists. eauto. }
    destruct (offer_cases K d v model) as [[Hlt E]|[Hge E]]; rewrite E in H.
    + injection H as <-. split; [apply dict_get_set|].
      rewrite (dict_set_length_present _ _ _ Hmem). lia.
    + destruct Hadm as [Hlt|(mn & Hmn & Hlt)]; [lia|].
      rewrite Hmn in H. apply PyFacts.Qlt_bool_iff in Hlt as Hb.
      rewrite Hb in H. injection H as <-. split; [apply dict_get_set|].
      assert (Hne : Qeq_bool mn v = false).
      { destruct (Qeq_bool mn v) eqn:Eq; [|reflexivity].
        apply Qeq_bool_iff in Eq. rewrite Eq in Hlt.
        exfalso. exact (Qlt_irrefl _ Hlt). }
      rewrite dict_set_length_present
        by (rewrite (dict_mem_del_other _ _ _ Hne); exact Hmem).
      pose proof (dict_del_length _ _ (dict_min_key_mem _ _ Hmn)). lia.
  - intros d v model mn Hge Hmn Hle.
    destruct (offer_cases K d v model) as [[Hlt E]|[_ E]]; [lia|].
    rewrite E, Hmn.
    apply PyFacts.Qlt_bool_false_iff in Hle. rewrite Hle. reflexivity.
  - intros sorted swa ens i j mi mj vi vj H Hij Hi Hj Hvi Hvj Heq.
    apply load_ensemble_model_inv in H as (candidates & d & H & ->).
    apply select_from_distinct in H as [Hd Hs].
    unfold dict_values in Hi, Hj.
    apply (list_lookup_fmap_Some_1 snd d) in Hi as (ei & -> & Ei).
    apply (list_lookup_fmap_Some_1 snd d) in Hj as (ej & -> & Ej).
    apply (distinct_keys_lookup d i j ei ej Hd Hij Ei Ej).
    unfold keyed_by_score in Hs. rewrite List.Forall_forall in Hs.
    destruct (Hs ei) as (qi & Hqi & Hki);
      [apply list_elem_of_In; eapply list_elem_of_lookup_2, Ei|].
    destruct (Hs ej) as (qj & Hqj & Hkj);
      [apply list_elem_of_In; eapply list_elem_of_lookup_2, Ej|].
    rewrite Hvi in Hqi. rewrite Hvj in Hqj.
    injection Hqi as <-. injection Hqj as <-.
    rewrite <- Hki, <- Hkj. exact Heq.
  - intros m1 m2 v1 v2 HK H1 H2 Heq. split; [|simpl; lia].
    pose proof (val_mapk_of_loader _ _ _ _ H1) as Hl.
    assert (Hsel : select_from forward mapk accuracy K loader crit []
                     [m1; m2] = Some [(v1, m2)]).
    { unfold val_mapk_of in H1, H2. simpl. unfold select_step.
      destruct (Metrics.evaluate forward mapk accuracy m1 loader crit 3)
        as [r1|]; [|discriminate].
      destruct (Metrics.evaluate forward mapk accuracy m2 loader crit 3)
        as [r2|]; [|discriminate].
      simpl in H1, H2. injection H1 as <-. injection H2 as <-. simpl.
      set (v1 := Metrics.mapk_avg r1) in *.
      set (v2 := Metrics.mapk_avg r2) in *.
      destruct (offer_cases K [] v1 m1) as [[_ E]|[Hge _]]; [|simpl in Hge; lia].
      rewrite E. simpl.
      destruct (offer_cases K [(v1, m1)] v2 m2) as [[_ E2]|[Hge _]];
        [|simpl in Hge; lia].
      rewrite E2. simpl.
      apply Qeq_bool_iff in Heq. rewrite Heq. reflexivity. }
    assert (Hslice : slice_last (2 * K) [m1; m2] = [m1; m2]).
    { unfold slice_last. destruct (Z.ltb_spec 0 (2 * K)); [|lia].
      simpl length.
      replace (2 - Z.to_nat (2 * K))%nat with O by lia. reflexivity. }
    apply (load_ensemble_model_values [m1; m2] None K loader crit
             [(v1, m2)] Hl).
    rewrite Hslice. exact Hsel.
Qed.

End LoadEnsemble.

(** The worked example of C4 on the concrete collaborators. *)
Lemma ensemble_bounded_and_strict_eviction_witness :
  0 <= 3 /\
  Toy.load_ensemble_model
    [(1%nat, 1 # 10); (2%nat, 5 # 10); (3%nat, 3 # 10); (4%nat, 9 # 10);
     (5%nat, 4 # 10)]%Q 3
  = Some [(2%nat, 5 # 10); (4%nat, 9 # 10); (5%nat, 4 # 10)]%Q.
Proof.
  assert (H3 : 0 <= 3) by lia. split; [exact H3|].
  destruct (ensemble_bounded_and_strict_eviction Toy.forward Toy.mapk
              Toy.accuracy Toy.ensemble_forward 3 Toy.data_loader
              Toy.criterion H3) as (_ & _ & _ & H).
  apply H.
  repeat (constructor; [eexists; split; [reflexivity|reflexivity]|]).
  constructor.
Defined.

(** Two candidates of equal score, [K = 3]: the later one takes the
    place of the earlier one and the ensemble has one member. *)
Lemma equal_scores_share_one_key_witness :
  2 <= 3 /\
  Toy.load_ensemble_model [(0%nat, 5 # 10); (1%nat, 5 # 10)]%Q 3
  = Some [(1%nat, 5 # 10)]%Q.
Proof.
  assert (H2 : 2 <= 3) by lia. split; [exact H2|].
  destruct (equal_scores_share_one_key Toy.forward Toy.mapk Toy.accuracy
              Toy.ensemble_forward 3 Toy.data_loader Toy.criterion)
    as (_ & _ & _ & H).
  destruct (H (0%nat, 5 # 10)%Q (1%nat, 5 # 10)%Q _ _ H2 eq_refl eq_refl)
    as [Hload _]; [reflexivity|].
  exact Hload.
Defined.

End EnsembleFacts.

(** ** The epoch loop *)

Module TrainFacts.

Import Train.

(** No per-cycle checkpoint has the name of the best-ever checkpoint. *)
Lemma cycle_file_ne_best_file (i : Z) : cycle_file i <> best_file.
Proof.
  unfold cycle_file, best_file. simpl. intros H. discriminate H.
Qed.

(** [int(x)] on a non-negative float is the integer part. *)
Lemma int_of_float_floor (x : Q) : (0 <= x)%Q -> Py.int_of_float x = Qfloor x.
Proof.
  destruct x as [n d]. unfold Py.int_of_float, Qfloor, Qle. simpl.
  intros H. apply Z.quot_div_nonneg; lia.
Qed.

Section Main.

Context {Weights : Type}.
Variable fresh_weights : Weights.

Abbreviation loop_state := (loop_state Weights).
Abbreviation epoch_obs := (epoch_obs Weights).
Abbreviation epoch_result := (epoch_result Weights).

Implicit Types (a : args) (st : loop_state) (o : epoch_obs)
  (r : epoch_result) (epoch : Z).

Local Arguments checkpoint_decisions : simpl never.
Local Arguments restart_due : simpl never.
Local Arguments restart_variables : simpl never.
Local Arguments restart_objects : simpl never.
Local Arguments early_abort : simpl never.

(** *** One epoch *)

(** The best-ever checkpoint and score after the checkpoint
    decisions. *)
Lemma checkpoint_decisions_best epoch st o v :
  let st1 := fst (checkpoint_decisions epoch st o v) in
  let saved := snd (checkpoint_decisions epoch st o v) in
  saved = Py.gt v (global_val_mapk_best_avg st)
  /\ model st1 = o_state_dict o
  /\ files st1 !! best_file
     = (if saved then Some (o_state_dict o) else files st !! best_file)
  /\ global_val_mapk_best_avg st1
     = (if saved then Py.Fin v else global_val_mapk_best_avg st)
  /\ epoch_of_last_improval st1
     = (if saved then epoch else epoch_of_last_improval st).
Proof.
  unfold checkpoint_decisions. cbn.
  split; [reflexivity|]. split; [reflexivity|].
  split; [|split; reflexivity].
  destruct (Py.gt v (global_val_mapk_best_avg st)).
  - apply lookup_insert_eq.
  - destruct (Py.gt v (sgdr_cycle_val_mapk_best_avg st)); [|reflexivity].
    apply lookup_insert_ne, cycle_file_ne_best_file.
Qed.

(** Every file present before the checkpoint decisions is present
    after them. *)
Lemma checkpoint_decisions_keeps_files epoch st o v (name : string) :
  is_Some (files st !! name) ->
  is_Some (files (fst (checkpoint_decisions epoch st o v)) !! name).
Proof.
  unfold checkpoint_decisions. cbn. intros H.
  assert (Hins : forall (k : string) (w : Weights) (m : gmap string Weights),
             is_Some (m !! name) -> is_Some (<[k := w]> m !! name)).
  { intros k w m Hm. rewrite lookup_insert. destruct (decide (k = name)); eauto. }
  destruct (Py.gt v (global_val_mapk_best_avg st)),
           (Py.gt v (sgdr_cycle_val_mapk_best_avg st)); auto.
Qed.

(** The restart block leaves the checkpoints, the best-ever score and
    the epoch of the last improvement alone. *)
Lemma restart_objects_inv a st st' :
  restart_objects a st = Some st' ->
  model st' = model st /\ files st' = files st
  /\ global_val_mapk_best_avg st' = global_val_mapk_best_avg st
  /\ epoch_of_last_improval st' = epoch_of_last_improval st
  /\ sgdr_cycle_val_mapk_best_avg st' = sgdr_cycle_val_mapk_best_avg st
  /\ current_sgdr_cycle_epochs st' = current_sgdr_cycle_epochs st
  /\ sgdr_next_cycle_end_epoch st' = sgdr_next_cycle_end_epoch st
  /\ sgdr_iterations st' = sgdr_iterations st
  /\ sgdr_cycle_count st' = sgdr_cycle_count st
  /\ ensemble_model_index st' = ensemble_model_index st.
Proof.
  unfold restart_objects. intros H.
  destruct (create_optimizer _ _) as [opt|]; [|discriminate]. simpl in H.
  match type of H with
  | context [?c ≫= _] => destruct c as [crit|]; [|discriminate]
  end.
  simpl in H. injection H as <-. cbn. repeat split.
Qed.

Lemma epoch_step_inv a epoch st o r :
  epoch_step a epoch st o = Some r ->
  exists avgs,
    o_val o = Some avgs /\
    r_val_mapk_avg r = Metrics.mapk_avg avgs /\
    let st1 := fst (checkpoint_decisions epoch st o (r_val_mapk_avg r)) in
    let st2 := after_restart_test a epoch st1 in
    r_ckpt_saved r = snd (checkpoint_decisions epoch st o (r_val_mapk_avg r))
    /\ r_sgdr_reset r = restart_due a epoch st1
    /\ model (r_state r) = model st2 /\ files (r_state r) = files st2
    /\ global_val_mapk_best_avg (r_state r) = global_val_mapk_best_avg st2
    /\ epoch_of_last_improval (r_state r) = epoch_of_last_improval st2
    /\ sgdr_cycle_val_mapk_best_avg (r_state r) = sgdr_cycle_val_mapk_best_avg st2
    /\ current_sgdr_cycle_epochs (r_state r) = current_sgdr_cycle_epochs st2
    /\ sgdr_next_cycle_end_epoch (r_state r) = sgdr_next_cycle_end_epoch st2
    /\ sgdr_iterations (r_state r) = sgdr_iterations st2
    /\ sgdr_cycle_count (r_state r) = sgdr_cycle_count st2
    /\ ensemble_model_index (r_state r) = ensemble_model_index st2
    /\ (r_raised r = false ->
        r_break r = early_abort a epoch (r_sgdr_reset r) (r_state r)).
Proof.
  unfold epoch_step, after_restart_test. intros H.
  destruct (Metrics.float_div_int _ _); [|discriminate].
  cbn [mbind option_bind] in H.
  destruct (o_val o) as [avgs|]; [|discriminate].
  cbn [mbind option_bind] in H. cbv zeta in H.
  exists avgs.
  set (st1 := fst (checkpoint_decisions epoch st o (Metrics.mapk_avg avgs))) in *.
  destruct (restart_due a epoch st1) eqn:Er.
  - destruct (restart_objects a (restart_variables a epoch st1)) as [st3|] eqn:Eo;
      injection H as <-; cbn; fold st1; rewrite Er.
    + apply restart_objects_inv in Eo
        as (E1 & E2 & E3 & E4 & E5 & E6 & E7 & E8 & E9 & E10).
      rewrite E1, E2, E3, E4, E5, E6, E7, E8, E9, E10.
      repeat split.
    + repeat split. discriminate.
  - injection H as <-. cbn. fold st1. rewrite Er. repeat split.
Qed.

(** The restart test leaves the checkpoints, the best-ever score and
    the epoch of the last improvement alone. *)
Lemma after_restart_test_keeps a epoch st1 :
  model (after_restart_test a epoch st1) = model st1
  /\ files (after_restart_test a epoch st1) = files st1
  /\ global_val_mapk_best_avg (after_restart_test a epoch st1)
     = global_val_mapk_best_avg st1
  /\ epoch_of_last_improval (after_restart_test a epoch st1)
     = epoch_of_last_improval st1.
Proof.
  unfold after_restart_test. destruct (restart_due a epoch st1); repeat split.
Qed.

(** What an epoch does to the best-ever checkpoint and score. *)
Lemma epoch_step_best a epoch st o r :
  epoch_step a epoch st o = Some r ->
  (r_ckpt_saved r = true <-> Py.exceeds (r_val_mapk_avg r) (global_val_mapk_best_avg st))
  /\ files (r_state r) !! best_file
     = (if r_ckpt_saved r then Some (model (r_state r))
        else files st !! best_file)
  /\ global_val_mapk_best_avg (r_state r)
     = (if r_ckpt_saved r then Py.Fin (r_val_mapk_avg r)
        else global_val_mapk_best_avg st)
  /\ epoch_of_last_improval (r_state r)
     = (if r_ckpt_saved r then epoch else epoch_of_last_improval st).
Proof.
  intros H. apply epoch_step_inv in H as (avgs & _ & _ & H).
  cbv zeta in H.
  destruct H as (Hs & _ & Hm & Hf & Hg & He & _).
  destruct (after_restart_test_keeps a epoch
              (fst (checkpoint_decisions epoch st o (r_val_mapk_avg r))))
    as (Km & Kf & Kg & Ke).
  destruct (checkpoint_decisions_best epoch st o (r_val_mapk_avg r))
    as (Cs & Cm & Cf & Cg & Ce).
  rewrite Hm, Hf, Hg, He, Km, Kf, Kg, Ke, Hs, Cm, Cf, Cg, Ce.
  split; [|repeat split].
  rewrite Cs. apply PyFacts.gt_iff.
Qed.

(** *** The whole loop *)

Lemma abort_points_0 st (trace : list epoch_result) :
  abort_points st trace !! O = Some st.
Proof. reflexivity. Qed.

Lemma abort_points_S st (trace : list epoch_result) (n : nat) :
  abort_points st trace !! S n = r_state <$> trace !! n.
Proof. unfold abort_points. simpl. apply list_lookup_fmap. Qed.

(** The [n]-th result of the loop comes from one run of the body, on the
    [n]-th observation and on the state in which the previous epoch
    ended. *)
Lemma main_loop_lookup a epoch st (obs : list epoch_obs) (n : nat) r :
  main_loop a epoch st obs !! n = Some r ->
  exists before o,
    abort_points st (main_loop a epoch st obs) !! n = Some before /\
    obs !! n = Some o /\
    epoch_step a (epoch + Z.of_nat n) before o = Some r.
Proof.
  revert epoch st n. induction obs as [|o rest IH]; intros epoch st n H.
  - destruct n; discriminate.
  - simpl in H. simpl main_loop.
    destruct (epoch_step a epoch st o) as [r0|] eqn:E; [|destruct n; discriminate].
    destruct n as [|n].
    + simpl in H. injection H as <-. exists st, o.
      rewrite Z.add_0_r. repeat split. exact E.
    + simpl in H.
      destruct (r_raised r0 || r_break r0); [destruct n; discriminate|].
      destruct (IH _ _ _ H) as (before & o' & Hb & Ho & Hs).
      exists before, o'. split; [|split].
      * exact Hb.
      * exact Ho.
      * replace (epoch + Z.of_nat (S n)) with (epoch + 1 + Z.of_nat n) by lia.
        exact Hs.
Qed.

(** A result that is followed by another one was neither a [break] nor
    an exception. *)
Lemma main_loop_continues a epoch st (obs : list epoch_obs) (n : nat) r r' :
  main_loop a epoch st obs !! n = Some r ->
  main_loop a epoch st obs !! S n = Some r' ->
  r_raised r = false /\ r_break r = false.
Proof.
  revert epoch st n. induction obs as [|o rest IH]; intros epoch st n H H'.
  - destruct n; discriminate.
  - simpl in H, H'.
    destruct (epoch_step a epoch st o) as [r0|] eqn:E; [|destruct n; discriminate].
    destruct (r_raised r0 || r_break r0) eqn:Eb.
    + destruct n; discriminate.
    + destruct n as [|n].
      * simpl in H. injection H as <-. apply orb_false_elim in Eb. exact Eb.
      * simpl in H, H'. exact (IH _ _ _ H H').
Qed.

(** The state of things after each epoch of a run that started from
    [setup]: the best-ever checkpoint holds the weights of an epoch
    whose score is the best-ever score and is not exceeded by any score
    seen so far. *)
Lemma run_best_is_max a st0 (obs : list epoch_obs) :
  global_val_mapk_best_avg st0 = Py.NegInf ->
  forall (n : nat) r,
    main_loop a 0 st0 obs !! n = Some r ->
    exists (i : nat) ri,
      (i <= n)%nat /\
      main_loop a 0 st0 obs !! i = Some ri /\
      files (r_state r) !! best_file = Some (model (r_state ri)) /\
      global_val_mapk_best_avg (r_state r) = Py.Fin (r_val_mapk_avg ri) /\
      forall (j : nat) rj,
        (j <= n)%nat -> main_loop a 0 st0 obs !! j = Some rj ->
        (r_val_mapk_avg rj <= r_val_mapk_avg ri)%Q.
Proof.
  intros H0. induction n as [|n IH]; intros r Hr.
  - destruct (main_loop_lookup _ _ _ _ _ _ Hr) as (before & o & Hb & _ & Hs).
    rewrite abort_points_0 in Hb. injection Hb as <-.
    destruct (epoch_step_best _ _ _ _ _ Hs) as (Hsaved & Hf & Hg & _).
    rewrite H0 in Hsaved. assert (Hy : r_ckpt_saved r = true) by (apply Hsaved; exact I).
    rewrite Hy in Hf, Hg.
    exists O, r. split; [lia|]. split; [exact Hr|]. split; [exact Hf|].
    split; [exact Hg|].
    intros j rj Hj Hrj. assert (j = O) by lia. subst j.
    rewrite Hr in Hrj. injection Hrj as <-. apply Qle_refl.
  - destruct (lookup_lt_is_Some_2 (main_loop a 0 st0 obs) n) as [rn Hrn].
    { apply lookup_lt_Some in Hr. lia. }
    destruct (IH rn Hrn) as (i & ri & Hi & Hri & Hfi & Hgi & Hmax).
    destruct (main_loop_lookup _ _ _ _ _ _ Hr) as (before & o & Hb & _ & Hs).
    rewrite abort_points_S, Hrn in Hb. simpl in Hb. injection Hb as <-.
    destruct (epoch_step_best _ _ _ _ _ Hs) as (Hsaved & Hf & Hg & _).
    destruct (r_ckpt_saved r) eqn:Ey.
    + exists (S n), r. split; [lia|]. split; [exact Hr|]. split; [exact Hf|].
      split; [exact Hg|].
      assert (Hlt : (r_val_mapk_avg ri < r_val_mapk_avg r)%Q).
      { assert (He : Py.exceeds (r_val_mapk_avg r)
                       (global_val_mapk_best_avg (r_state rn)))
          by (apply Hsaved; reflexivity).
        rewrite Hgi in He. exact He. }
      intros j rj Hj Hrj.
      destruct (Nat.eq_dec j (S n)) as [->|Hne].
      * rewrite Hr in Hrj. injection Hrj as <-. apply Qle_refl.
      * apply Qle_trans with (r_val_mapk_avg ri).
        -- apply (Hmax j rj); [lia|exact Hrj].
        -- apply Qlt_le_weak, Hlt.
    + exists i, ri. split; [lia|]. split; [exact Hri|].
      split; [rewrite Hf; exact Hfi|]. split; [rewrite Hg; exact Hgi|].
      intros j rj Hj Hrj.
      destruct (Nat.eq_dec j (S n)) as [->|Hne].
      * rewrite Hr in Hrj. injection Hrj as <-.
        destruct (Qlt_le_dec (r_val_mapk_avg ri) (r_val_mapk_avg r)) as [Hlt|Hle];
          [|exact Hle].
        assert (He : Py.exceeds (r_val_mapk_avg r)
                       (global_val_mapk_best_avg (r_state rn)))
          by (rewrite Hgi; exact Hlt).
        apply Hsaved in He. discriminate.
      * apply (Hmax j rj); [lia|exact Hrj].
Qed.

(** *** The state the loop starts from *)

Lemma initial_checkpoint_best_file a base out m dir :
  initial_checkpoint fresh_weights a base out = Some (m, dir) ->
  dir !! best_file = Some m.
Proof.
  unfold initial_checkpoint. intros H.
  match type of H with
  | context [?c ≫= _] => destruct c as [[m0 dir0]|]; [|discriminate]
  end.
  simpl in H. injection H as <- <-. apply lookup_insert_eq.
Qed.

Lemma setup_inv a base out st0 :
  setup fresh_weights a base out = Some st0 ->
  initial_checkpoint fresh_weights a base out = Some (model st0, files st0)
  /\ global_val_mapk_best_avg st0 = Py.NegInf
  /\ sgdr_cycle_val_mapk_best_avg st0 = Py.NegInf
  /\ current_sgdr_cycle_epochs st0 = sgdr_cycle_epochs a
  /\ sgdr_next_cycle_end_epoch st0
     = sgdr_cycle_epochs a + sgdr_cycle_end_prolongation a
  /\ sgdr_cycle_count st0 = 0
  /\ epoch_of_last_improval st0 = 0.
Proof.
  unfold setup. intros H.
  destruct (initial_checkpoint fresh_weights a base out) as [[m dir]|];
    [|discriminate].
  cbn [mbind option_bind] in H.
  destruct (first_free_index _) as [i|]; [|discriminate].
  cbn [mbind option_bind] in H.
  destruct (create_optimizer _ _) as [opt|]; [|discriminate].
  cbn [mbind option_bind] in H.
  destruct (create_criterion _) as [crit|]; [|discriminate].
  cbn [mbind option_bind] in H.
  injection H as <-. cbn. repeat split.
Qed.

(** C10. Before the first epoch the weights the run starts from (those
    of a newly created model, or those read from [model.pth] once the
    files of the base model directory have been copied) are written to
    [model.pth], whatever the arguments; from then on a [model.pth]
    exists at every point at which the run can stop, and as long as no
    epoch has improved the best-ever score it still holds those
    starting weights. *)
Theorem initial_checkpoint_saved_and_kept a base out st0
    (obs : list epoch_obs) :
  setup fresh_weights a base out = Some st0 ->
  initial_checkpoint fresh_weights a base out = Some (model st0, files st0)
  /\ files st0 !! best_file = Some (model st0)
  /\ (base = None -> model st0 = fresh_weights)
  /\ (forall st, st ∈ abort_points st0 (run a st0 obs) ->
        is_Some (files st !! best_file))
  /\ ((forall r, r ∈ run a st0 obs -> r_ckpt_saved r = false) ->
      forall st, st ∈ abort_points st0 (run a st0 obs) ->
        files st !! best_file = Some (model st0)).
Proof.
  intros Hsetup.
  destruct (setup_inv _ _ _ _ Hsetup) as (Hinit & _).
  pose proof (initial_checkpoint_best_file _ _ _ _ _ Hinit) as Hbest.
  split; [exact Hinit|]. split; [exact Hbest|]. split; [|split].
  - intros ->. unfold initial_checkpoint in Hinit.
    destruct (create_model fresh_weights (model_type a)) as [m|] eqn:Em;
      [|discriminate].
    cbn in Hinit. injection Hinit as Hm _. rewrite <- Hm.
    unfold create_model in Em.
    destruct (member (model_type a) model_types); [|discriminate].
    injection Em as <-. reflexivity.
  - intros st Hst. apply list_elem_of_lookup in Hst as [n Hn].
    revert st Hn. induction n as [|n IH]; intros st Hn.
    + rewrite abort_points_0 in Hn. injection Hn as <-. rewrite Hbest. eauto.
    + rewrite abort_points_S in Hn.
      destruct (run a st0 obs !! n) as [r|] eqn:Er; [|discriminate].
      simpl in Hn. injection Hn as <-.
      destruct (main_loop_lookup _ _ _ _ _ _ Er) as (before & o & Hb & _ & Hs).
      destruct (epoch_step_best _ _ _ _ _ Hs) as (_ & Hf & _).
      rewrite Hf. destruct (r_ckpt_saved r); [eauto|]. exact (IH before Hb).
  - intros Hnone st Hst. apply list_elem_of_lookup in Hst as [n Hn].
    revert st Hn. induction n as [|n IH]; intros st Hn.
    + rewrite abort_points_0 in Hn. injection Hn as <-. exact Hbest.
    + rewrite abort_points_S in Hn.
      destruct (run a st0 obs !! n) as [r|] eqn:Er; [|discriminate].
      simpl in Hn. injection Hn as <-.
      destruct (main_loop_lookup _ _ _ _ _ _ Er) as (before & o & Hb & _ & Hs).
      destruct (epoch_step_best _ _ _ _ _ Hs) as (_ & Hf & _).
      rewrite Hf, (Hnone r (list_elem_of_lookup_2 _ _ _ Er)).
      exact (IH before Hb).
Qed.

(** C1. In a run that started from [setup], take any epoch that
    reached its checkpoint decisions.  [model.pth] is overwritten in
    that epoch, with the weights the epoch produced, exactly when its
    validation score strictly exceeds the best-ever score recorded
    before it, and is left as it was otherwise; the recorded best-ever
    score never decreases; and after the epoch [model.pth] holds the
    weights of an epoch whose score is the recorded best-ever score and
    is the highest of all scores observed up to that point. *)
Theorem best_checkpoint_holds_best_epoch a base out st0
    (obs : list epoch_obs) (n : nat) r :
  setup fresh_weights a base out = Some st0 ->
  run a st0 obs !! n = Some r ->
  exists before,
    abort_points st0 (run a st0 obs) !! n = Some before
    /\ (r_ckpt_saved r = true
        <-> Py.exceeds (r_val_mapk_avg r) (global_val_mapk_best_avg before))
    /\ files (r_state r) !! best_file
       = (if r_ckpt_saved r then Some (model (r_state r))
          else files before !! best_file)
    /\ global_val_mapk_best_avg (r_state r)
       = (if r_ckpt_saved r then Py.Fin (r_val_mapk_avg r)
          else global_val_mapk_best_avg before)
    /\ Py.score_le (global_val_mapk_best_avg before)
         (global_val_mapk_best_avg (r_state r))
    /\ exists (i : nat) ri,
         (i <= n)%nat /\
         run a st0 obs !! i = Some ri /\
         files (r_state r) !! best_file = Some (model (r_state ri)) /\
         global_val_mapk_best_avg (r_state r) = Py.Fin (r_val_mapk_avg ri) /\
         forall (j : nat) rj,
           (j <= n)%nat -> run a st0 obs !! j = Some rj ->
           (r_val_mapk_avg rj <= r_val_mapk_avg ri)%Q.
Proof.
  intros Hsetup Hr.
  destruct (setup_inv _ _ _ _ Hsetup) as (_ & H0 & _).
  destruct (main_loop_lookup _ _ _ _ _ _ Hr) as (before & o & Hb & _ & Hs).
  destruct (epoch_step_best _ _ _ _ _ Hs) as (Hsaved & Hf & Hg & _).
  exists before. split; [exact Hb|]. split; [exact Hsaved|].
  split; [exact Hf|]. split; [exact Hg|]. split.
  - rewrite Hg. destruct (r_ckpt_saved r) eqn:Ey.
    + apply PyFacts.gt_true_le, PyFacts.gt_iff, Hsaved. reflexivity.
    + apply PyFacts.score_le_refl.
  - exact (run_best_is_max a st0 _ H0 n r Hr).
Qed.

(** *** SGDR restarts *)

(** The checkpoint decisions leave the SGDR cycle alone. *)
Lemma checkpoint_decisions_cycle epoch st o v :
  let st1 := fst (checkpoint_decisions epoch st o v) in
  current_sgdr_cycle_epochs st1 = current_sgdr_cycle_epochs st
  /\ sgdr_next_cycle_end_epoch st1 = sgdr_next_cycle_end_epoch st
  /\ sgdr_cycle_count st1 = sgdr_cycle_count st
  /\ ensemble_model_index st1 = ensemble_model_index st.
Proof. unfold checkpoint_decisions. cbn. repeat split. Qed.

(** C2 (as amended).  Whenever an SGDR restart fires, the cycle index
    increases by exactly 1, the in-cycle best validation score is reset
    to negative infinity, the in-cycle iteration counter is reset to 0,
    the per-cycle checkpoint slot advances by 1, and the new cycle
    length is [int(old cycle length * cycle multiplier)]: the product
    with its fractional part cut off, which for a product that is not
    negative is its integer part. *)
Theorem restart_resets_cycle_state a epoch st o r :
  epoch_step a epoch st o = Some r ->
  r_sgdr_reset r = true ->
  sgdr_cycle_count (r_state r) = sgdr_cycle_count st + 1
  /\ sgdr_cycle_val_mapk_best_avg (r_state r) = Py.NegInf
  /\ sgdr_iterations (r_state r) = 0
  /\ ensemble_model_index (r_state r) = ensemble_model_index st + 1
  /\ current_sgdr_cycle_epochs (r_state r)
     = Py.int_of_float
         (inject_Z (current_sgdr_cycle_epochs st) * sgdr_cycle_epochs_mult a)
  /\ ((0 <= inject_Z (current_sgdr_cycle_epochs st) * sgdr_cycle_epochs_mult a)%Q ->
      current_sgdr_cycle_epochs (r_state r)
      = Qfloor (inject_Z (current_sgdr_cycle_epochs st) * sgdr_cycle_epochs_mult a)).
Proof.
  intros H Hreset. apply epoch_step_inv in H as (avgs & _ & _ & H).
  cbv zeta in H.
  destruct H as (_ & Hr & _ & _ & _ & _ & Hcb & Hce & _ & Hit & Hcc & Hix & _).
  rewrite Hreset in Hr. unfold after_restart_test in *. rewrite <- Hr in *.
  destruct (checkpoint_decisions_cycle epoch st o (r_val_mapk_avg r))
    as (Ce & _ & Cc & Cx).
  rewrite Hcc, Hcb, Hit, Hix, Hce. unfold restart_variables. cbn.
  rewrite Ce, Cc, Cx. repeat split.
  intros Hpos. apply int_of_float_floor, Hpos.
Qed.

(** C6 (as amended).  With a cycle length of 5, no prolongation and a
    cycle-end patience of 1: if at epoch 5 (the fifth epoch, which the
    loop counts as 4) there has been no improvement for 2 epochs, the
    restart fires at epoch 5; and when the next cycle is at least two
    epochs long it does not fire again at epoch 6. *)
Theorem restart_fires_at_fifth_epoch a base out st0 (obs : list epoch_obs) r5 :
  sgdr_cycle_epochs a = 5 ->
  sgdr_cycle_end_prolongation a = 0 ->
  sgdr_cycle_end_patience a = 1 ->
  setup fresh_weights a base out = Some st0 ->
  run a st0 obs !! 4%nat = Some r5 ->
  4 - epoch_of_last_improval (r_state r5) = 2 ->
  r_sgdr_reset r5 = true
  /\ (2 <= Py.int_of_float (inject_Z 5 * sgdr_cycle_epochs_mult a) ->
      forall r6, run a st0 obs !! 5%nat = Some r6 -> r_sgdr_reset r6 = false).
Proof.
  intros Hlen Hpro Hpat Hsetup Hr5 Hstall.
  destruct (setup_inv _ _ _ _ Hsetup) as (_ & _ & _ & Hcur0 & Hend0 & _).
  rewrite Hlen in Hcur0. rewrite Hlen, Hpro in Hend0. simpl in Hend0.
  set (trace := run a st0 obs) in *.
  (* the first four epochs end no cycle *)
  assert (Hinv : forall (n : nat) st,
             (n <= 4)%nat -> abort_points st0 trace !! n = Some st ->
             sgdr_next_cycle_end_epoch st = 5
             /\ current_sgdr_cycle_epochs st = 5).
  { induction n as [|n IH]; intros st Hn Hst.
    - rewrite abort_points_0 in Hst. injection Hst as <-. split; assumption.
    - rewrite abort_points_S in Hst.
      destruct (trace !! n) as [r|] eqn:Er; [|discriminate].
      simpl in Hst. injection Hst as <-.
      destruct (main_loop_lookup _ _ _ _ _ _ Er) as (before & o & Hb & _ & Hs).
      destruct (IH before ltac:(lia) Hb) as [Hend Hcur].
      apply epoch_step_inv in Hs as (avgs & _ & _ & Hs). cbv zeta in Hs.
      destruct Hs as (_ & _ & _ & _ & _ & _ & _ & Hce & Hne & _).
      destruct (checkpoint_decisions_cycle (0 + Z.of_nat n) before o
                  (r_val_mapk_avg r)) as (Ce & Cn & _).
      unfold after_restart_test in Hce, Hne.
      assert (Hno : restart_due a (0 + Z.of_nat n)
                      (fst (checkpoint_decisions (0 + Z.of_nat n) before o
                              (r_val_mapk_avg r))) = false).
      { unfold restart_due. rewrite Cn, Hend.
        destruct (Z.leb_spec 5 (0 + Z.of_nat n + 1)); [lia|]. reflexivity. }
      rewrite Hno in Hce, Hne. rewrite Hce, Hne, Ce, Cn. split; assumption. }
  destruct (main_loop_lookup _ _ _ _ _ _ Hr5) as (b4 & o4 & Hb4 & _ & Hs4).
  destruct (Hinv 4%nat b4 ltac:(lia) Hb4) as [Hend4 Hcur4].
  pose proof (epoch_step_best _ _ _ _ _ Hs4) as (_ & _ & _ & Hlast).
  apply epoch_step_inv in Hs4 as (avgs & _ & _ & Hs4). cbv zeta in Hs4.
  destruct Hs4 as (Hsv & Hr & _ & _ & _ & He & _ & Hce & Hne & _).
  destruct (checkpoint_decisions_cycle (0 + Z.of_nat 4) b4 o4
              (r_val_mapk_avg r5)) as (Ce & Cn & _).
  destruct (after_restart_test_keeps a (0 + Z.of_nat 4)
              (fst (checkpoint_decisions (0 + Z.of_nat 4) b4 o4
                      (r_val_mapk_avg r5)))) as (_ & _ & _ & Ke).
  assert (Hfire : restart_due a (0 + Z.of_nat 4)
                    (fst (checkpoint_decisions (0 + Z.of_nat 4) b4 o4
                            (r_val_mapk_avg r5))) = true).
  { unfold restart_due. rewrite Cn, Hend4, Hpat, <- Ke, <- He.
    change (0 + Z.of_nat 4) with 4.
    destruct (Z.leb_spec 5 (4 + 1)); [|lia].
    destruct (Z.leb_spec 1 (4 - epoch_of_last_improval (r_state r5))); [|lia].
    reflexivity. }
  split; [rewrite Hr; exact Hfire|].
  intros Hlong r6 Hr6.
  unfold after_restart_test in Hne, Hce. rewrite Hfire in Hne, Hce.
  unfold restart_variables in Hne, Hce. cbn in Hne, Hce.
  rewrite Ce, Hcur4 in Hne, Hce. rewrite Hpro in Hne.
  destruct (main_loop_lookup _ _ _ _ _ _ Hr6) as (b5 & o5 & Hb5 & _ & Hs5).
  rewrite abort_points_S in Hb5.
  change (r_state <$> trace !! 4%nat = Some b5) in Hb5. rewrite Hr5 in Hb5.
  simpl in Hb5. injection Hb5 as <-.
  apply epoch_step_inv in Hs5 as (avgs5 & _ & _ & Hs5). cbv zeta in Hs5.
  destruct Hs5 as (_ & Hr' & _).
  destruct (checkpoint_decisions_cycle (0 + Z.of_nat 5) (r_state r5) o5
              (r_val_mapk_avg r6)) as (_ & Cn5 & _).
  rewrite Hr'. unfold restart_due. rewrite Cn5, Hne.
  change (0 + Z.of_nat 4) with 4. change (0 + Z.of_nat 5) with 5.
  destruct (Z.leb_spec
              (4 + 1 + Py.int_of_float (inject_Z 5 * sgdr_cycle_epochs_mult a) + 0)
              (5 + 1)); [lia|].
  reflexivity.
Qed.

End Main.

End TrainFacts.

(** ** The properties on concrete runs *)

Module Scenarios.

Import Train.

Local Open Scope string_scope.

(** [setup] on an empty output directory and the default arguments. *)
Lemma setup_default (cycle_end_patience : Z) (mult : Q) :
  setup O (Toy.args_with cycle_end_patience mult) None ∅ = Some Toy.start_state.
Proof. vm_compute. reflexivity. Qed.

(** C1 on a run of seven epochs: the third epoch. *)
Lemma best_checkpoint_holds_best_epoch_witness :
  setup O (Toy.args_with 2 1) None ∅ = Some Toy.start_state
  /\ exists r,
       run (Toy.args_with 2 1) Toy.start_state Toy.epochs_stalling !! 2%nat
         = Some r
       /\ files (r_state r) !! best_file = Some 3%nat
       /\ global_val_mapk_best_avg (r_state r) = Py.Fin (3 # 10).
Proof.
  split; [apply setup_default|].
  destruct (run (Toy.args_with 2 1) Toy.start_state Toy.epochs_stalling !! 2%nat)
    as [r|] eqn:Er; [|vm_compute in Er; discriminate].
  exists r. split; [reflexivity|].
  destruct (TrainFacts.best_checkpoint_holds_best_epoch O (Toy.args_with 2 1)
              None ∅ Toy.start_state Toy.epochs_stalling 2 r
              (setup_default 2 1) Er)
    as (before & _ & _ & Hf & Hg & _).
  vm_compute in Er. injection Er as <-. split; vm_compute; reflexivity.
Defined.

(** C10 on the same run: [model.pth] exists after the set-up and after
    each of the seven epochs. *)
Lemma initial_checkpoint_saved_and_kept_witness :
  setup O (Toy.args_with 2 1) None ∅ = Some Toy.start_state
  /\ files Toy.start_state !! best_file = Some O
  /\ Forall (fun st => is_Some (files st !! best_file))
       (abort_points Toy.start_state
          (run (Toy.args_with 2 1) Toy.start_state Toy.epochs_stalling)).
Proof.
  split; [apply setup_default|].
  destruct (TrainFacts.initial_checkpoint_saved_and_kept O (Toy.args_with 2 1)
              None ∅ Toy.start_state Toy.epochs_stalling (setup_default 2 1))
    as (_ & Hbest & _ & Hall & _).
  split; [exact Hbest|].
  apply List.Forall_forall. intros st Hst. apply Hall, list_elem_of_In, Hst.
Defined.

(** C2 on one epoch: with a cycle-end patience of 0 the restart fires
    in the fifth epoch of the start state. *)
Lemma restart_resets_cycle_state_witness :
  exists r,
    epoch_step (Toy.args_with 0 (3 # 2)) 4 Toy.start_state
      (Toy.epoch 1 (1 # 10)) = Some r
    /\ r_sgdr_reset r = true
    /\ sgdr_cycle_count (r_state r) = 1
    /\ sgdr_iterations (r_state r) = 0
    /\ ensemble_model_index (r_state r) = 1.
Proof.
  destruct (epoch_step (Toy.args_with 0 (3 # 2)) 4 Toy.start_state
              (Toy.epoch 1 (1 # 10))) as [r|] eqn:Er;
    [|vm_compute in Er; discriminate].
  exists r. split; [reflexivity|].
  assert (Hreset : r_sgdr_reset r = true)
    by (vm_compute in Er; injection Er as <-; reflexivity).
  split; [exact Hreset|].
  destruct (TrainFacts.restart_resets_cycle_state (Toy.args_with 0 (3 # 2)) 4
              Toy.start_state (Toy.epoch 1 (1 # 10)) r Er Hreset)
    as (Hc & _ & Hi & Hx & _).
  split; [exact Hc|]. split; [exact Hi|exact Hx].
Defined.

(** C2 as first stated fails: with a cycle length of 5 and a cycle
    multiplier of 1.5 the restart of the fifth epoch sets the cycle
    length to 7, and [round(5 * 1.5)] is 8. *)
Lemma restart_length_is_not_rounded :
  let trace := Toy.run (Toy.args_with 1 (3 # 2)) Toy.epochs_stalling in
  (current_sgdr_cycle_epochs ∘ r_state <$> trace !! 3%nat) = Some 5
  /\ (r_sgdr_reset <$> trace !! 4%nat) = Some true
  /\ (current_sgdr_cycle_epochs ∘ r_state <$> trace !! 4%nat) = Some 7
  /\ Py.round (inject_Z 5 * (3 # 2)) = 8.
Proof. vm_compute. repeat split. Qed.

(** C6 on the run of seven epochs with a cycle-end patience of 1. *)
Lemma restart_fires_at_fifth_epoch_witness :
  sgdr_cycle_epochs (Toy.args_with 1 1) = 5
  /\ sgdr_cycle_end_prolongation (Toy.args_with 1 1) = 0
  /\ sgdr_cycle_end_patience (Toy.args_with 1 1) = 1
  /\ setup O (Toy.args_with 1 1) None ∅ = Some Toy.start_state
  /\ exists r5,
       run (Toy.args_with 1 1) Toy.start_state Toy.epochs_stalling !! 4%nat
         = Some r5
       /\ 4 - epoch_of_last_improval (r_state r5) = 2
       /\ r_sgdr_reset r5 = true.
Proof.
  split; [reflexivity|]. split; [reflexivity|]. split; [reflexivity|].
  split; [apply setup_default|].
  destruct (run (Toy.args_with 1 1) Toy.start_state Toy.epochs_stalling !! 4%nat)
    as [r5|] eqn:Er; [|vm_compute in Er; discriminate].
  exists r5. split; [reflexivity|].
  assert (Hstall : 4 - epoch_of_last_improval (r_state r5) = 2)
    by (vm_compute in Er; injection Er as <-; reflexivity).
  split; [exact Hstall|].
  exact (proj1 (TrainFacts.restart_fires_at_fifth_epoch O (Toy.args_with 1 1)
                  None ∅ Toy.start_state Toy.epochs_stalling r5
                  eq_refl eq_refl eq_refl (setup_default 1 1) Er Hstall)).
Defined.

(** C6 as first stated fails: cycle length 5, no prolongation,
    cycle-end patience 1, scores that improve in the first three epochs
    and not in the fourth and fifth.  At epoch 5 there has been no
    improvement for 2 epochs; the restart fires at epoch 5 and does not
    fire at epoch 6. *)
Lemma restart_fires_at_five_not_six :
  let a := Toy.args_with 1 1 in
  let trace := Toy.run a Toy.epochs_stalling in
  sgdr_cycle_epochs a = 5
  /\ sgdr_cycle_end_prolongation a = 0
  /\ sgdr_cycle_end_patience a = 1
  /\ ((fun r => 4 - epoch_of_last_improval (r_state r)) <$> trace !! 4%nat)
     = Some 2
  /\ (r_sgdr_reset <$> trace !! 4%nat) = Some true
  /\ (r_sgdr_reset <$> trace !! 5%nat) = Some false.
Proof. vm_compute. repeat split. Qed.

(** The same arguments when the epochs are counted from 0 as the loop
    variable does: the scores improve up to epoch 3, at epoch 5 there
    has been no improvement for 2 epochs, and the restart has fired at
    epoch 4; it fires neither at epoch 5 nor at epoch 6. *)
Lemma restart_fires_at_four_counting_from_zero :
  let trace := Toy.run (Toy.args_with 1 1) Toy.epochs_stalling_later in
  ((fun r => 5 - epoch_of_last_improval (r_state r)) <$> trace !! 5%nat)
  = Some 2
  /\ (r_sgdr_reset <$> trace !! 4%nat) = Some true
  /\ (r_sgdr_reset <$> trace !! 5%nat) = Some false
  /\ (r_sgdr_reset <$> trace !! 6%nat) = Some false.
Proof. vm_compute. repeat split. Qed.

(** C9 as first stated fails, in full: the first and the fourth
    candidate evaluate to exactly the same score, and the ensemble keeps
    the first and not the fourth. *)
Lemma later_equal_score_is_dropped :
  let first := (0%nat, 5 # 10)%Q in
  let fourth := (3%nat, 5 # 10)%Q in
  let score :=
    Ensemble.val_mapk_of Toy.forward Toy.mapk Toy.accuracy Toy.data_loader
      Toy.criterion in
  score first = score fourth
  /\ exists ens,
       Toy.load_ensemble_model
         [first; (1%nat, 6 # 10)%Q; (2%nat, 7 # 10)%Q; fourth] 3 = Some ens
       /\ In first ens /\ ~ In fourth ens.
Proof.
  split; [reflexivity|].
  exists [(0%nat, 5 # 10)%Q; (1%nat, 6 # 10)%Q; (2%nat, 7 # 10)%Q].
  split; [vm_compute; reflexivity|]. split; [left; reflexivity|].
  intros [H|[H|[H|[]]]]; discriminate H.
Qed.

(** C3 on the code.  The ids to exclude are the positions 0..101 of
    the word list in itself, whatever the category list says.  With a
    category list in which the ids 0, 1 and 2 are "airplane",
    "alarm clock" and "ambulance", of which only "alarm clock" is a word
    to exclude, a shard with rows of the ids 0, 1 and 2 loses all its
    rows, where the rows of the ids 0 and 2 should stay; and a row
    stays or goes by its id alone. *)
Theorem exclusion_goes_by_position_not_by_name :
  Data.categories_to_exclude = Some (map Z.of_nat (seq 0 102))
  /\ Data.read_categories Toy.categories_lines
     = Some ["airplane"; "alarm clock"; "ambulance"]
  /\ map (fun w => existsb (String.eqb w) Data.words_to_exclude)
       ["airplane"; "alarm clock"; "ambulance"]
     = [false; true; false]
  /\ Data.load_filtered (Toy.dir Toy.rows_012) 0 1 0
     = Some (["airplane"; "alarm clock"; "ambulance"], [])
  /\ (forall (to_exclude : list Z) (data : list (Data.sample unit)) s,
        s ∈ Data.exclude_filter to_exclude data
        <-> s ∈ data /\ Data.category s ∉ to_exclude).
Proof.
  split; [exact DataFacts.categories_to_exclude_positions|].
  split; [vm_compute; reflexivity|].
  split; [vm_compute; reflexivity|].
  split; [vm_compute; reflexivity|].
  intros to_exclude data s. apply DataFacts.exclude_filter_spec.
Qed.

(** C7 on a shard of four rows, one of them unrecognized: the rows
    reach the split, and the two calls differ in the training split
    only. *)
Lemma split_fixed_seed_and_unrecognized_filter_witness :
  Data.load_filtered (Toy.dir Toy.rows_200) 0 1 0
  = Some (["airplane"; "alarm clock"; "ambulance"], Toy.rows_200)
  /\ (Data.val_set_df
        <$> Data.TrainData Toy.split (Toy.dir Toy.rows_200) 0 (1 # 10) true 1 0)
     = Some [(200, tt)]
  /\ (Data.val_set_df
        <$> Data.TrainData Toy.split (Toy.dir Toy.rows_200) 0 (1 # 10) false 1 0)
     = Some [(200, tt)]
  /\ (Data.train_set_df
        <$> Data.TrainData Toy.split (Toy.dir Toy.rows_200) 0 (1 # 10) true 1 0)
     = Some [(201, tt); (200, tt); (201, tt)]
  /\ (Data.train_set_df
        <$> Data.TrainData Toy.split (Toy.dir Toy.rows_200) 0 (1 # 10) false 1 0)
     = Some [(200, tt); (201, tt)].
Proof.
  assert (Hload : Data.load_filtered (Toy.dir Toy.rows_200) 0 1 0
                  = Some (["airplane"; "alarm clock"; "ambulance"], Toy.rows_200))
    by (vm_compute; reflexivity).
  split; [exact Hload|].
  pose proof (DataFacts.split_fixed_seed_and_unrecognized_filter Toy.split
                (Toy.dir Toy.rows_200) 0 (1 # 10) 1 0 _ _ Hload) as H.
  destruct (H true) as [Ht _]. destruct (H false) as [Hf _].
  rewrite Ht, Hf. repeat split.
Defined.

(** C5 on a provider of two shards with one request ahead: the
    construction and three calls of [get_next] return, and one request
    is outstanding afterwards. *)
Lemma get_next_keeps_prefetch_depth_witness :
  0 <= 1
  /\ exists p0 ds p,
       Toy.provider = Some p0
       /\ Provider.get_next_times Toy.split 3 p0 = Some (ds, p)
       /\ Z.of_nat (length (Provider.requests p)) = 1.
Proof.
  assert (H01 : 0 <= 1) by lia. split; [exact H01|].
  destruct (ProviderFacts.get_next_always_returns Toy.split (fun l => l)
              (Toy.dir Toy.rows_200) 2 1 1 (1 # 10) true 1 0)
    as (p0 & E0 & Hcalls).
  - lia.
  - lia.
  - reflexivity.
  - intros s _. vm_compute. eauto.
  - destruct (Hcalls 3%nat) as (ds & p & E).
    exists p0, ds, p. split; [exact E0|]. split; [exact E|].
    exact (proj1 (ProviderFacts.get_next_keeps_prefetch_depth Toy.split
                    (fun l => l) (Toy.dir Toy.rows_200) 2 1 1 (1 # 10) true 1 0
                    p0 p 3 ds H01 E0 E)).
Defined.

End Scenarios.

(** ** More on [read_categories] *)

Module CategoriesFacts.

Import Data.

Local Open Scope string_scope.

Lemma list_remove_None (x : string) (l : list string) :
  list_remove x l = None <-> x ∉ l.
Proof.
  induction l as [|y l IH]; simpl.
  - split; [intros _; apply not_elem_of_nil|reflexivity].
  - destruct (String.eqb_spec y x) as [->|Hne].
    + split; [discriminate|]. intros H. exfalso. apply H, list_elem_of_here.
    + destruct (list_remove x l) as [l'|] eqn:E; simpl.
      * split; [discriminate|]. intros H. exfalso.
        assert (Hx : x ∉ l) by (intros Hin; apply H, list_elem_of_further, Hin).
        apply IH in Hx. discriminate.
      * split; [|reflexivity]. intros _ Hin.
        apply elem_of_cons in Hin as [->|Hin]; [congruence|].
        apply (proj1 IH eq_refl), Hin.
Qed.

(** What [l.remove(x)] leaves: the list without one occurrence of [x],
    the other entries in their order. *)
Lemma list_remove_Some (x : string) (l l' : list string) :
  list_remove x l = Some l' -> Permutation l (x :: l') /\ sublist l' l.
Proof.
  revert l'. induction l as [|y l IH]; intros l'; simpl; [discriminate|].
  destruct (String.eqb_spec y x) as [->|Hne].
  - intros [= <-]. split; [reflexivity|]. apply sublist_cons. reflexivity.
  - destruct (list_remove x l) as [l0|]; [|discriminate]. simpl.
    intros [= <-]. destruct (IH l0 eq_refl) as [HP Hs]. split.
    + rewrite HP. apply perm_swap.
    + apply sublist_skip, Hs.
Qed.

Lemma list_remove_other (x y : string) (l l' : list string) :
  list_remove x l = Some l' -> y <> x -> (y ∈ l' <-> y ∈ l).
Proof.
  intros H Hne. apply list_remove_Some in H as [HP _].
  rewrite HP, elem_of_cons. split; [auto|]. intros [->|H]; [congruence|exact H].
Qed.

(** X1.  [read_categories] returns the lines without one occurrence of each
    of the five names, everything else kept, in the order of the
    file. *)
Theorem read_categories_removes_five (lines cats : list string) :
  read_categories lines = Some cats ->
  Permutation lines
    (["aircraft carrier"; "knife"; "lighter"; "rifle"; "syringe"] ++ cats)
  /\ sublist cats lines
  /\ length lines = (length cats + 5)%nat.
Proof.
  unfold read_categories. intros H.
  destruct (list_remove "aircraft carrier" lines) as [c1|] eqn:E1; [|discriminate].
  simpl in H.
  destruct (list_remove "knife" c1) as [c2|] eqn:E2; [|discriminate].
  simpl in H.
  destruct (list_remove "lighter" c2) as [c3|] eqn:E3; [|discriminate].
  simpl in H.
  destruct (list_remove "rifle" c3) as [c4|] eqn:E4; [|discriminate].
  simpl in H.
  apply list_remove_Some in E1 as [P1 S1]. apply list_remove_Some in E2 as [P2 S2].
  apply list_remove_Some in E3 as [P3 S3]. apply list_remove_Some in E4 as [P4 S4].
  apply list_remove_Some in H as [P5 S5].
  assert (HP : Permutation lines
    (["aircraft carrier"; "knife"; "lighter"; "rifle"; "syringe"] ++ cats)).
  { simpl. rewrite P1, P2, P3, P4, P5. reflexivity. }
  split; [exact HP|]. split.
  - etransitivity; [exact S5|]. etransitivity; [exact S4|].
    etransitivity; [exact S3|]. etransitivity; [exact S2|exact S1].
  - apply Permutation_length in HP. rewrite HP, length_app. simpl. lia.
Qed.

(** X2.  [read_categories] raises exactly when one of the five names is not
    a line of the file. *)
Theorem read_categories_raises_iff_missing (lines : list string) :
  read_categories lines = None
  <-> exists w,
        w ∈ ["aircraft carrier"; "knife"; "lighter"; "rifle"; "syringe"]
        /\ w ∉ lines.
Proof.
  unfold read_categories.
  destruct (list_remove "aircraft carrier" lines) as [c1|] eqn:E1; simpl.
  2:{ split; [intros _|reflexivity]. exists "aircraft carrier".
      split; [set_solver|]. apply list_remove_None, E1. }
  destruct (list_remove "knife" c1) as [c2|] eqn:E2; simpl.
  2:{ split; [intros _|reflexivity]. exists "knife". split; [set_solver|].
      apply list_remove_None in E2.
      rewrite <- (list_remove_other _ "knife" _ _ E1); [exact E2|discriminate]. }
  destruct (list_remove "lighter" c2) as [c3|] eqn:E3; simpl.
  2:{ split; [intros _|reflexivity]. exists "lighter". split; [set_solver|].
      apply list_remove_None in E3.
      rewrite <- (list_remove_other _ "lighter" _ _ E1); [|discriminate].
      rewrite <- (list_remove_other _ "lighter" _ _ E2); [exact E3|discriminate]. }
  destruct (list_remove "rifle" c3) as [c4|] eqn:E4; simpl.
  2:{ split; [intros _|reflexivity]. exists "rifle". split; [set_solver|].
      apply list_remove_None in E4.
      rewrite <- (list_remove_other _ "rifle" _ _ E1); [|discriminate].
      rewrite <- (list_remove_other _ "rifle" _ _ E2); [|discriminate].
      rewrite <- (list_remove_other _ "rifle" _ _ E3); [exact E4|discriminate]. }
  destruct (list_remove "syringe" c4) as [c5|] eqn:E5.
  2:{ split; [intros _|reflexivity]. exists "syringe". split; [set_solver|].
      apply list_remove_None in E5.
      rewrite <- (list_remove_other _ "syringe" _ _ E1); [|discriminate].
      rewrite <- (list_remove_other _ "syringe" _ _ E2); [|discriminate].
      rewrite <- (list_remove_other _ "syringe" _ _ E3); [|discriminate].
      rewrite <- (list_remove_other _ "syringe" _ _ E4); [exact E5|discriminate]. }
  split; [discriminate|]. intros (w & Hw & Hnot). exfalso.
  assert (H1 : forall x l l', list_remove x l = Some l' -> x ∈ l).
  { intros x l l' H. destruct (decide (x ∈ l)) as [Hin|Hout]; [exact Hin|].
    apply list_remove_None in Hout. congruence. }
  repeat (apply elem_of_cons in Hw as [->|Hw]).
  - apply Hnot, (H1 _ _ _ E1).
  - apply Hnot. apply (list_remove_other _ "knife" _ _ E1); [discriminate|].
    apply (H1 _ _ _ E2).
  - apply Hnot. apply (list_remove_other _ "lighter" _ _ E1); [discriminate|].
    apply (list_remove_other _ "lighter" _ _ E2); [discriminate|].
    apply (H1 _ _ _ E3).
  - apply Hnot. apply (list_remove_other _ "rifle" _ _ E1); [discriminate|].
    apply (list_remove_other _ "rifle" _ _ E2); [discriminate|].
    apply (list_remove_other _ "rifle" _ _ E3); [discriminate|].
    apply (H1 _ _ _ E4).
  - apply Hnot. apply (list_remove_other _ "syringe" _ _ E1); [discriminate|].
    apply (list_remove_other _ "syringe" _ _ E2); [discriminate|].
    apply (list_remove_other _ "syringe" _ _ E3); [discriminate|].
    apply (list_remove_other _ "syringe" _ _ E4); [discriminate|].
    apply (H1 _ _ _ E5).
  - apply not_elem_of_nil in Hw. exact Hw.
Qed.

(** The first property on a file of eight lines. *)
Lemma read_categories_removes_five_witness :
  read_categories Toy.categories_lines
  = Some ["airplane"; "alarm clock"; "ambulance"]
  /\ length Toy.categories_lines = (3 + 5)%nat.
Proof.
  assert (H : read_categories Toy.categories_lines
              = Some ["airplane"; "alarm clock"; "ambulance"])
    by (vm_compute; reflexivity).
  split; [exact H|].
  exact (proj2 (proj2 (read_categories_removes_five _ _ H))).
Defined.

End CategoriesFacts.

(** ** Strokes *)

Module UtilsFacts.

Import Utils.

(** A slice with bounds inside the list. *)
Lemma py_slice_inside {A : Type} (a b : Z) (l : list A) :
  0 <= a -> a <= b -> b <= Z.of_nat (length l) ->
  Data.py_slice a b l = take (Z.to_nat (b - a)) (drop (Z.to_nat a) l).
Proof.
  intros Ha Hab Hb. unfold Data.py_slice.
  destruct (Z.ltb_spec a 0); [lia|]. destruct (Z.ltb_spec b 0); [lia|].
  rewrite (Z.min_r _ a) by lia. rewrite (Z.min_r _ b) by lia.
  rewrite (Z.max_r 0 a) by lia. rewrite (Z.max_r 0 b) by lia. reflexivity.
Qed.

Lemma py_slice_middle {A : Type} (p m s : list A) :
  Data.py_slice (Z.of_nat (length p))
    (Z.of_nat (length p) + Z.of_nat (length m)) (p ++ m ++ s) = m.
Proof.
  rewrite py_slice_inside; [|lia|lia|rewrite !length_app; lia].
  rewrite Nat2Z.id, drop_app_length.
  replace (Z.to_nat (Z.of_nat (length p) + Z.of_nat (length m)
                     - Z.of_nat (length p))) with (length m) by lia.
  apply take_app_length.
Qed.

Lemma py_sum_from (l : list Z) (acc : Z) :
  fold_left Z.add l acc = acc + py_sum l.
Proof.
  unfold py_sum. revert acc. induction l as [|k l IH]; intros acc; simpl.
  - lia.
  - rewrite (IH (acc + k)), (IH (0 + k)). lia.
Qed.

Lemma py_sum_cons (k : Z) (l : list Z) : py_sum (k :: l) = k + py_sum l.
Proof. unfold py_sum at 1. simpl. rewrite py_sum_from. lia. Qed.

Lemma py_sum_app (l1 l2 : list Z) : py_sum (l1 ++ l2) = py_sum l1 + py_sum l2.
Proof.
  induction l1 as [|k l1 IH]; simpl; [reflexivity|].
  rewrite !py_sum_cons, IH. lia.
Qed.

Lemma py_sum_repeat_0 (n : nat) : py_sum (repeat 0 n) = 0.
Proof.
  induction n as [|n IH]; [reflexivity|]. simpl. rewrite py_sum_cons, IH. lia.
Qed.

(** *** Flattening and assembling *)

Lemma assemble_flatten_from (d : drawing) (px py : list Z) :
  Forall (fun s => exists xs ys, s = [xs; ys] /\ length xs = length ys) d ->
  length px = length py ->
  exists x y lens,
    flatten_strokes d 0 = Some x /\
    flatten_strokes d 1 = Some y /\
    flatten_stroke_lens d = Some lens /\
    assemble_from (px ++ x) (py ++ y) (Z.of_nat (length px)) lens = d.
Proof.
  intros Hd. revert px py.
  induction Hd as [|s d (xs & ys & -> & Hlen) _ IH]; intros px py Hp.
  - exists [], [], []. repeat split.
  - destruct (IH (px ++ xs) (py ++ ys)) as (x & y & lens & Hx & Hy & Hl & Ha).
    { rewrite !length_app. lia. }
    exists (xs ++ x), (ys ++ y), (Z.of_nat (length xs) :: lens).
    split; [|split; [|split]].
    + simpl. rewrite Hx. reflexivity.
    + simpl. rewrite Hy. reflexivity.
    + unfold flatten_stroke_lens in *. simpl. rewrite Hl. reflexivity.
    + simpl. rewrite py_slice_middle.
      rewrite Hp, Hlen, py_slice_middle. f_equal.
      rewrite <- Hlen, <- Hp. rewrite !app_assoc.
      replace (Z.of_nat (length px) + Z.of_nat (length xs))
        with (Z.of_nat (length (px ++ xs))) by (rewrite length_app; lia).
      exact Ha.
Qed.

(** X3.  Round trip: a drawing whose strokes each have as many xs as ys is
    what [assemble_strokes] makes of its two flattened axes and its
    stroke lengths. *)
Theorem assemble_flatten_round_trip (d : drawing) :
  Forall (fun s => exists xs ys, s = [xs; ys] /\ length xs = length ys) d ->
  exists x y lens,
    flatten_strokes d 0 = Some x /\
    flatten_strokes d 1 = Some y /\
    flatten_stroke_lens d = Some lens /\
    assemble_strokes x y lens = d.
Proof.
  intros Hd. exact (assemble_flatten_from d [] [] Hd eq_refl).
Qed.

(** *** Stroke starts *)

(** X4.  [encode_stroke_start] raises exactly on the drawings with a stroke
    that has no coordinate list or no point. *)
Theorem encode_stroke_start_raises_iff (d : drawing) :
  encode_stroke_start d = None
  <-> Exists (fun s => stroke_points s = None \/ stroke_points s = Some 0) d.
Proof.
  induction d as [|s d IH]; simpl.
  - split; [discriminate|]. intros H. inversion H.
  - rewrite Exists_cons. destruct (stroke_points s) as [n|] eqn:En; simpl.
    2:{ split; [intros _; left; left; reflexivity|reflexivity]. }
    assert (Hn : 0 <= n).
    { unfold stroke_points in En.
      destruct (Provider.py_index s 0); [|discriminate].
      simpl in En. injection En as <-. lia. }
    destruct (Z.to_nat n) as [|k] eqn:Ek; simpl.
    + split; [intros _|reflexivity]. left. right. f_equal. lia.
    + destruct (encode_stroke_start d) as [r|]; simpl.
      * split; [discriminate|]. intros [[H|H]|H].
        -- discriminate.
        -- injection H as ->. discriminate.
        -- apply IH in H. discriminate.
      * split; [intros _; right; apply IH; reflexivity|reflexivity].
Qed.

(** X5.  Where it returns, the start flags are parallel to the flattened xs
    and flag one point per stroke. *)
Theorem encode_stroke_start_parallel (d : drawing) (start : list Z) :
  encode_stroke_start d = Some start ->
  exists x,
    flatten_strokes d 0 = Some x
    /\ length start = length x
    /\ py_sum start = Z.of_nat (length d)
    /\ Forall (fun f => f = 0 \/ f = 1) start.
Proof.
  revert start. induction d as [|s d IH]; intros start; simpl.
  - intros [= <-]. exists []. repeat split. constructor.
  - unfold stroke_points.
    destruct (Provider.py_index s 0) as [xs|]; [|discriminate]. simpl.
    rewrite Nat2Z.id.
    destruct (length xs) as [|k] eqn:Ek; [discriminate|]. simpl.
    destruct (encode_stroke_start d) as [r|]; [|discriminate]. simpl.
    intros [= <-]. destruct (IH r eq_refl) as (x & Hx & Hl & Hs & Hf).
    exists (xs ++ x). rewrite Hx. split; [reflexivity|]. split; [|split].
    + simpl. rewrite !length_app, repeat_length, Hl, Ek. reflexivity.
    + rewrite py_sum_cons, py_sum_app, py_sum_repeat_0, Hs. lia.
    + constructor; [right; reflexivity|]. apply Forall_app. split; [|exact Hf].
      apply Forall_forall. intros f Hin. left.
      apply list_elem_of_In, repeat_spec in Hin. exact Hin.
Qed.

(** *** Partitions *)

(** The loop loses no stroke and keeps their order. *)
Lemma partition_loop_concat (p : Z) (strokes : list stroke)
    (parts : list (list stroke)) (cur : list stroke) (pts : Z)
    (ps : list (list stroke)) :
  strokes <> [] ->
  partition_loop p strokes parts cur pts = Some ps ->
  concat ps = concat parts ++ cur ++ strokes.
Proof.
  revert parts cur pts.
  induction strokes as [|s rest IH]; intros parts cur pts Hne H; [congruence|].
  simpl in H. destruct (stroke_points s) as [n|]; [|discriminate]. simpl in H.
  destruct rest as [|s' rest'].
  - rewrite orb_true_r in H. simpl in H. injection H as <-.
    rewrite concat_app. simpl. rewrite app_nil_r. reflexivity.
  - rewrite orb_false_r in H.
    destruct (p <=? pts + n).
    + rewrite (IH _ _ _ ltac:(discriminate) H), concat_app. simpl.
      rewrite app_nil_r, <- !app_assoc. reflexivity.
    + rewrite (IH _ _ _ ltac:(discriminate) H), <- !app_assoc. reflexivity.
Qed.

Lemma concat_repeat_nil {A : Type} (n : nat) : concat (repeat ([] : list A) n) = [].
Proof. induction n as [|n IH]; [reflexivity|exact IH]. Qed.

(** X6.  [partition_strokes] returns the strokes cut into consecutive
    partitions, none lost and none reordered, and at least
    [num_partitions] partitions. *)
Theorem partition_strokes_keeps_strokes (strokes : list stroke)
    (num_partitions : Z) (ps : list (list stroke)) :
  partition_strokes strokes num_partitions = Some ps ->
  concat ps = strokes /\ num_partitions <= Z.of_nat (length ps).
Proof.
  unfold partition_strokes. intros H.
  destruct (mapM stroke_points strokes) as [lens|]; [|discriminate]. simpl in H.
  destruct (ceil_div (py_sum lens) num_partitions) as [p|]; [|discriminate].
  simpl in H.
  destruct (partition_loop p strokes [] [] 0) as [parts|] eqn:E; [|discriminate].
  simpl in H. injection H as <-. unfold pad_partitions. split.
  - rewrite concat_app, concat_repeat_nil, app_nil_r.
    destruct strokes as [|s rest].
    + simpl in E. injection E as <-. reflexivity.
    + assert (Hne : s :: rest <> []) by discriminate.
      rewrite (partition_loop_concat _ _ _ _ _ _ Hne E). reflexivity.
  - rewrite length_app, repeat_length. lia.
Qed.

(** The loop on strokes that all have a point: it returns, and all the
    partitions it adds but the last hold at least [p] points, the last
    at least one. *)
Lemma partition_loop_count (p : Z) (strokes : list stroke) (lens : list Z)
    (parts : list (list stroke)) (cur : list stroke) (pts : Z) :
  Forall2 (fun s k => stroke_points s = Some k /\ 1 <= k) strokes lens ->
  strokes <> [] -> 0 <= pts ->
  exists ps,
    partition_loop p strokes parts cur pts = Some ps /\
    p * (Z.of_nat (length ps) - Z.of_nat (length parts) - 1) + 1
    <= pts + py_sum lens.
Proof.
  intros HF. revert parts cur pts.
  induction HF as [|s k rest lens' [Hs Hk] HF IH]; intros parts cur pts Hne Hpts;
    [congruence|].
  simpl. rewrite Hs. simpl. rewrite py_sum_cons.
  destruct rest as [|s' rest'].
  - rewrite orb_true_r. simpl. eexists. split; [reflexivity|].
    inversion HF; subst. rewrite length_app. simpl.
    replace (Z.of_nat (length parts + 1) - Z.of_nat (length parts) - 1) with 0
      by lia.
    unfold py_sum. simpl. lia.
  - rewrite orb_false_r. destruct (Z.leb_spec p (pts + k)) as [Hfull|Hnot].
    + destruct (IH (parts ++ [cur ++ [s]]) [] 0 ltac:(discriminate) ltac:(lia))
        as (ps & E & Hc).
      exists ps. split; [exact E|].
      rewrite length_app in Hc. simpl in Hc. nia.
    + destruct (IH parts (cur ++ [s]) (pts + k) ltac:(discriminate) ltac:(lia))
        as (ps & E & Hc).
      exists ps. split; [exact E|]. lia.
Qed.

Lemma ceil_div_ge (a b p : Z) : 0 < b -> ceil_div a b = Some p -> a <= b * p.
Proof.
  unfold ceil_div. intros Hb. destruct (Z.eqb_spec b 0); [lia|].
  intros [= <-].
  pose proof (Qle_ceiling (inject_Z a / inject_Z b)) as H.
  assert (Hq : (0 < inject_Z b)%Q) by (unfold Qlt; simpl; lia).
  apply (Qmult_le_compat_r _ _ (inject_Z b)) in H; [|apply Qlt_le_weak, Hq].
  rewrite Qmult_comm, Qmult_div_r in H
    by (intros E; rewrite E in Hq; exact (Qlt_irrefl _ Hq)).
  rewrite <- inject_Z_mult in H. rewrite <- Zle_Qle in H. lia.
Qed.

(** X7.  When every stroke has a point and [num_partitions] is at least 1,
    [partition_strokes] returns exactly [num_partitions] partitions. *)
Theorem partition_strokes_exact_count (strokes : list stroke)
    (num_partitions : Z) :
  1 <= num_partitions ->
  Forall (fun s => exists k, stroke_points s = Some k /\ 1 <= k) strokes ->
  exists ps,
    partition_strokes strokes num_partitions = Some ps
    /\ Z.of_nat (length ps) = num_partitions
    /\ concat ps = strokes.
Proof.
  intros Hn Hall.
  assert (HF : exists lens,
             Forall2 (fun s k => stroke_points s = Some k /\ 1 <= k) strokes lens).
  { induction Hall as [|s rest (k & Hk) _ (lens & IH)].
    - exists []. constructor.
    - exists (k :: lens). constructor; assumption. }
  destruct HF as (lens & HF).
  assert (Hm : mapM stroke_points strokes = Some lens).
  { apply mapM_Some. eapply Forall2_impl; [exact HF|]. intros s k [H _]. exact H. }
  assert (Hcount : exists ps,
             partition_strokes strokes num_partitions = Some ps
             /\ Z.of_nat (length ps) = num_partitions).
  { unfold partition_strokes. rewrite Hm. simpl.
    destruct (ceil_div (py_sum lens) num_partitions) as [p|] eqn:Ep.
    2:{ unfold ceil_div in Ep. destruct (Z.eqb_spec num_partitions 0); [lia|].
        discriminate. }
    simpl. assert (Hpos : 0 < num_partitions) by lia.
    pose proof (ceil_div_ge _ _ _ Hpos Ep) as Hp.
    destruct strokes as [|s rest].
    - simpl. eexists. split; [reflexivity|]. unfold pad_partitions.
      rewrite length_app, repeat_length. simpl. lia.
    - destruct (partition_loop_count p (s :: rest) lens [] [] 0 HF
                  ltac:(discriminate) ltac:(lia)) as (parts & E & Hc).
      rewrite E. simpl. eexists. split; [reflexivity|].
      unfold pad_partitions. rewrite length_app, repeat_length.
      simpl in Hc.
      assert (Hsum : 1 <= py_sum lens).
      { inversion HF as [|? k ? lens' [_ Hk] HF']; subst.
        rewrite py_sum_cons.
        assert (0 <= py_sum lens'); [|lia].
        clear -HF'. induction HF' as [|? k' ? ? [_ Hk'] _ IH].
        - reflexivity.
        - rewrite py_sum_cons. lia. }
      assert (Hp1 : 1 <= p) by nia.
      assert (Z.of_nat (length parts) - 1 < num_partitions) by nia.
      lia. }
  destruct Hcount as (ps & E & Hlen). exists ps. split; [exact E|].
  split; [exact Hlen|].
  unfold partition_strokes in E. rewrite Hm in E. simpl in E.
  destruct (ceil_div (py_sum lens) num_partitions) as [p|]; [|discriminate].
  simpl in E.
  destruct (partition_loop p strokes [] [] 0) as [parts|] eqn:El; [|discriminate].
  simpl in E. injection E as <-. unfold pad_partitions.
  rewrite concat_app, concat_repeat_nil, app_nil_r.
  destruct strokes as [|s rest].
  - simpl in El. injection El as <-. reflexivity.
  - assert (Hne : s :: rest <> []) by discriminate.
    rewrite (partition_loop_concat _ _ _ _ _ _ Hne El). reflexivity.
Qed.

(** *** Learning rates *)

(** X8.  After [adjust_learning_rate(optimizer, lr)], [get_learning_rate]
    returns [lr] whenever the optimizer has a parameter group, and
    [None] when it has none; every group has the new rate and keeps its
    other settings. *)
Theorem get_after_adjust_learning_rate (optimizer : param_groups) (lr : Q) :
  get_learning_rate (adjust_learning_rate optimizer lr)
  = Some (match optimizer with [] => None | _ :: _ => Some lr end)
  /\ length (adjust_learning_rate optimizer lr) = length optimizer
  /\ forall (i : nat) (g : gmap string Q),
       optimizer !! i = Some g ->
       exists g',
         adjust_learning_rate optimizer lr !! i = Some g'
         /\ g' !! "lr"%string = Some lr
         /\ forall k : string, k <> "lr"%string -> g' !! k = g !! k.
Proof.
  unfold adjust_learning_rate. split; [|split].
  - destruct optimizer as [|g rest]; [reflexivity|]. simpl.
    rewrite lookup_insert_eq. reflexivity.
  - apply length_map.
  - intros i g Hg. exists (<["lr"%string := lr]> g). split; [|split].
    + exact (list_lookup_fmap_Some_2
               (fun param_group : gmap string Q => <["lr"%string := lr]> param_group)
               optimizer i g Hg).
    + apply lookup_insert_eq.
    + intros k Hk. apply lookup_insert_ne. congruence.
Qed.

(** The round trip on a drawing of two strokes. *)
Lemma assemble_flatten_round_trip_witness :
  exists x y lens,
    flatten_strokes [[[1; 2]; [3; 4]]; [[5]; [6]]] 0 = Some x /\
    flatten_strokes [[[1; 2]; [3; 4]]; [[5]; [6]]] 1 = Some y /\
    flatten_stroke_lens [[[1; 2]; [3; 4]]; [[5]; [6]]] = Some lens /\
    assemble_strokes x y lens = [[[1; 2]; [3; 4]]; [[5]; [6]]].
Proof.
  apply (assemble_flatten_round_trip [[[1; 2]; [3; 4]]; [[5]; [6]]]).
  apply Forall_cons. split.
  - exists [1; 2], [3; 4]. split; reflexivity.
  - apply Forall_cons. split; [|apply Forall_nil_2].
    exists [5], [6]. split; reflexivity.
Defined.

(** The start flags of the same drawing. *)
Lemma encode_stroke_start_parallel_witness :
  encode_stroke_start [[[1; 2]; [3; 4]]; [[5]; [6]]] = Some [1; 0; 1]
  /\ exists x,
       flatten_strokes [[[1; 2]; [3; 4]]; [[5]; [6]]] 0 = Some x
       /\ length [1; 0; 1] = length x
       /\ py_sum [1; 0; 1] = Z.of_nat (length [[[1; 2]; [3; 4]]; [[5]; [6]]])
       /\ Forall (fun f => f = 0 \/ f = 1) [1; 0; 1].
Proof.
  assert (H : encode_stroke_start [[[1; 2]; [3; 4]]; [[5]; [6]]]
              = Some [1; 0; 1]) by (vm_compute; reflexivity).
  split; [exact H|].
  exact (encode_stroke_start_parallel _ _ H).
Defined.

(** Three strokes of 2, 1 and 3 points in two partitions of 3 points. *)
Lemma partition_strokes_keeps_strokes_witness :
  partition_strokes
    [[[1; 2]; [3; 4]]; [[5]; [6]]; [[7; 8; 9]; [1; 1; 1]]] 2
  = Some [[[[1; 2]; [3; 4]]; [[5]; [6]]]; [[[7; 8; 9]; [1; 1; 1]]]]
  /\ concat [[[[1; 2]; [3; 4]]; [[5]; [6]]]; [[[7; 8; 9]; [1; 1; 1]]]]
     = [[[1; 2]; [3; 4]]; [[5]; [6]]; [[7; 8; 9]; [1; 1; 1]]]
  /\ 2 <= Z.of_nat (length [[[[1; 2]; [3; 4]]; [[5]; [6]]];
                            [[[7; 8; 9]; [1; 1; 1]]]]).
Proof.
  assert (H : partition_strokes
                [[[1; 2]; [3; 4]]; [[5]; [6]]; [[7; 8; 9]; [1; 1; 1]]] 2
              = Some [[[[1; 2]; [3; 4]]; [[5]; [6]]];
                      [[[7; 8; 9]; [1; 1; 1]]]])
    by (vm_compute; reflexivity).
  split; [exact H|].
  exact (partition_strokes_keeps_strokes _ _ _ H).
Defined.

(** One stroke asked for in three partitions: two of them are empty. *)
Lemma partition_strokes_exact_count_witness :
  exists ps,
    partition_strokes [[[1; 2]; [3; 4]]] 3 = Some ps
    /\ Z.of_nat (length ps) = 3
    /\ concat ps = [[[1; 2]; [3; 4]]].
Proof.
  apply (partition_strokes_exact_count [[[1; 2]; [3; 4]]] 3).
  - lia.
  - apply Forall_cons. split; [|apply Forall_nil_2].
    exists 2. split; [reflexivity|lia].
Defined.

End UtilsFacts.

(** ** Inside one epoch *)

Module EpochFacts.

Import Epoch.

(** *** Progressive image sizes *)

Lemma py_range3_lookup (a b step : Z) (l : list Z) (i : nat) :
  0 < step -> py_range3 a b step = Some l ->
  (Z.of_nat i < (b - a + step - 1) / step) ->
  l !! i = Some (a + Z.of_nat i * step).
Proof.
  unfold py_range3. intros Hs H Hi.
  destruct (Z.eqb_spec step 0); [lia|]. destruct (Z.ltb_spec 0 step); [|lia].
  injection H as <-.
  change (map ?f ?l0) with (f <$> l0).
  rewrite list_lookup_fmap, lookup_seq_lt by lia. reflexivity.
Qed.

(** X9.  With a minimum not above [image_size] and positive steps, the image
    size of an epoch is the minimum plus one size step for every
    [progressive_image_epoch_step] epochs gone by, up to the largest
    such size that does not exceed [image_size]; it never decreases
    from one epoch to a later one. *)
Theorem next_image_size_steps
    (progressive_image_size_min image_size progressive_image_size_step
     progressive_image_epoch_step epoch : Z) :
  progressive_image_size_min <= image_size ->
  0 < progressive_image_size_step ->
  0 < progressive_image_epoch_step ->
  0 <= epoch ->
  exists sizes s,
    progressive_image_sizes progressive_image_size_min image_size
      progressive_image_size_step = Some sizes
    /\ next_image_size sizes epoch progressive_image_epoch_step = Some s
    /\ s = progressive_image_size_min
           + progressive_image_size_step
             * Z.min (epoch / progressive_image_epoch_step)
                 ((image_size - progressive_image_size_min)
                  / progressive_image_size_step)
    /\ progressive_image_size_min <= s <= image_size
    /\ forall epoch' s',
         epoch <= epoch' ->
         next_image_size sizes epoch' progressive_image_epoch_step = Some s' ->
         s <= s'.
Proof.
  intros Hmin Hstep Hes Hepoch.
  set (mn := progressive_image_size_min) in *.
  set (step := progressive_image_size_step) in *.
  set (es := progressive_image_epoch_step) in *.
  set (c := (image_size - mn) / step).
  assert (Hc : 0 <= c) by (apply Z.div_pos; lia).
  assert (Hn : (image_size + 1 - mn + step - 1) / step = c + 1).
  { replace (image_size + 1 - mn + step - 1) with (image_size - mn + 1 * step)
      by lia.
    rewrite Z.div_add by lia. reflexivity. }
  assert (Hcap : mn + step * c <= image_size).
  { pose proof (Z.mul_div_le (image_size - mn) step Hstep). fold c in H. lia. }
  destruct (progressive_image_sizes mn image_size step) as [sizes|] eqn:Es.
  2:{ unfold progressive_image_sizes, py_range3 in Es.
      destruct (Z.eqb_spec step 0); [lia|discriminate]. }
  assert (Hlen : Z.of_nat (length sizes) = c + 1).
  { unfold progressive_image_sizes, py_range3 in Es.
    destruct (Z.eqb_spec step 0); [lia|]. destruct (Z.ltb_spec 0 step); [|lia].
    injection Es as <-. rewrite length_map, length_seq, Hn. lia. }
  assert (Hat : forall e, 0 <= e ->
             next_image_size sizes e es = Some (mn + step * Z.min (e / es) c)).
  { intros e He. unfold next_image_size, Data.floordiv.
    destruct (Z.eqb_spec es 0); [lia|]. simpl.
    assert (Hq : 0 <= e / es) by (apply Z.div_pos; lia).
    rewrite Hlen. replace (c + 1 - 1) with c by lia.
    set (i := Z.min (e / es) c). assert (Hi : 0 <= i <= c) by lia.
    unfold Provider.py_index. rewrite Hlen.
    destruct (Z.leb_spec 0 i); [|lia]. destruct (Z.ltb_spec i (c + 1)); [|lia].
    simpl.
    rewrite (py_range3_lookup mn (image_size + 1) step sizes (Z.to_nat i) Hstep Es)
      by (rewrite Hn; lia).
    f_equal. rewrite Z2Nat.id by lia. lia. }
  exists sizes, (mn + step * Z.min (epoch / es) c).
  split; [reflexivity|]. split; [apply Hat, Hepoch|]. split; [reflexivity|].
  assert (Hq : 0 <= epoch / es) by (apply Z.div_pos; lia).
  split; [nia|].
  intros epoch' s' Hle Hs'. rewrite Hat in Hs' by lia. injection Hs' as <-.
  assert (epoch / es <= epoch' / es) by (apply Z.div_le_mono; lia).
  nia.
Qed.

(** *** Gradient accumulation *)

Lemma batches_app (k : Z) (n : nat) (g : gradients) (l1 l2 : list nat) :
  batches k n g (l1 ++ l2)
  = g' ← batches k n g l1; batches k n g' l2.
Proof.
  revert g. induction l1 as [|b l1 IH]; intros g; simpl; [reflexivity|].
  destruct (batch_step k n g b) as [g1|]; simpl; [apply IH|reflexivity].
Qed.

Lemma mod_succ (k b : Z) :
  1 <= k -> 0 <= b ->
  ((b + 1) mod k = 0 /\ b mod k = k - 1 /\ (b + 1) / k = b / k + 1)
  \/ ((b + 1) mod k = b mod k + 1 /\ b mod k < k - 1 /\ (b + 1) / k = b / k).
Proof.
  intros Hk Hb.
  pose proof (Z.div_mod b k ltac:(lia)) as E1.
  pose proof (Z.mod_pos_bound b k ltac:(lia)) as B1.
  destruct (Z.eq_dec (b mod k) (k - 1)) as [Hr|Hr].
  - left. assert (E : b + 1 = (b / k + 1) * k + 0) by lia.
    split; [|split; [exact Hr|]].
    + rewrite E. rewrite Z.add_0_r. apply Z.mod_mul. lia.
    + rewrite E. rewrite Z.add_0_r. apply Z.div_mul. lia.
  - right. assert (E : b + 1 = (b / k) * k + (b mod k + 1)) by lia.
    split; [|split; [lia|]].
    + rewrite E at 1. rewrite Z.add_comm, Z.mod_add by lia.
      apply Z.mod_small. lia.
    + rewrite E at 1. rewrite Z.add_comm, Z.div_add by lia.
      rewrite Z.div_small by lia. lia.
Qed.

Lemma batch_step_in_pass (k : Z) (n b : nat) (g : gradients) :
  1 <= k -> (S b < n)%nat -> in_pass k b g ->
  exists g', batch_step k n g b = Some g' /\ in_pass k (S b) g'.
Proof.
  intros Hk Hb (Hc & Hf & Ha & Hl). unfold batch_step, Provider.py_mod.
  destruct (Z.eqb_spec k 0); [lia|]. simpl.
  destruct (Z.eqb_spec (Z.of_nat b + 1) (Z.of_nat n)); [lia|].
  rewrite orb_false_r.
  assert (Hacc : Z.of_nat (length ((if Z.of_nat b mod k =? 0 then []
                                    else accumulated g) ++ [b]))
                 = Z.of_nat b mod k + 1).
  { rewrite length_app. simpl.
    destruct (Z.eqb_spec (Z.of_nat b mod k) 0) as [E|E]; simpl; [lia|].
    rewrite Nat2Z.inj_add, (Ha E). lia. }
  assert (HS : Z.of_nat (S b) = Z.of_nat b + 1) by lia.
  destruct (mod_succ k (Z.of_nat b) Hk ltac:(lia)) as [(E1 & E2 & E3)|(E1 & E2 & E3)].
  - rewrite E1. simpl. eexists. split; [reflexivity|].
    unfold in_pass. cbn [accumulated applied]. rewrite HS, E1, E3.
    simpl (0 =? 0). cbv iota. split; [|split; [|split]].
    + rewrite app_nil_r, concat_app. simpl concat. rewrite app_nil_r.
      rewrite seq_S. simpl. rewrite <- Hc.
      destruct (Z.of_nat b mod k =? 0); rewrite <- ?app_assoc; reflexivity.
    + apply Forall_app. split; [exact Hf|]. constructor; [|constructor]. lia.
    + intros H. congruence.
    + rewrite length_app. simpl. lia.
  - destruct (Z.eqb_spec ((Z.of_nat b + 1) mod k) 0) as [E|E].
    { pose proof (Z.mod_pos_bound (Z.of_nat b) k ltac:(lia)). lia. }
    eexists. split; [reflexivity|].
    unfold in_pass. cbn [accumulated applied]. rewrite HS.
    destruct (Z.eqb_spec ((Z.of_nat b + 1) mod k) 0); [contradiction|].
    rewrite E3. split; [|split; [|split]].
    + rewrite seq_S. simpl. rewrite <- Hc.
      destruct (Z.of_nat b mod k =? 0); rewrite <- ?app_assoc; reflexivity.
    + exact Hf.
    + intros _. rewrite Hacc, E1. reflexivity.
    + exact Hl.
Qed.

Lemma batches_in_pass (k : Z) (n m : nat) (g0 : gradients) :
  1 <= k -> (m < n)%nat -> applied g0 = [] ->
  exists g, batches k n g0 (seq 0 m) = Some g /\ in_pass k m g.
Proof.
  intros Hk Hm H0. induction m as [|m IH].
  - exists g0. split; [reflexivity|]. unfold in_pass. rewrite H0. simpl.
    rewrite Z.mod_0_l, Z.div_0_l by lia. simpl.
    repeat split; [constructor|congruence].
  - destruct (IH ltac:(lia)) as (g & E & Hin).
    destruct (batch_step_in_pass k n m g Hk Hm Hin) as (g' & E' & Hin').
    exists g'. split; [|exact Hin'].
    rewrite seq_S, batches_app, E. simpl. rewrite E'. reflexivity.
Qed.

(** X10.  Gradient accumulation.  For [batch_iterations >= 1], whatever the
    previous pass left in the gradient buffers: the pass does not
    raise; the gradient of every mini-batch is applied by exactly one
    [optimizer.step()], in the order of the mini-batches; the number of
    steps is the number of mini-batches divided by [batch_iterations],
    rounded up; every step applies [batch_iterations] mini-batches,
    except that the last one, which comes with the last mini-batch,
    may apply fewer, and never none. *)
Theorem gradient_accumulation (batch_iterations : Z) (n : nat)
    (left_over : list nat) :
  1 <= batch_iterations ->
  exists g,
    training_pass batch_iterations n left_over = Some g
    /\ concat (applied g) = seq 0 n
    /\ Z.of_nat (length (applied g))
       = (Z.of_nat n + batch_iterations - 1) / batch_iterations
    /\ forall (i : nat) s,
         applied g !! i = Some s ->
         s <> []
         /\ Z.of_nat (length s) <= batch_iterations
         /\ ((S i < length (applied g))%nat ->
             Z.of_nat (length s) = batch_iterations).
Proof.
  intros Hk. set (k := batch_iterations) in *. unfold training_pass.
  destruct n as [|m].
  - eexists. split; [reflexivity|]. simpl. split; [reflexivity|]. split.
    + rewrite Z.div_small by lia. reflexivity.
    + intros i s H. destruct i; discriminate.
  - destruct (batches_in_pass k (S m) m {| accumulated := left_over; applied := [] |}
                Hk ltac:(lia) eq_refl) as (g & E & Hc & Hf & Ha & Hl).
    rewrite seq_S, batches_app, E. simpl.
    unfold batch_step, Provider.py_mod.
    destruct (Z.eqb_spec k 0); [lia|]. simpl.
    destruct (Z.eqb_spec (Z.of_nat m + 1) (Z.of_nat (S m))); [|lia].
    rewrite orb_true_r. eexists. split; [reflexivity|]. simpl.
    set (acc := (if Z.of_nat m mod k =? 0 then [] else accumulated g) ++ [m]).
    assert (Hacc : Z.of_nat (length acc) = Z.of_nat m mod k + 1).
    { unfold acc. rewrite length_app. simpl.
      destruct (Z.eqb_spec (Z.of_nat m mod k) 0) as [E0|E0]; simpl; [lia|].
      rewrite Nat2Z.inj_add, (Ha E0). lia. }
    pose proof (Z.mod_pos_bound (Z.of_nat m) k ltac:(lia)) as Hb.
    split; [|split].
    + rewrite concat_app. simpl. rewrite app_nil_r. unfold acc.
      rewrite <- Hc. destruct (Z.of_nat m mod k =? 0);
        rewrite <- ?app_assoc; reflexivity.
    + rewrite length_app. simpl. rewrite Nat2Z.inj_add, Hl.
      replace (Z.of_nat (S m) + k - 1) with (Z.of_nat m + 1 * k) by lia.
      rewrite Z.div_add by lia. lia.
    + intros i s Hi. rewrite length_app. simpl.
      destruct (decide (i < length (applied g))%nat) as [Hlt|Hge].
      * rewrite lookup_app_l in Hi by exact Hlt.
        rewrite Forall_forall in Hf.
        pose proof (Hf s (list_elem_of_lookup_2 _ _ _ Hi)) as Hs.
        split; [|split; [lia|intros _; exact Hs]].
        intros ->. simpl in Hs. lia.
      * rewrite lookup_app_r in Hi by lia.
        destruct (i - length (applied g))%nat as [|j] eqn:Ej; [|destruct j; discriminate].
        simpl in Hi. injection Hi as <-.
        split; [|split; [lia|intros H; lia]].
        intros E0. rewrite E0 in Hacc. simpl in Hacc. lia.
Qed.

(** Sizes 32, 48, 64 for [image_size = 64]: epoch 7 of steps of 3
    epochs trains on the last of them. *)
Lemma next_image_size_steps_witness :
  exists sizes s,
    progressive_image_sizes 32 64 16 = Some sizes
    /\ next_image_size sizes 7 3 = Some s
    /\ s = 32 + 16 * Z.min (7 / 3) ((64 - 32) / 16)
    /\ 32 <= s <= 64
    /\ forall epoch' s',
         7 <= epoch' ->
         next_image_size sizes epoch' 3 = Some s' ->
         s <= s'.
Proof.
  apply (next_image_size_steps 32 64 16 3 7); lia.
Defined.

(** Five mini-batches accumulated by two: three optimizer steps. *)
Lemma gradient_accumulation_witness :
  exists g,
    training_pass 2 5 [] = Some g
    /\ concat (applied g) = seq 0 5
    /\ Z.of_nat (length (applied g)) = (Z.of_nat 5 + 2 - 1) / 2
    /\ forall (i : nat) s,
         applied g !! i = Some s ->
         s <> []
         /\ Z.of_nat (length s) <= 2
         /\ ((S i < length (applied g))%nat -> Z.of_nat (length s) = 2).
Proof.
  apply (gradient_accumulation 2 5 []). lia.
Defined.

End EpochFacts.

(** ** Averages of [evaluate] *)

Module AverageFacts.

Import Metrics.

Section Evaluate.

Context {Model Images Labels Logits : Type}.
Variable forward : Model -> Images -> Logits.
Variable mapk : Logits -> Labels -> Z -> Q.
Variable accuracy : Logits -> Labels -> Z -> Q.




End Evaluate.


End AverageFacts.

(** ** The ensemble keeps the best scores *)

Module RankingFacts.

Import Ensemble DictFacts EnsembleFacts Ranking.

Section LoadEnsemble.

Context {Model Images Labels Logits : Type}.
Variable forward : Model -> Images -> Logits.
Variable mapk : Logits -> Labels -> Z -> Q.
Variable accuracy : Logits -> Labels -> Z -> Q.

Implicit Types (d : dict Model) (K : Z) (v k : Q) (model : Model).

Lemma kept_best_fresh K seen d v :
  kept_best K seen d -> Forall (fun s => ~ (s == v)%Q) seen ->
  dict_mem v d = false.
Proof.
  intros (_ & _ & H3) Hv.
  destruct (dict_mem v d) eqn:E; [|reflexivity].
  apply H3 in E. apply Exists_exists in E. destruct E as (s & Hs & Hsv).
  rewrite Forall_forall in Hv. exfalso. exact (Hv s Hs Hsv).
Qed.

(** Lines 204-207 keep the invariant when the new score differs from
    every score seen before, and do not raise for [K >= 1]. *)
Lemma offer_kept_best K seen d v model :
  1 <= K -> distinct_keys d -> kept_best K seen d ->
  Forall (fun s => ~ (s == v)%Q) seen ->
  exists d', offer K d v model = Some d' /\ kept_best K (seen ++ [v]) d'.
Proof.
  intros HK Hd Hinv Hv.
  pose proof (kept_best_fresh K seen d v Hinv Hv) as Hfresh.
  destruct Hinv as (H1 & H2 & H3).
  destruct (offer_cases K d v model) as [[Hlt E]|[Hge E]]; rewrite E.
  - eexists; split; [reflexivity|].
    rewrite (dict_set_fresh _ _ _ Hfresh).
    split; [|split].
    + rewrite !length_app. simpl length. lia.
    + apply Forall_app. split.
      * eapply Forall_impl; [exact H2|]. intros s [Hs|[Hs _]]; [|lia].
        left. rewrite <- (dict_set_fresh _ model _ Hfresh), dict_mem_set, Hs.
        reflexivity.
      * apply Forall_cons. split; [|apply Forall_nil_2].
        left. rewrite <- (dict_set_fresh _ model _ Hfresh), dict_mem_set.
        rewrite Qeq_bool_refl. apply orb_true_r.
    + intros k Hk.
      rewrite <- (dict_set_fresh _ model _ Hfresh), dict_mem_set in Hk.
      apply Exists_app. apply orb_true_iff in Hk. destruct Hk as [Hk|Hk].
      * left. apply H3, Hk.
      * right. apply Exists_cons_hd. apply Qeq_bool_iff, Hk.
  - assert (Hne : d <> []) by (destruct d; [simpl in Hge; lia|discriminate]).
    destruct (dict_min_key_nonempty d Hne) as [mn Em]. rewrite Em.
    eexists; split; [reflexivity|].
    pose proof (dict_min_key_mem _ _ Em) as Hmn.
    destruct (Py.Qlt_bool mn v) eqn:Elt.
    + apply PyFacts.Qlt_bool_iff in Elt.
      assert (Hfresh' : dict_mem v (dict_del mn d) = false).
      { destruct (dict_mem v (dict_del mn d)) eqn:E'; [|reflexivity].
        apply dict_mem_del_le in E'. congruence. }
      assert (Hlen : length (dict_set v model (dict_del mn d)) = length d).
      { rewrite (dict_set_fresh _ _ _ Hfresh'), length_app. simpl length.
        pose proof (dict_del_length _ _ Hmn). lia. }
      assert (Hkeys : forall k,
                 dict_mem k (dict_set v model (dict_del mn d)) = true ->
                 (k == v)%Q \/ (dict_mem k d = true /\ (mn < k)%Q)).
      { intros k Hk. rewrite dict_mem_set in Hk.
        apply orb_true_iff in Hk. destruct Hk as [Hk|Hk].
        - right. pose proof (dict_mem_del_le _ _ _ Hk) as Hkd.
          split; [exact Hkd|].
          pose proof (dict_min_key_le _ _ _ Em Hkd) as Hle.
          apply Qle_lteq in Hle. destruct Hle as [Hlt|Heq]; [exact Hlt|].
          exfalso. apply Qeq_bool_iff in Heq.
          rewrite <- (dict_mem_proper _ _ _ Heq) in Hk.
          rewrite (dict_mem_del_same _ _ Hd) in Hk. discriminate.
        - left. apply Qeq_bool_iff in Hk. symmetry. exact Hk. }
      split; [|split].
      * rewrite Hlen, length_app. simpl length. lia.
      * apply Forall_app. split.
        -- eapply Forall_impl; [exact H2|]. intros s Hs.
           assert (Hbelow : (s <= mn)%Q ->
                     K <= Z.of_nat (length (dict_set v model (dict_del mn d)))
                     /\ forall k,
                          dict_mem k (dict_set v model (dict_del mn d)) = true ->
                          (s < k)%Q).
           { intros Hsmn. split; [rewrite Hlen; exact Hge|].
             intros k Hk. destruct (Hkeys k Hk) as [Hkv|[_ Hmk]].
             - rewrite Hkv. eapply Qle_lt_trans; [exact Hsmn|exact Elt].
             - eapply Qle_lt_trans; [exact Hsmn|exact Hmk]. }
           destruct Hs as [Hs|[_ Hs]].
           ++ destruct (Qeq_bool mn s) eqn:Ems.
              ** right. apply Hbelow. apply Qeq_bool_iff in Ems.
                 rewrite Ems. apply Qle_refl.
              ** left. rewrite dict_mem_set, (dict_mem_del_other _ _ _ Ems), Hs.
                 reflexivity.
           ++ right. apply Hbelow. apply Qlt_le_weak, Hs, Hmn.
        -- apply Forall_cons. split; [|apply Forall_nil_2].
           left. rewrite dict_mem_set, Qeq_bool_refl. apply orb_true_r.
      * intros k Hk. apply Exists_app.
        destruct (Hkeys k Hk) as [Hkv|[Hkd _]].
        -- right. apply Exists_cons_hd. symmetry. exact Hkv.
        -- left. apply H3, Hkd.
    + apply PyFacts.Qlt_bool_false_iff in Elt.
      split; [|split].
      * rewrite length_app. simpl length. lia.
      * apply Forall_app. split; [exact H2|].
        apply Forall_cons. split; [|apply Forall_nil_2].
        right. split; [exact Hge|]. intros k Hk.
        pose proof (dict_min_key_le _ _ _ Em Hk) as Hle.
        assert (Hvk : (v <= k)%Q) by (eapply Qle_trans; eassumption).
        apply Qle_lteq in Hvk. destruct Hvk as [Hlt|Heq]; [exact Hlt|].
        exfalso. apply H3 in Hk. apply Exists_exists in Hk.
        destruct Hk as (s & Hs & Hsk). rewrite Forall_forall in Hv.
        apply (Hv s Hs). rewrite Hsk. symmetry. exact Heq.
      * intros k Hk. apply Exists_app. left. apply H3, Hk.
Qed.

Lemma select_step_scored K loader crit d model v :
  val_mapk_of forward mapk accuracy loader crit model = Some v ->
  select_step forward mapk accuracy K loader crit d model = offer K d v model.
Proof.
  unfold val_mapk_of, select_step. intros H.
  destruct (Metrics.evaluate forward mapk accuracy model loader crit 3)
    as [r|]; [|discriminate].
  simpl in H. injection H as <-. reflexivity.
Qed.

Lemma pairwise_distinct_middle (seen vs : list Q) (v : Q) :
  pairwise_distinct (seen ++ v :: vs) ->
  Forall (fun s => ~ (s == v)%Q) seen.
Proof.
  intros H. apply Forall_lookup_2. intros i s Hs.
  pose proof (lookup_lt_Some _ _ _ Hs) as Hi.
  apply (H i (length seen) s v); [lia| |].
  - rewrite lookup_app_l; [exact Hs|exact Hi].
  - rewrite lookup_app_r; [|lia]. rewrite Nat.sub_diag. reflexivity.
Qed.

Lemma select_from_kept_best K loader crit candidates :
  1 <= K ->
  forall vs seen d,
    Forall2
      (fun model v => val_mapk_of forward mapk accuracy loader crit model = Some v)
      candidates vs ->
    pairwise_distinct (seen ++ vs) ->
    distinct_keys d -> kept_best K seen d ->
    exists d',
      select_from forward mapk accuracy K loader crit d candidates = Some d'
      /\ kept_best K (seen ++ vs) d'.
Proof.
  intros HK. induction candidates as [|model rest IH]; intros vs seen d Hvs Hpd Hd Hinv.
  - apply Forall2_nil_inv_l in Hvs. subst vs. rewrite app_nil_r.
    exists d. split; [reflexivity|exact Hinv].
  - apply Forall2_cons_inv_l in Hvs. destruct Hvs as (v & vs' & Hv & Hvs & ->).
    pose proof (pairwise_distinct_middle _ _ _ Hpd) as Hfresh.
    destruct (offer_kept_best K seen d v model HK Hd Hinv Hfresh)
      as (d1 & E1 & Hinv1).
    cbn [select_from]. rewrite (select_step_scored K loader crit d model v Hv), E1.
    cbn [mbind option_bind].
    replace (seen ++ v :: vs') with ((seen ++ [v]) ++ vs')
      by (rewrite <- app_assoc; reflexivity).
    apply IH.
    + exact Hvs.
    + rewrite <- app_assoc. exact Hpd.
    + exact (offer_distinct K d d1 v model Hd E1).
    + exact Hinv1.
Qed.

(** X12.  When the candidates evaluate to pairwise different scores and
    [ensemble_model_count] is at least 1, the selection loop of
    [load_ensemble_model] does not raise and leaves the best of them:
    the dictionary has min(number of candidates, K) entries, every key
    is the score of a candidate, and every candidate's score is either
    a key or strictly below every key. *)
Theorem ensemble_keeps_best_distinct_scores K loader crit
    (candidates : list Model) (vs : list Q) :
  1 <= K ->
  Forall2
    (fun model v => val_mapk_of forward mapk accuracy loader crit model = Some v)
    candidates vs ->
  pairwise_distinct vs ->
  exists d,
    select_from forward mapk accuracy K loader crit [] candidates = Some d
    /\ Z.of_nat (length d) = Z.min (Z.of_nat (length candidates)) K
    /\ (forall k, dict_mem k d = true -> Exists (fun v => (v == k)%Q) vs)
    /\ Forall
         (fun v =>
            dict_mem v d = true
            \/ forall k, dict_mem k d = true -> (v < k)%Q)
         vs.
Proof.
  intros HK Hvs Hpd.
  destruct (select_from_kept_best K loader crit candidates HK vs [] [] Hvs Hpd)
    as (d & E & H1 & H2 & H3).
  - exact I.
  - split; [simpl; lia|]. split; [apply Forall_nil_2|].
    intros k Hk. discriminate.
  - exists d. split; [exact E|]. simpl app in *.
    split; [|split].
    + rewrite (Forall2_length _ _ _ Hvs). exact H1.
    + exact H3.
    + eapply Forall_impl; [exact H2|]. intros v [Hv|[_ Hv]]; [left|right]; assumption.
Qed.

End LoadEnsemble.

(** Five models with the scores 0.1, 0.5, 0.3, 0.9, 0.4 and [K = 3]. *)
Lemma ensemble_keeps_best_distinct_scores_witness :
  exists d,
    select_from Toy.forward Toy.mapk Toy.accuracy 3 Toy.data_loader
      Toy.criterion []
      [(1%nat, 1 # 10); (2%nat, 5 # 10); (3%nat, 3 # 10); (4%nat, 9 # 10);
       (5%nat, 4 # 10)]%Q = Some d
    /\ Z.of_nat (length d)
       = Z.min (Z.of_nat (length
           [(1%nat, 1 # 10); (2%nat, 5 # 10); (3%nat, 3 # 10);
            (4%nat, 9 # 10); (5%nat, 4 # 10)]%Q)) 3
    /\ (forall k, dict_mem k d = true ->
          Exists (fun v => (v == k)%Q)
            [(1 # 10) / 1; (5 # 10) / 1; (3 # 10) / 1; (9 # 10) / 1;
             (4 # 10) / 1]%Q)
    /\ Forall
         (fun v =>
            dict_mem v d = true
            \/ forall k, dict_mem k d = true -> (v < k)%Q)
         [(1 # 10) / 1; (5 # 10) / 1; (3 # 10) / 1; (9 # 10) / 1;
          (4 # 10) / 1]%Q.
Proof.
  apply (ensemble_keeps_best_distinct_scores Toy.forward Toy.mapk Toy.accuracy
           3 Toy.data_loader Toy.criterion).
  - lia.
  - repeat (apply Forall2_cons; split; [vm_compute; reflexivity|]).
    apply Forall2_nil_2.
  - intros i j vi vj Hij Hi Hj.
    destruct i as [|[|[|[|[|i]]]]]; destruct j as [|[|[|[|[|j]]]]];
      cbn in Hi, Hj; try discriminate; try congruence;
      injection Hi as <-; injection Hj as <-; vm_compute; discriminate.
Defined.

End RankingFacts.

(** ** SGDR cycles and their checkpoints *)

Module CycleFacts.

Import Train TrainFacts.

Lemma string_length_app (s t : string) :
  String.length (s +:+ t) = (String.length s + String.length t)%nat.
Proof.
  induction s as [|c s IH]; [reflexivity|].
  change (S (String.length (s +:+ t)) = S (String.length s + String.length t)).
  rewrite IH. reflexivity.
Qed.

Lemma string_app_inv_tail (u s t : string) : s +:+ u = t +:+ u -> s = t.
Proof.
  revert t. induction s as [|c s IH]; intros [|c' t] H.
  - reflexivity.
  - apply (f_equal String.length) in H.
    rewrite !string_length_app in H. simpl in H. lia.
  - apply (f_equal String.length) in H.
    rewrite !string_length_app in H. simpl in H. lia.
  - change (String c (s +:+ u) = String c' (t +:+ u)) in H.
    injection H as -> H. rewrite (IH t H). reflexivity.
Qed.

(** Different slots have different per-cycle file names. *)
Lemma cycle_file_inj (i j : Z) : cycle_file i = cycle_file j -> i = j.
Proof.
  unfold cycle_file. intros H.
  apply (String.app_inj "model-") in H.
  apply string_app_inv_tail in H.
  apply (inj pretty) in H. exact H.
Qed.

Section Main.

Context {Weights : Type}.
Variable fresh_weights : Weights.

Implicit Types (a : args) (st : loop_state Weights) (o : epoch_obs Weights)
  (r : epoch_result Weights) (epoch : Z).

(** What one epoch does to the files and to the cycle variables. *)
Lemma epoch_step_cycle a epoch st o r :
  epoch_step a epoch st o = Some r ->
  let v := r_val_mapk_avg r in
  let in_cycle := Py.gt v (sgdr_cycle_val_mapk_best_avg st) in
  let overall := Py.gt v (global_val_mapk_best_avg st) in
  let dir :=
    if in_cycle
    then <[cycle_file (ensemble_model_index st) := model (r_state r)]> (files st)
    else files st in
  files (r_state r)
  = (if overall then <[best_file := model (r_state r)]> dir else dir)
  /\ sgdr_cycle_count (r_state r)
     = sgdr_cycle_count st + (if r_sgdr_reset r then 1 else 0)
  /\ ensemble_model_index (r_state r)
     = ensemble_model_index st + (if r_sgdr_reset r then 1 else 0)
  /\ sgdr_cycle_val_mapk_best_avg (r_state r)
     = (if r_sgdr_reset r then Py.NegInf
        else if in_cycle then Py.Fin v else sgdr_cycle_val_mapk_best_avg st)
  /\ global_val_mapk_best_avg (r_state r)
     = (if overall then Py.Fin v else global_val_mapk_best_avg st).
Proof.
  intros H. destruct (epoch_step_inv a epoch st o r H) as (avgs & _ & _ & Hinv).
  cbv zeta in Hinv.
  destruct Hinv as (_ & Hr & Hm & Hf & Hg & _ & Hc & _ & _ & _ & Hn & Hi & _).
  cbv zeta. rewrite Hm, Hf, Hg, Hc, Hn, Hi.
  unfold after_restart_test. rewrite <- Hr.
  destruct (r_sgdr_reset r); cbn; repeat split; lia.
Qed.

(** A property of the loop state that holds before the first epoch and
    is kept by every epoch holds wherever the run can stop. *)
Lemma main_loop_invariant (P : loop_state Weights -> Prop) a st0
    (obs : list (epoch_obs Weights)) :
  P st0 ->
  (forall epoch st o r,
      P st -> epoch_step a epoch st o = Some r -> P (r_state r)) ->
  forall (n : nat) st,
    abort_points st0 (main_loop a 0 st0 obs) !! n = Some st -> P st.
Proof.
  intros H0 Hstep. induction n as [|n IH]; intros st Hst.
  - rewrite abort_points_0 in Hst. injection Hst as <-. exact H0.
  - rewrite abort_points_S in Hst.
    destruct (main_loop a 0 st0 obs !! n) as [r|] eqn:Er; [|discriminate].
    injection Hst as <-.
    destruct (main_loop_lookup a 0 st0 obs n r Er) as (before & o & Hb & _ & Hs).
    exact (Hstep _ _ _ _ (IH _ Hb) Hs).
Qed.

(** The state an epoch starts from, when it is not the first one, is
    the state left by an epoch that neither raised nor asked to
    stop. *)
Lemma main_loop_before a st0 (obs : list (epoch_obs Weights)) (n : nat) r :
  main_loop a 0 st0 obs !! n = Some r ->
  exists before o,
    abort_points st0 (main_loop a 0 st0 obs) !! n = Some before
    /\ epoch_step a (Z.of_nat n) before o = Some r
    /\ (before = st0
        \/ exists (epoch : Z) st o' r',
             epoch_step a epoch st o' = Some r' /\ before = r_state r'
             /\ early_abort a epoch (r_sgdr_reset r') before = false).
Proof.
  intros Hr.
  destruct (main_loop_lookup a 0 st0 obs n r Hr) as (before & o & Hb & _ & Hs).
  exists before, o. split; [exact Hb|]. split; [exact Hs|].
  destruct n as [|n].
  - left. rewrite abort_points_0 in Hb. injection Hb as <-. reflexivity.
  - right. rewrite abort_points_S in Hb.
    destruct (main_loop a 0 st0 obs !! n) as [r'|] eqn:Er'; [|discriminate].
    injection Hb as <-.
    destruct (main_loop_continues a 0 st0 obs n r' r Er' Hr) as [Hraised Hbreak].
    destruct (main_loop_lookup a 0 st0 obs n r' Er') as (st & o' & _ & _ & Hs').
    exists (0 + Z.of_nat n), st, o', r'. split; [exact Hs'|]. split; [reflexivity|].
    destruct (epoch_step_inv a _ st o' r' Hs') as (avgs & _ & _ & Hinv).
    cbv zeta in Hinv.
    destruct Hinv as (_ & _ & _ & _ & _ & _ & _ & _ & _ & _ & _ & _ & Hb).
    rewrite <- (Hb Hraised). exact Hbreak.
Qed.

(** *** The cycle counter *)

Lemma abort_points_cycle_count a st0 (obs : list (epoch_obs Weights)) :
  forall (n : nat) st,
    abort_points st0 (main_loop a 0 st0 obs) !! n = Some st ->
    sgdr_cycle_count st
    = sgdr_cycle_count st0
      + Z.of_nat (length (List.filter r_sgdr_reset
                            (take n (main_loop a 0 st0 obs))))
    /\ ensemble_model_index st - sgdr_cycle_count st
       = ensemble_model_index st0 - sgdr_cycle_count st0.
Proof.
  induction n as [|n IH]; intros st Hst.
  - rewrite abort_points_0 in Hst. injection Hst as <-.
    rewrite take_0. simpl. lia.
  - rewrite abort_points_S in Hst.
    destruct (main_loop a 0 st0 obs !! n) as [r|] eqn:Er; [|discriminate].
    injection Hst as <-.
    destruct (main_loop_lookup a 0 st0 obs n r Er) as (before & o & Hb & _ & Hs).
    destruct (IH _ Hb) as [IH1 IH2].
    destruct (epoch_step_cycle a _ before o r Hs) as (_ & Hc & Hi & _).
    rewrite (take_S_r _ _ _ Er), List.filter_app, length_app.
    cbn [List.filter]. destruct (r_sgdr_reset r); simpl length; lia.
Qed.

(** X13.  [sgdr_cycle_count] is the number of restarts the run has made so
    far, and the slot of the per-cycle checkpoint is the first free slot
    found at the start plus that number. *)
Theorem cycle_count_counts_restarts a base out st0
    (obs : list (epoch_obs Weights)) (n : nat) r :
  setup fresh_weights a base out = Some st0 ->
  run a st0 obs !! n = Some r ->
  sgdr_cycle_count (r_state r)
  = Z.of_nat (length (List.filter r_sgdr_reset (take (S n) (run a st0 obs))))
  /\ ensemble_model_index (r_state r)
     = ensemble_model_index st0 + sgdr_cycle_count (r_state r).
Proof.
  intros Hsetup Hr. unfold run in *.
  destruct (setup_inv fresh_weights a base out st0 Hsetup)
    as (_ & _ & _ & _ & _ & H0 & _).
  destruct (abort_points_cycle_count a st0
              (take (Z.to_nat (epochs_to_train a)) obs) (S n) (r_state r))
    as [H1 H2].
  - rewrite abort_points_S, Hr. reflexivity.
  - rewrite H0 in *. split; lia.
Qed.

(** X14.  With [max_sgdr_cycles = m] for an [m >= 1], the cycle counter never
    exceeds [m], and the epoch in which it reaches [m] is the last one
    of the run. *)
Theorem max_sgdr_cycles_ends_run a base out st0
    (obs : list (epoch_obs Weights)) (m : Z) (n : nat) r :
  max_sgdr_cycles a = Some m ->
  1 <= m ->
  setup fresh_weights a base out = Some st0 ->
  run a st0 obs !! n = Some r ->
  sgdr_cycle_count (r_state r) <= m
  /\ (sgdr_cycle_count (r_state r) = m -> run a st0 obs !! S n = None).
Proof.
  intros Hmax Hm Hsetup Hr. unfold run in *.
  set (obs' := take (Z.to_nat (epochs_to_train a)) obs) in *.
  destruct (setup_inv fresh_weights a base out st0 Hsetup)
    as (_ & _ & _ & _ & _ & H0 & _).
  assert (Hlt : forall epoch reset st,
             early_abort a epoch reset st = false -> sgdr_cycle_count st < m).
  { intros epoch reset st E. unfold early_abort in E. rewrite Hmax in E.
    apply orb_false_elim in E. destruct E as [_ E]. apply Z.leb_gt in E. exact E. }
  split.
  - destruct (main_loop_before a st0 obs' n r Hr) as (before & o & _ & Hs & Hb).
    destruct (epoch_step_cycle a _ before o r Hs) as (_ & Hc & _).
    assert (Hbefore : sgdr_cycle_count before < m).
    { destruct Hb as [->|(epoch & st & o' & r' & _ & _ & E)].
      - lia.
      - exact (Hlt _ _ _ E). }
    destruct (r_sgdr_reset r); lia.
  - intros Hcount.
    destruct (main_loop a 0 st0 obs' !! S n) as [r'|] eqn:Er'; [|reflexivity].
    exfalso.
    destruct (main_loop_before a st0 obs' (S n) r' Er') as (before & o & Hb & _ & Hprev).
    rewrite abort_points_S, Hr in Hb. injection Hb as <-.
    destruct Hprev as [E0|(epoch & st & o' & r'' & _ & _ & E)].
    + rewrite E0, H0 in Hcount. lia.
    + apply Hlt in E. lia.
Qed.

(** *** Per-cycle checkpoints *)

(** An epoch writes no per-cycle file but the one of its own slot, and
    the slot does not go back. *)
Lemma epoch_step_other_slots a epoch st o r (i : Z) :
  epoch_step a epoch st o = Some r ->
  ensemble_model_index st <= ensemble_model_index (r_state r)
  /\ (i <> ensemble_model_index st ->
      files (r_state r) !! cycle_file i = files st !! cycle_file i).
Proof.
  intros H. destruct (epoch_step_cycle a epoch st o r H) as (Hf & _ & Hi & _).
  cbv zeta in Hf. split.
  - destruct (r_sgdr_reset r); lia.
  - intros Hne. rewrite Hf.
    assert (Hc : cycle_file (ensemble_model_index st) <> cycle_file i).
    { intros E. apply cycle_file_inj in E. congruence. }
    assert (Hb : best_file <> cycle_file i).
    { intros E. symmetry in E. exact (cycle_file_ne_best_file i E). }
    destruct (Py.gt (r_val_mapk_avg r) (global_val_mapk_best_avg st));
      destruct (Py.gt (r_val_mapk_avg r) (sgdr_cycle_val_mapk_best_avg st));
      rewrite ?(lookup_insert_ne _ _ _ _ Hb), ?(lookup_insert_ne _ _ _ _ Hc);
      reflexivity.
Qed.

Lemma abort_points_slots_frozen a st0 (obs : list (epoch_obs Weights))
    (n : nat) s (i : Z) :
  abort_points st0 (main_loop a 0 st0 obs) !! n = Some s ->
  i < ensemble_model_index s ->
  forall (k : nat) s',
    abort_points st0 (main_loop a 0 st0 obs) !! (n + k)%nat = Some s' ->
    ensemble_model_index s <= ensemble_model_index s'
    /\ files s' !! cycle_file i = files s !! cycle_file i.
Proof.
  intros Hs Hi. induction k as [|k IH]; intros s' Hs'.
  - rewrite Nat.add_0_r, Hs in Hs'. injection Hs' as <-. split; [lia|reflexivity].
  - rewrite Nat.add_succ_r, abort_points_S in Hs'.
    destruct (main_loop a 0 st0 obs !! (n + k)%nat) as [r|] eqn:Er; [|discriminate].
    injection Hs' as <-.
    destruct (main_loop_lookup a 0 st0 obs _ r Er) as (before & o & Hb & _ & Hstep).
    destruct (IH _ Hb) as [IH1 IH2].
    destruct (epoch_step_other_slots a _ before o r i Hstep) as [H1 H2].
    split; [lia|]. rewrite H2; [exact IH2|lia].
Qed.

(** X15.  Once the run has moved on to a slot, the per-cycle checkpoints of
    all smaller slots stay as they are for the rest of the run: no
    later epoch writes them, and the slot never goes back. *)
Theorem earlier_cycle_checkpoints_frozen a st0
    (obs : list (epoch_obs Weights)) (n n' : nat) s s' (i : Z) :
  (n <= n')%nat ->
  abort_points st0 (run a st0 obs) !! n = Some s ->
  abort_points st0 (run a st0 obs) !! n' = Some s' ->
  i < ensemble_model_index s ->
  ensemble_model_index s <= ensemble_model_index s'
  /\ files s' !! cycle_file i = files s !! cycle_file i.
Proof.
  intros Hn Hs Hs' Hi. unfold run in *.
  replace n' with (n + (n' - n))%nat in Hs' by lia.
  exact (abort_points_slots_frozen a st0 _ n s i Hs Hi _ s' Hs').
Qed.

(** *** The best checkpoint is one of the per-cycle checkpoints *)

Lemma gt_of_score_le (v : Q) (c g : Py.score) :
  Py.score_le c g -> Py.gt v g = true -> Py.gt v c = true.
Proof.
  intros Hle Hg. apply PyFacts.gt_iff. apply PyFacts.gt_iff in Hg.
  destruct c as [|x], g as [|y]; simpl in *; try exact I; try contradiction.
  eapply Qle_lt_trans; eassumption.
Qed.

Lemma epoch_step_best_is_cycle_checkpoint a epoch st o r (first_slot : Z) :
  first_slot <= ensemble_model_index st ->
  Cycles.best_is_cycle_checkpoint first_slot st ->
  epoch_step a epoch st o = Some r ->
  Cycles.best_is_cycle_checkpoint first_slot (r_state r)
  /\ global_val_mapk_best_avg (r_state r) <> Py.NegInf.
Proof.
  intros Hslot [Hle Hex] H.
  destruct (epoch_step_cycle a epoch st o r H) as (Hf & _ & Hi & Hc & Hg).
  cbv zeta in Hf, Hc, Hg.
  set (v := r_val_mapk_avg r) in *. set (w := model (r_state r)) in *.
  assert (Hcb : cycle_file (ensemble_model_index st) <> best_file)
    by apply cycle_file_ne_best_file.
  assert (Hbc : best_file <> cycle_file (ensemble_model_index st))
    by (intros E; symmetry in E; exact (Hcb E)).
  unfold Cycles.best_is_cycle_checkpoint.
  destruct (Py.gt v (global_val_mapk_best_avg st)) eqn:Eg.
  - (* a new best of the run is a new best of its cycle *)
    rewrite (gt_of_score_le v _ _ Hle Eg) in Hf, Hc.
    split; [split|].
    + rewrite Hc, Hg. destruct (r_sgdr_reset r); [exact I|apply PyFacts.score_le_refl].
    + intros _. exists (ensemble_model_index st), w.
      rewrite Hf, Hi, Hc, Hg.
      split; [destruct (r_sgdr_reset r); lia|].
      split; [rewrite (lookup_insert_ne _ _ _ _ Hbc); apply lookup_insert_eq|].
      split; [apply lookup_insert_eq|].
      destruct (r_sgdr_reset r); [lia|reflexivity].
    + rewrite Hg. discriminate.
  - assert (Hfin : global_val_mapk_best_avg st <> Py.NegInf).
    { intros E. rewrite E in Eg. discriminate. }
    destruct (Hex Hfin) as (i & w0 & Hi0 & Hci & Hbi & Heq).
    split; [split|].
    + rewrite Hc, Hg. destruct (r_sgdr_reset r); [exact I|].
      destruct (Py.gt v (sgdr_cycle_val_mapk_best_avg st)); [|exact Hle].
      apply PyFacts.gt_false_le, Eg.
    + intros _. exists i, w0. rewrite Hf, Hi, Hc, Hg.
      destruct (Py.gt v (sgdr_cycle_val_mapk_best_avg st)) eqn:Ec.
      * assert (Hne : i <> ensemble_model_index st).
        { intros E. rewrite (Heq E) in Ec. congruence. }
        assert (Hcc : cycle_file (ensemble_model_index st) <> cycle_file i).
        { intros E. apply cycle_file_inj in E. congruence. }
        split; [destruct (r_sgdr_reset r); lia|].
        split; [rewrite (lookup_insert_ne _ _ _ _ Hcc); exact Hci|].
        split; [rewrite (lookup_insert_ne _ _ _ _ Hcb); exact Hbi|].
        destruct (r_sgdr_reset r); lia.
      * split; [destruct (r_sgdr_reset r); lia|].
        split; [exact Hci|]. split; [exact Hbi|].
        destruct (r_sgdr_reset r); [lia|intros E; apply Heq; lia].
    + rewrite Hg. exact Hfin.
Qed.

(** X16.  After every epoch of a run, [model.pth] has the content of one of
    the per-cycle checkpoints [model-<i>.pth] written by this run: the
    best model of the run is the best model of one of its cycles. *)
Theorem best_checkpoint_is_a_cycle_checkpoint a base out st0
    (obs : list (epoch_obs Weights)) (n : nat) r :
  setup fresh_weights a base out = Some st0 ->
  run a st0 obs !! n = Some r ->
  exists (i : Z) (w : Weights),
    ensemble_model_index st0 <= i <= ensemble_model_index (r_state r)
    /\ files (r_state r) !! cycle_file i = Some w
    /\ files (r_state r) !! best_file = Some w.
Proof.
  intros Hsetup Hr. unfold run in *.
  set (obs' := take (Z.to_nat (epochs_to_train a)) obs) in *.
  destruct (setup_inv fresh_weights a base out st0 Hsetup)
    as (_ & Hg0 & Hc0 & _).
  set (P := fun st : loop_state Weights =>
              ensemble_model_index st0 <= ensemble_model_index st
              /\ Cycles.best_is_cycle_checkpoint (ensemble_model_index st0) st).
  assert (HP : forall (k : nat) st,
             abort_points st0 (main_loop a 0 st0 obs') !! k = Some st -> P st).
  { apply main_loop_invariant.
    - split; [lia|]. split; [rewrite Hc0; exact I|].
      intros Hne. rewrite Hg0 in Hne. congruence.
    - intros epoch st o r' [Hs Hb] Hstep. split.
      + destruct (epoch_step_other_slots a epoch st o r' 0 Hstep) as [Hle _]. lia.
      + exact (proj1 (epoch_step_best_is_cycle_checkpoint a epoch st o r' _ Hs Hb Hstep)). }
  destruct (main_loop_lookup a 0 st0 obs' n r Hr) as (before & o & Hb & _ & Hstep).
  destruct (HP _ _ Hb) as [Hs Hbest].
  destruct (epoch_step_best_is_cycle_checkpoint a _ before o r _ Hs Hbest Hstep)
    as [[_ Hex] Hfin].
  destruct (Hex Hfin) as (i & w & Hi & Hci & Hbi & _).
  exists i, w. split; [exact Hi|]. split; assumption.
Qed.

End Main.

(** The run of seven epochs with a cycle-end patience of 1: the restart
    of the fifth epoch is the only one. *)
Lemma cycle_count_counts_restarts_witness :
  exists r,
    run (Toy.args_with 1 1) Toy.start_state Toy.epochs_stalling !! 6%nat
      = Some r
    /\ sgdr_cycle_count (r_state r) = 1
    /\ ensemble_model_index (r_state r)
       = ensemble_model_index Toy.start_state + sgdr_cycle_count (r_state r).
Proof.
  destruct (run (Toy.args_with 1 1) Toy.start_state Toy.epochs_stalling !! 6%nat)
    as [r|] eqn:Er; [|vm_compute in Er; discriminate].
  exists r. split; [reflexivity|].
  destruct (cycle_count_counts_restarts O (Toy.args_with 1 1) None ∅
              Toy.start_state Toy.epochs_stalling 6 r
              (Scenarios.setup_default 1 1) Er) as [H1 H2].
  split; [|exact H2]. rewrite H1. vm_compute. reflexivity.
Defined.

(** The same run with [--max_sgdr_cycles 1] ends with its fifth
    epoch. *)
Lemma max_sgdr_cycles_ends_run_witness :
  exists r,
    run (Cycles.args_with_max_sgdr_cycles 1) Toy.start_state
      Toy.epochs_stalling !! 4%nat = Some r
    /\ sgdr_cycle_count (r_state r) = 1
    /\ run (Cycles.args_with_max_sgdr_cycles 1) Toy.start_state
         Toy.epochs_stalling !! 5%nat = None.
Proof.
  destruct (run (Cycles.args_with_max_sgdr_cycles 1) Toy.start_state
              Toy.epochs_stalling !! 4%nat)
    as [r|] eqn:Er; [|vm_compute in Er; discriminate].
  exists r. split; [reflexivity|].
  assert (Hc : sgdr_cycle_count (r_state r) = 1)
    by (vm_compute in Er; injection Er as <-; reflexivity).
  split; [exact Hc|].
  refine (proj2 (max_sgdr_cycles_ends_run O (Cycles.args_with_max_sgdr_cycles 1)
                   None ∅ Toy.start_state Toy.epochs_stalling 1 4 r
                   eq_refl _ _ Er) Hc).
  - lia.
  - vm_compute. reflexivity.
Defined.

(** In the run of seven epochs, [model-0.pth] is after the seventh
    epoch what it was after the fifth, the epoch of the restart. *)
Lemma earlier_cycle_checkpoints_frozen_witness :
  exists s s',
    abort_points Toy.start_state
      (run (Toy.args_with 1 1) Toy.start_state Toy.epochs_stalling) !! 5%nat
    = Some s
    /\ abort_points Toy.start_state
         (run (Toy.args_with 1 1) Toy.start_state Toy.epochs_stalling) !! 7%nat
       = Some s'
    /\ 0 < ensemble_model_index s
    /\ files s' !! cycle_file 0 = files s !! cycle_file 0.
Proof.
  destruct (abort_points Toy.start_state
              (run (Toy.args_with 1 1) Toy.start_state Toy.epochs_stalling)
            !! 5%nat) as [s|] eqn:Es; [|vm_compute in Es; discriminate].
  destruct (abort_points Toy.start_state
              (run (Toy.args_with 1 1) Toy.start_state Toy.epochs_stalling)
            !! 7%nat) as [s'|] eqn:Es'; [|vm_compute in Es'; discriminate].
  exists s, s'. split; [reflexivity|]. split; [reflexivity|].
  assert (Hi : 0 < ensemble_model_index s)
    by (vm_compute in Es; injection Es as <-; reflexivity).
  split; [exact Hi|].
  refine (proj2 (earlier_cycle_checkpoints_frozen (Toy.args_with 1 1)
                   Toy.start_state Toy.epochs_stalling 5 7 s s' 0 _ Es Es' Hi)).
  lia.
Defined.

(** In the same run, after the seventh epoch [model.pth] is the
    checkpoint of one of the slots 0 and 1. *)
Lemma best_checkpoint_is_a_cycle_checkpoint_witness :
  exists r (i : Z) (w : nat),
    run (Toy.args_with 1 1) Toy.start_state Toy.epochs_stalling !! 6%nat
      = Some r
    /\ ensemble_model_index Toy.start_state <= i <= ensemble_model_index (r_state r)
    /\ files (r_state r) !! cycle_file i = Some w
    /\ files (r_state r) !! best_file = Some w.
Proof.
  destruct (run (Toy.args_with 1 1) Toy.start_state Toy.epochs_stalling !! 6%nat)
    as [r|] eqn:Er; [|vm_compute in Er; discriminate].
  destruct (best_checkpoint_is_a_cycle_checkpoint O (Toy.args_with 1 1) None ∅
              Toy.start_state Toy.epochs_stalling 6 r
              (Scenarios.setup_default 1 1) Er) as (i & w & H).
  exists r, i, w. split; [reflexivity|exact H].
Defined.

End CycleFacts.

(** ** Shards are served round robin *)

Module RoundRobinFacts.

Import Provider ProviderFacts RoundRobin.

Section TrainDataProvider.

Context {Drawing : Type}.
Variable train_test_split :
  nat -> Q -> list Z -> Z -> option (list nat * list nat).

Implicit Types (p : provider Drawing) (r : request Drawing).

Lemma py_index_nonneg {A : Type} (l : list A) (i : Z) (x : A) :
  0 <= i -> py_index l i = Some x ->
  l !! Z.to_nat i = Some x /\ i < Z.of_nat (length l).
Proof.
  intros Hi H. unfold py_index in H.
  destruct (Z.leb_spec 0 i); [|lia].
  destruct (Z.ltb_spec i (Z.of_nat (length l))); simpl in H.
  - split; [exact H|lia].
  - destruct (Z.ltb_spec i 0); [lia|].
    rewrite andb_false_r in H. discriminate.
Qed.

(** [TrainData] records the shard it was asked for. *)
Lemma TrainData_shard (dir : Data.data_dir Drawing) s ts tou ncs cs
    (d : Data.train_data Drawing) :
  load_data train_test_split dir s ts tou ncs cs = Some d -> Data.shard d = s.
Proof.
  unfold load_data, Data.TrainData. intros H.
  destruct (Data.load_filtered dir s ncs cs) as [[cats data]|]; [|discriminate].
  cbn [mbind option_bind] in H.
  destruct (train_test_split (length data) ts (map Data.category data) 42)
    as [[tr va]|]; [|discriminate].
  cbn [mbind option_bind] in H. injection H as <-. reflexivity.
Qed.

Lemma request_data_serves p p' (served : Z) :
  0 <= served -> serves p served -> request_data p = Some p' ->
  serves p' served /\ same_settings p p'
  /\ length (requests p') = S (length (requests p)).
Proof.
  intros Hs [Hnext Hreq] H. unfold request_data in H.
  destruct (py_index (shards p) (next_shard_index p)) as [s|] eqn:Es;
    [|discriminate].
  cbn [mbind option_bind] in H.
  unfold py_mod in H.
  destruct (Z.eqb_spec (Z.of_nat (length (shards p))) 0) as [|Hn]; [discriminate|].
  cbn [mbind option_bind] in H. injection H as <-.
  set (n := Z.of_nat (length (shards p))) in *.
  assert (Hpos : 0 < n) by lia.
  assert (Hrange : 0 <= next_shard_index p < n)
    by (rewrite Hnext; apply Z.mod_pos_bound; exact Hpos).
  destruct (py_index_nonneg _ _ _ (proj1 Hrange) Es) as [Hlook _].
  unfold serves, same_settings. cbn.
  fold n. split; [split|].
  - rewrite length_app. simpl length. rewrite Hnext.
    rewrite Z.add_mod_idemp_l by lia. f_equal. lia.
  - intros j r Hj.
    apply lookup_app_Some in Hj. destruct Hj as [Hj'|[Hlen Hj']].
    + exact (Hreq j r Hj').
    + destruct (j - length (requests p))%nat as [|j'] eqn:Ej; [|destruct j'; discriminate].
      injection Hj' as <-. cbn.
      replace (Z.of_nat j) with (Z.of_nat (length (requests p))) by lia.
      rewrite <- Hnext. repeat split. exact Hlook.
  - split; [repeat split|]. rewrite length_app. simpl. lia.
Qed.

Lemma same_settings_refl p : same_settings p p.
Proof. repeat split. Qed.

Lemma same_settings_trans p1 p2 p3 :
  same_settings p1 p2 -> same_settings p2 p3 -> same_settings p1 p3.
Proof.
  intros (A1 & A2 & A3 & A4 & A5 & A6) (B1 & B2 & B3 & B4 & B5 & B6).
  unfold same_settings. rewrite B1, B2, B3, B4, B5, B6. repeat split; assumption.
Qed.

Lemma request_data_times_serves (k : nat) p p' (served : Z) :
  0 <= served -> serves p served -> request_data_times k p = Some p' ->
  serves p' served /\ same_settings p p'.
Proof.
  intros Hs. revert p. induction k as [|k IH]; intros p Hp H.
  - injection H as <-. split; [exact Hp|apply same_settings_refl].
  - simpl in H. destruct (request_data p) as [p1|] eqn:E1; [|discriminate].
    cbn [mbind option_bind] in H.
    destruct (request_data_serves p p1 served Hs Hp E1) as (Hp1 & Hs1 & _).
    destruct (IH p1 Hp1 H) as [Hp' Hs'].
    split; [exact Hp'|]. eapply same_settings_trans; eassumption.
Qed.

(** One call of [get_next] delivers the shard at the position
    [served mod len(shards)] of the shard list, loaded with the
    provider's settings. *)
Lemma get_next_serves p p' (served : Z) (d : Data.train_data Drawing) :
  0 <= served -> serves p served ->
  get_next train_test_split p = Some (d, p') ->
  serves p' (served + 1) /\ same_settings p p'
  /\ exists s,
       shards p !! Z.to_nat (served mod Z.of_nat (length (shards p))) = Some s
       /\ load_data train_test_split (data_dir p) s (test_size p)
            (train_on_unrecognized p) (num_category_shards p)
            (category_shard p) = Some d.
Proof.
  intros Hs Hp H. unfold get_next in H.
  destruct (request_data p) as [p1|] eqn:E1; [|discriminate].
  cbn [mbind option_bind] in H.
  destruct (request_data_serves p p1 served Hs Hp E1) as ([Hnext Hreq] & Hset & Hlen).
  destruct (requests p1) as [|r rest] eqn:Er; [discriminate|].
  cbn [pop0 mbind option_bind] in H.
  destruct (get train_test_split r) as [d'|] eqn:Eg; [|discriminate].
  cbn [mbind option_bind] in H. injection H as <- <-.
  destruct Hset as (S1 & S2 & S3 & S4 & S5 & S6).
  split; [|split].
  - unfold serves. cbn. rewrite Hnext. simpl length. split.
    + f_equal. lia.
    + intros j r' Hj.
      destruct (Hreq (S j) r' Hj) as (Hl & Hrest).
      split; [|exact Hrest].
      rewrite <- Hl. do 3 f_equal. lia.
  - unfold same_settings. cbn. repeat split; assumption.
  - destruct (Hreq O r eq_refl) as (Hl & R1 & R2 & R3 & R4 & R5).
    exists (req_shard r). rewrite S6 in Hl.
    rewrite Z.add_0_r in Hl. split; [exact Hl|].
    unfold get in Eg. rewrite R1, R2, R3, R4, R5 in Eg.
    rewrite S1, S2, S3, S4, S5 in Eg. exact Eg.
Qed.

Lemma get_next_times_serves (n : nat) p p' (served : Z)
    (ds : list (Data.train_data Drawing)) :
  0 <= served -> serves p served ->
  get_next_times train_test_split n p = Some (ds, p') ->
  forall (k : nat) d,
    ds !! k = Some d ->
    exists s,
      shards p !! Z.to_nat ((served + Z.of_nat k) mod Z.of_nat (length (shards p)))
      = Some s
      /\ load_data train_test_split (data_dir p) s (test_size p)
           (train_on_unrecognized p) (num_category_shards p)
           (category_shard p) = Some d.
Proof.
  revert p served ds. induction n as [|n IH]; intros p served ds Hs Hp H k d Hk.
  - injection H as <- <-. destruct k; discriminate.
  - simpl in H.
    destruct (get_next train_test_split p) as [[d1 p1]|] eqn:E1; [|discriminate].
    cbn [mbind option_bind] in H.
    destruct (get_next_times train_test_split n p1) as [[ds1 p2]|] eqn:E2;
      [|discriminate].
    cbn [mbind option_bind] in H. injection H as <- <-.
    destruct (get_next_serves p p1 served d1 Hs Hp E1) as (Hp1 & Hset & s & Hl & Hd).
    destruct k as [|k].
    + injection Hk as <-. exists s. rewrite Z.add_0_r. split; assumption.
    + simpl in Hk.
      destruct (IH p1 (served + 1) ds1 ltac:(lia) Hp1 E2 k d Hk) as (s' & Hl' & Hd').
      destruct Hset as (S1 & S2 & S3 & S4 & S5 & S6).
      rewrite S1, S2, S3, S4, S5 in Hd'. rewrite S6 in Hl'.
      exists s'. split; [|exact Hd'].
      rewrite <- Hl'. do 3 f_equal. lia.
Qed.

(** X17.  Whatever the number of shards requested ahead, the calls of
    [get_next] on a new provider deliver the shards in the order of the
    shuffled shard list, starting over at its end: the call number [k]
    (from 0) returns the data of the shard at the position
    [k mod len(shards)], loaded with the settings given to the
    constructor. *)
Theorem get_next_serves_round_robin shuffle (dir : Data.data_dir Drawing)
    num_shards num_shard_preload num_workers ts tou ncs cs
    (p0 p : provider Drawing) (n : nat) (ds : list (Data.train_data Drawing)) :
  TrainDataProvider shuffle dir num_shards num_shard_preload num_workers
    ts tou ncs cs = Some p0 ->
  get_next_times train_test_split n p0 = Some (ds, p) ->
  length ds = n
  /\ forall (k : nat) d,
       ds !! k = Some d ->
       exists s,
         shuffle (py_range num_shards)
           !! Z.to_nat (Z.of_nat k
                        mod Z.of_nat (length (shuffle (py_range num_shards))))
         = Some s
         /\ Data.shard d = s
         /\ load_data train_test_split dir s ts tou ncs cs = Some d.
Proof.
  intros H0 Hds. split.
  - clear H0. revert p0 ds Hds. induction n as [|n IH]; intros p0 ds Hds.
    + injection Hds as <- <-. reflexivity.
    + simpl in Hds.
      destruct (get_next train_test_split p0) as [[d1 p1]|]; [|discriminate].
      cbn [mbind option_bind] in Hds.
      destruct (get_next_times train_test_split n p1) as [[ds1 p2]|] eqn:E2;
        [|discriminate].
      cbn [mbind option_bind] in Hds. injection Hds as <- <-.
      simpl. rewrite (IH _ _ E2). reflexivity.
  - intros k d Hk. unfold TrainDataProvider in H0.
    destruct (num_workers <? 1); [discriminate|].
    match type of H0 with request_data_times _ ?q = _ => set (q0 := q) in * end.
    assert (Hq0 : serves q0 0).
    { unfold serves. cbn. split; [symmetry; apply Zmod_0_l|].
      intros j r Hj. destruct j; discriminate. }
    destruct (request_data_times_serves _ q0 p0 0 ltac:(lia) Hq0 H0)
      as [Hp0 (S1 & S2 & S3 & S4 & S5 & S6)].
    destruct (get_next_times_serves n p0 p 0 ds ltac:(lia) Hp0 Hds k d Hk)
      as (s & Hl & Hd).
    rewrite S1, S2, S3, S4, S5 in Hd. rewrite S6 in Hl. cbn in Hd, Hl.
    exists s. split; [exact Hl|]. split; [|exact Hd].
    exact (TrainData_shard _ _ _ _ _ _ _ Hd).
Qed.

End TrainDataProvider.

(** A provider of two shards with one request ahead: three calls
    deliver the shards 0, 1 and 0. *)
Lemma get_next_serves_round_robin_witness :
  exists p0 ds p,
    Toy.provider = Some p0
    /\ get_next_times Toy.split 3 p0 = Some (ds, p)
    /\ map Data.shard ds = [0; 1; 0].
Proof.
  destruct (get_next_always_returns Toy.split (fun l => l)
              (Toy.dir Toy.rows_200) 2 1 1 (1 # 10) true 1 0)
    as (p0 & E0 & Hcalls).
  - lia.
  - lia.
  - reflexivity.
  - intros s _. vm_compute. eauto.
  - destruct (Hcalls 3%nat) as (ds & p & E).
    exists p0, ds, p. split; [exact E0|]. split; [exact E|].
    destruct (get_next_serves_round_robin Toy.split (fun l => l)
                (Toy.dir Toy.rows_200) 2 1 1 (1 # 10) true 1 0 p0 p 3 ds E0 E)
      as [Hlen Hk].
    destruct ds as [|d0 [|d1 [|d2 [|d3 ds]]]]; try discriminate Hlen.
    destruct (Hk 0%nat d0 eq_refl) as (s0 & L0 & S0 & _).
    destruct (Hk 1%nat d1 eq_refl) as (s1 & L1 & S1 & _).
    destruct (Hk 2%nat d2 eq_refl) as (s2 & L2 & S2 & _).
    vm_compute in L0, L1, L2.
    injection L0 as <-. injection L1 as <-. injection L2 as <-.
    simpl. rewrite S0, S1, S2. reflexivity.
Defined.

End RoundRobinFacts.

(** ** Category shards *)

Module ShardFacts.

Import Data.

Section TrainData.

Context {Drawing : Type}.
Variable train_test_split :
  nat -> Q -> list Z -> Z -> option (list nat * list nat).

(** X18.  For [num_category_shards >= 2] and a [category_shard] below it, the
    category range of lines 100-110 never raises and keeps ids and
    names aligned: the category list becomes the slice of
    [len(categories) // num_category_shards] names of that shard, the
    records kept are exactly those with an id in that range, shifted to
    start at 0, and the shifted id of a kept record indexes in the
    slice the name its id had in the full list.  The ranges of all
    these shards end within the first [num_category_shards * size]
    categories: the categories left over by the integer division are
    in none of them. *)
Theorem category_shard_keeps_names_aligned
    (num_category_shards category_shard : Z) (cats : list string)
    (data : list (sample Drawing)) :
  2 <= num_category_shards ->
  0 <= category_shard < num_category_shards ->
  let size := Z.of_nat (length cats) / num_category_shards in
  let lo := category_shard * size in
  exists cats' data',
    category_shard_filter num_category_shards category_shard cats data
    = Some (cats', data')
    /\ Z.of_nat (length cats') = size
    /\ (forall s',
          s' ∈ data'
          <-> exists s,
                s ∈ data /\ lo <= category s < lo + size
                /\ s' = {| category := category s - lo;
                           drawing := drawing s;
                           recognized := recognized s |})
    /\ (forall c : Z,
          lo <= c < lo + size ->
          is_Some (cats !! Z.to_nat c)
          /\ cats' !! Z.to_nat (c - lo) = cats !! Z.to_nat c)
    /\ lo + size <= num_category_shards * size <= Z.of_nat (length cats).
Proof.
  intros Hnum Hcs size lo.
  assert (Hsize : 0 <= size) by (apply Z.div_pos; lia).
  assert (Hall : num_category_shards * size <= Z.of_nat (length cats))
    by (apply Z.mul_div_le; lia).
  assert (Hlo : 0 <= lo) by (unfold lo; nia).
  assert (Hhi : lo + size <= Z.of_nat (length cats)) by (unfold lo; nia).
  unfold category_shard_filter.
  destruct (Z.eqb_spec num_category_shards 1) as [|_]; [lia|].
  unfold floordiv.
  destruct (Z.eqb_spec num_category_shards 0) as [|_]; [lia|].
  cbn [mbind option_bind]. fold size. fold lo.
  rewrite (Z.min_l (lo + size)) by exact Hhi.
  eexists _, _. split; [reflexivity|].
  rewrite (UtilsFacts.py_slice_inside lo (lo + size) cats Hlo) by lia.
  replace (lo + size - lo) with size by lia.
  split; [|split; [|split]].
  - rewrite length_take, length_drop. lia.
  - intros s'. rewrite list_elem_of_In, in_map_iff. split.
    + intros (s & <- & Hs). apply filter_In in Hs. destruct Hs as [Hin Hr].
      apply andb_true_iff in Hr. destruct Hr as [H1 H2].
      apply Z.leb_le in H1. apply Z.ltb_lt in H2.
      exists s. split; [apply list_elem_of_In, Hin|]. split; [lia|reflexivity].
    + intros (s & Hin & Hr & ->). exists s. split; [reflexivity|].
      apply filter_In. split; [apply list_elem_of_In, Hin|].
      apply andb_true_iff. split; [apply Z.leb_le|apply Z.ltb_lt]; lia.
  - intros c Hr. split.
    + apply lookup_lt_is_Some. lia.
    + rewrite lookup_take_lt by lia. rewrite lookup_drop. f_equal. lia.
  - split; [unfold lo; nia|exact Hall].
Qed.



End TrainData.

(** Ten categories in three shards of three: the second shard holds the
    ids 3 to 5, and the tenth category is in no shard. *)
Lemma category_shard_keeps_names_aligned_witness :
  exists cats' data',
    category_shard_filter 3 1
      ["a"; "b"; "c"; "d"; "e"; "f"; "g"; "h"; "i"; "j"]%string
      [Toy.sample 2 true; Toy.sample 4 true; Toy.sample 9 true]
    = Some (cats', data')
    /\ cats' = ["d"; "e"; "f"]%string
    /\ Z.of_nat (length cats') = 3
    /\ (Toy.sample 1 true ∈ data').
Proof.
  destruct (category_shard_keeps_names_aligned 3 1
              ["a"; "b"; "c"; "d"; "e"; "f"; "g"; "h"; "i"; "j"]%string
              [Toy.sample 2 true; Toy.sample 4 true; Toy.sample 9 true])
    as (cats' & data' & E & Hlen & Hmem & _); [lia|lia|].
  exists cats', data'. split; [exact E|].
  split; [vm_compute in E; injection E as <- _; reflexivity|].
  split; [exact Hlen|].
  apply Hmem. exists (Toy.sample 4 true).
  split; [apply list_elem_of_In; simpl; tauto|].
  split; [vm_compute; split; [discriminate|reflexivity]|reflexivity].
Defined.

End ShardFacts.

(** ** The first free slot *)

Module SlotFacts.

Import Train TrainFacts Slots.

(** *** Strings *)

Lemma string_app_assoc (s t u : string) : (s +:+ t) +:+ u = s +:+ (t +:+ u).
Proof.
  induction s as [|c s IH]; [reflexivity|].
  change (String c ((s +:+ t) +:+ u) = String c (s +:+ (t +:+ u))).
  rewrite IH. reflexivity.
Qed.

Lemma string_app_nil_r (s : string) : s +:+ EmptyString = s.
Proof.
  induction s as [|c s IH]; [reflexivity|].
  change (String c (s +:+ EmptyString) = String c s). rewrite IH. reflexivity.
Qed.

Lemma rev_app_app (s t u : string) :
  String.rev_app (s +:+ t) u = String.rev_app t (String.rev_app s u).
Proof.
  revert u. induction s as [|c s IH]; intros u; [reflexivity|].
  change (String.rev_app (s +:+ t) (String c u)
          = String.rev_app t (String.rev_app s (String c u))).
  apply IH.
Qed.

Lemma prefix_app (s t : string) : String.prefix s (s +:+ t) = true.
Proof.
  induction s as [|c s IH]; [destruct t; reflexivity|].
  change (String.prefix (String c s) (String c (s +:+ t)) = true).
  cbn [String.prefix]. destruct (ascii_dec c c); [exact IH|congruence].
Qed.

Lemma ends_with_pth (s : string) : ends_with ".pth" (s +:+ ".pth") = true.
Proof.
  unfold ends_with, String.rev. rewrite rev_app_app.
  exact (prefix_app "htp." (String.rev_app s EmptyString)).
Qed.

Lemma glob_model_cycle_cycle_file (i : Z) : glob_model_cycle (cycle_file i) = true.
Proof.
  unfold glob_model_cycle, cycle_file. apply andb_true_iff. split.
  - apply prefix_app.
  - rewrite <- string_app_assoc. apply ends_with_pth.
Qed.

(** *** Dropping ["model-"] and [".pth"] *)

(** The characters still to be dropped are dropped. *)
Lemma remove_all_from_skip (old u t : string) :
  remove_all_from old (String.length u) (u +:+ t) = remove_all_from old 0 t.
Proof.
  induction u as [|c u IH]; [reflexivity|].
  change (remove_all_from old (S (String.length u)) (String c (u +:+ t))
          = remove_all_from old 0 t).
  cbn [remove_all_from]. exact IH.
Qed.

(** An occurrence of [old] at the front is dropped. *)
Lemma remove_all_from_prefix (c0 : ascii) (old' t : string) :
  remove_all_from (String c0 old') 0 (String c0 old' +:+ t)
  = remove_all_from (String c0 old') 0 t.
Proof.
  change (String c0 old' +:+ t) with (String c0 (old' +:+ t)).
  cbn [remove_all_from String.eqb negb andb].
  change (String c0 (old' +:+ t)) with (String c0 old' +:+ t).
  rewrite prefix_app.
  change (String.length (String c0 old') - 1)%nat
    with (String.length old' - 0)%nat.
  rewrite Nat.sub_0_r. apply remove_all_from_skip.
Qed.

(** Characters other than the first character of [old] stay. *)
Lemma remove_all_from_keeps (c0 : ascii) (old' d t : string) :
  all_chars (fun c => negb (Ascii.eqb c0 c)) d = true ->
  remove_all_from (String c0 old') 0 (d +:+ t)
  = d +:+ remove_all_from (String c0 old') 0 t.
Proof.
  induction d as [|c d IH]; intros H; [reflexivity|].
  simpl in H. apply andb_true_iff in H. destruct H as [Hc Hd].
  apply negb_true_iff in Hc.
  change (remove_all_from (String c0 old') 0 (String c (d +:+ t))
          = String c (d +:+ remove_all_from (String c0 old') 0 t)).
  cbn [remove_all_from String.eqb negb andb String.prefix].
  destruct (ascii_dec c0 c) as [E|_].
  - subst c. rewrite Ascii.eqb_refl in Hc. discriminate.
  - rewrite (IH Hd). reflexivity.
Qed.

Lemma all_chars_impl (P Q : ascii -> bool) (s : string) :
  (forall c, P c = true -> Q c = true) ->
  all_chars P s = true -> all_chars Q s = true.
Proof.
  intros HPQ. induction s as [|c s IH]; [reflexivity|].
  simpl. intros H. apply andb_true_iff in H. destruct H as [Hc Hs].
  rewrite (HPQ c Hc), (IH Hs). reflexivity.
Qed.

(** A sign or a digit. *)
Lemma sign_or_digit_plain (c0 : ascii) (c : ascii) :
  is_digit c0 = false -> c0 <> "-"%char ->
  is_digit c || Ascii.eqb c "-" = true -> negb (Ascii.eqb c0 c) = true.
Proof.
  intros H0 H1 H. apply negb_true_iff. apply Ascii.eqb_neq. intros <-.
  apply orb_true_iff in H. destruct H as [H|H]; [congruence|].
  apply Ascii.eqb_eq in H. contradiction.
Qed.

(** The number part of a per-cycle file name made of signs and digits
    is what the two [replace] calls leave. *)
Lemma remove_all_cycle_name (d : string) :
  all_chars (fun c => is_digit c || Ascii.eqb c "-") d = true ->
  remove_all ".pth" (remove_all "model-" ("model-" +:+ d +:+ ".pth")) = d.
Proof.
  intros H. unfold remove_all.
  rewrite (remove_all_from_prefix "m" "odel-" (d +:+ ".pth")).
  rewrite remove_all_from_keeps.
  2:{ revert H. apply all_chars_impl. intros c.
      apply sign_or_digit_plain; [reflexivity|discriminate]. }
  change (remove_all_from "model-" 0 ".pth") with ".pth"%string.
  rewrite remove_all_from_keeps.
  2:{ revert H. apply all_chars_impl. intros c.
      apply sign_or_digit_plain; [reflexivity|discriminate]. }
  change (remove_all_from ".pth" 0 ".pth") with EmptyString.
  apply string_app_nil_r.
Qed.

(** *** Reading back a printed number *)

Lemma digit_of_pretty_N_char (x : N) :
  (x < 10)%N -> digit_of (pretty_N_char x) = Some (Z.of_N x).
Proof.
  intros Hx. rewrite <- (N2Nat.id x) in *.
  assert (Hn : (N.to_nat x < 10)%nat) by lia.
  generalize dependent (N.to_nat x). intros n _ Hn.
  do 10 (destruct n as [|n]; [reflexivity|]). lia.
Qed.

(** The digits printed in front of [s] read back as the number. *)
Lemma digits_value_pretty_N_go (x : N) (s : string) :
  digits_value 0 (pretty_N_go x s) = digits_value (Z.of_N x) s
  /\ (all_chars is_digit s = true ->
      all_chars is_digit (pretty_N_go x s) = true).
Proof.
  revert s. induction x as [x IH] using (well_founded_induction N.lt_wf_0).
  intros s. destruct (N.eq_dec x 0%N) as [->|Hx].
  - rewrite pretty_N_go_0. split; [reflexivity|tauto].
  - assert (Hpos : (0 < x)%N) by lia.
    rewrite (pretty_N_go_step x s Hpos).
    assert (Hlt : (x `div` 10 < x)%N) by (apply N.div_lt; lia).
    assert (Hm : (x `mod` 10 < 10)%N) by (apply N.mod_lt; lia).
    destruct (IH _ Hlt (String (pretty_N_char (x `mod` 10)) s)) as [IH1 IH2].
    pose proof (digit_of_pretty_N_char _ Hm) as Hd.
    split.
    + rewrite IH1. cbn [digits_value]. rewrite Hd. cbn [mbind option_bind].
      f_equal. rewrite (N.div_mod x 10) at 3 by lia. lia.
    + intros Hs. apply IH2. cbn [all_chars]. unfold is_digit at 1.
      rewrite Hd. exact Hs.
Qed.

(** A string that starts with a digit is read without a sign. *)
Lemma int_of_string_digit (c : ascii) (s : string) :
  is_digit c = true ->
  int_of_string (String c s) = digits_value 0 (String c s).
Proof.
  intros H. destruct c as [[] [] [] [] [] [] [] []];
    try discriminate H; reflexivity.
Qed.

Lemma pretty_positive_reads_back (p : positive) :
  exists c s,
    pretty (Npos p) = String c s /\ is_digit c = true
    /\ all_chars is_digit s = true
    /\ digits_value 0 (String c s) = Some (Zpos p).
Proof.
  assert (E : pretty (Npos p) = pretty_N_go (Npos p) EmptyString).
  { unfold pretty, pretty_N. destruct (decide (Npos p = 0%N)); [discriminate|].
    reflexivity. }
  destruct (digits_value_pretty_N_go (Npos p) EmptyString) as [Hv Hd].
  rewrite E.
  destruct (pretty_N_go (Npos p) EmptyString) as [|c s].
  - discriminate Hv.
  - specialize (Hd eq_refl). cbn [all_chars] in Hd.
    apply andb_true_iff in Hd. destruct Hd as [Hc Hs].
    exists c, s. repeat split; assumption.
Qed.

(** [int] reads back what [format] printed, and the printed number is
    made of digits and at most a sign. *)
Lemma int_of_string_pretty (i : Z) :
  int_of_string (pretty i) = Some i
  /\ all_chars (fun c => is_digit c || Ascii.eqb c "-") (pretty i) = true.
Proof.
  assert (Hweak : forall s, all_chars is_digit s = true ->
            all_chars (fun c => is_digit c || Ascii.eqb c "-") s = true).
  { intros s. apply all_chars_impl. intros c ->. reflexivity. }
  destruct i as [|p|p].
  - split; reflexivity.
  - destruct (pretty_positive_reads_back p) as (c & s & E & Hc & Hs & Hv).
    change (pretty (Zpos p)) with (pretty (Npos p)). rewrite E. split.
    + rewrite (int_of_string_digit c s Hc). exact Hv.
    + apply Hweak. cbn [all_chars]. rewrite Hc, Hs. reflexivity.
  - destruct (pretty_positive_reads_back p) as (c & s & E & Hc & Hs & Hv).
    change (pretty (Zneg p)) with ("-" +:+ pretty (Npos p)). rewrite E.
    change ("-" +:+ String c s) with (String "-" (String c s)). split.
    + cbn [int_of_string]. rewrite Hv. reflexivity.
    + cbn [all_chars]. rewrite Hc. cbn [orb andb].
      change (all_chars (fun c => is_digit c || Ascii.eqb c "-") s = true).
      apply Hweak, Hs.
Qed.

(** The index of a per-cycle file name is the slot it was written
    for. *)
Lemma model_index_cycle_file (i : Z) : model_index (cycle_file i) = Some i.
Proof.
  unfold model_index, cycle_file.
  destruct (int_of_string_pretty i) as [Hv Hc].
  rewrite (remove_all_cycle_name _ Hc). exact Hv.
Qed.

(** *** The loop of lines 305-309 *)

Lemma foldl_slot_None (f : option Z -> string -> option Z) (names : list string) :
  (forall name, f None name = None) -> foldl f None names = None.
Proof.
  intros Hf. induction names as [|name rest IH]; [reflexivity|].
  simpl. rewrite Hf. exact IH.
Qed.

(** The loop from a slot [a0] on. *)
Lemma slot_fold_spec (names : list string) (a0 : Z) :
  let step (acc : option Z) (name : string) :=
    ensemble_model_index ← acc;
    if glob_model_cycle name
    then i ← model_index name; Some (Z.max ensemble_model_index (i + 1))
    else Some ensemble_model_index in
  (foldl step (Some a0) names = None
   <-> exists name,
         name ∈ names /\ glob_model_cycle name = true
         /\ model_index name = None)
  /\ forall k,
       foldl step (Some a0) names = Some k ->
       a0 <= k
       /\ (forall name m,
             name ∈ names -> glob_model_cycle name = true ->
             model_index name = Some m -> m < k)
       /\ (a0 < k ->
           exists name,
             name ∈ names /\ glob_model_cycle name = true
             /\ model_index name = Some (k - 1)).
Proof.
  intros step. revert a0.
  induction names as [|name rest IH]; intros a0.
  - split.
    + split; [discriminate|]. intros (name & Hin & _).
      apply not_elem_of_nil in Hin. contradiction.
    + intros k [= <-]. split; [lia|]. split.
      * intros name m Hin. apply not_elem_of_nil in Hin. contradiction.
      * lia.
  - cbn [foldl]. unfold step at 2 4. cbn [mbind option_bind].
    destruct (glob_model_cycle name) eqn:Eg.
    + destruct (model_index name) as [m|] eqn:Em; cbn [mbind option_bind].
      * destruct (IH (Z.max a0 (m + 1))) as [IHn IHs]. split.
        -- rewrite IHn. split; intros (bad & Hin & Hg & Hb); exists bad.
           ++ split; [apply list_elem_of_further, Hin|]. split; assumption.
           ++ apply elem_of_cons in Hin. destruct Hin as [->|Hin]; [congruence|].
              split; [exact Hin|]. split; assumption.
        -- intros k Hk. destruct (IHs k Hk) as (H0 & Hall & Hex).
           split; [lia|]. split.
           ++ intros name' m' Hin Hg Hm.
              apply elem_of_cons in Hin. destruct Hin as [->|Hin].
              ** rewrite Em in Hm. injection Hm as <-. lia.
              ** exact (Hall name' m' Hin Hg Hm).
           ++ intros Hlt.
              destruct (Z_lt_le_dec (Z.max a0 (m + 1)) k) as [Hmax|Hmax].
              ** destruct (Hex Hmax) as (name' & Hin & Hg & Hm).
                 exists name'. split; [apply list_elem_of_further, Hin|].
                 split; assumption.
              ** exists name. split; [apply list_elem_of_here|].
                 split; [exact Eg|]. rewrite Em. f_equal. lia.
      * rewrite (foldl_slot_None step) by reflexivity. split.
        -- split; [|reflexivity]. intros _. exists name.
           split; [apply list_elem_of_here|]. split; assumption.
        -- discriminate.
    + destruct (IH a0) as [IHn IHs]. split.
      * rewrite IHn. split; intros (bad & Hin & Hg & Hb); exists bad.
        -- split; [apply list_elem_of_further, Hin|]. split; assumption.
        -- apply elem_of_cons in Hin. destruct Hin as [->|Hin]; [congruence|].
           split; [exact Hin|]. split; assumption.
      * intros k Hk. destruct (IHs k Hk) as (H0 & Hall & Hex).
        split; [exact H0|]. split.
        -- intros name' m' Hin Hg Hm.
           apply elem_of_cons in Hin. destruct Hin as [->|Hin]; [congruence|].
           exact (Hall name' m' Hin Hg Hm).
        -- intros Hlt. destruct (Hex Hlt) as (name' & Hin & Hg & Hm).
           exists name'. split; [apply list_elem_of_further, Hin|].
           split; assumption.
Qed.

(** X20.  [first_free_index] raises exactly when the directory has a file
    [model-*.pth] whose middle part is not an integer; otherwise it
    returns the smallest slot that is at least 0 and above the index of
    every such file. *)
Theorem first_free_index_spec (names : list string) :
  (first_free_index names = None
   <-> exists name,
         name ∈ names /\ glob_model_cycle name = true
         /\ model_index name = None)
  /\ forall k,
       first_free_index names = Some k ->
       0 <= k
       /\ (forall name m,
             name ∈ names -> glob_model_cycle name = true ->
             model_index name = Some m -> m < k)
       /\ (0 < k ->
           exists name,
             name ∈ names /\ glob_model_cycle name = true
             /\ model_index name = Some (k - 1)).
Proof. exact (slot_fold_spec names 0). Qed.

(** *** Checkpoints that were there before the run *)

Section Main.

Context {Weights : Type}.
Variable fresh_weights : Weights.

Lemma setup_first_free_index a base out (st0 : loop_state Weights) :
  setup fresh_weights a base out = Some st0 ->
  first_free_index (map fst (map_to_list (files st0)))
  = Some (ensemble_model_index st0).
Proof.
  unfold setup. intros H.
  destruct (initial_checkpoint fresh_weights a base out) as [[m dir]|];
    [|discriminate].
  cbn [mbind option_bind] in H.
  destruct (first_free_index (map fst (map_to_list dir))) as [k|] eqn:Ek;
    [|discriminate].
  cbn [mbind option_bind] in H.
  destruct (create_optimizer (optimizer_type a) (lr_max a)); [|discriminate].
  cbn [mbind option_bind] in H.
  destruct (create_criterion (loss_type a)); [|discriminate].
  cbn [mbind option_bind] in H. injection H as <-. exact Ek.
Qed.

(** X21.  The slot the run starts with and all later slots are free, and a
    per-cycle checkpoint that is in the output directory when the loop
    starts (left by an earlier run or copied from the base model
    directory) is never overwritten by the run. *)
Theorem existing_cycle_checkpoints_survive a base out
    (st0 : loop_state Weights) (obs : list (epoch_obs Weights)) :
  setup fresh_weights a base out = Some st0 ->
  0 <= ensemble_model_index st0
  /\ (forall i, ensemble_model_index st0 <= i ->
        files st0 !! cycle_file i = None)
  /\ forall (n : nat) s (i : Z),
       abort_points st0 (run a st0 obs) !! n = Some s ->
       is_Some (files st0 !! cycle_file i) ->
       files s !! cycle_file i = files st0 !! cycle_file i.
Proof.
  intros Hsetup.
  pose proof (setup_first_free_index a base out st0 Hsetup) as Hk.
  destruct (proj2 (first_free_index_spec _) _ Hk) as (H0 & Hall & _).
  assert (Hbelow : forall i, is_Some (files st0 !! cycle_file i) ->
                             i < ensemble_model_index st0).
  { intros i [w Hw].
    apply (Hall (cycle_file i) i).
    - apply list_elem_of_fmap. exists (cycle_file i, w).
      split; [reflexivity|]. apply elem_of_map_to_list, Hw.
    - apply glob_model_cycle_cycle_file.
    - apply model_index_cycle_file. }
  split; [exact H0|]. split.
  - intros i Hi. destruct (files st0 !! cycle_file i) as [w|] eqn:E; [|reflexivity].
    assert (i < ensemble_model_index st0) by (apply Hbelow; rewrite E; eauto).
    lia.
  - intros n s i Hs Hi. unfold run in Hs.
    exact (proj2 (CycleFacts.abort_points_slots_frozen a st0 _ 0 st0 i
                    (abort_points_0 _ _) (Hbelow i Hi) n s Hs)).
Qed.

End Main.

(** A run that finds [model-0.pth] and [model-3.pth] starts with the
    slot 4 and leaves both files alone. *)
Lemma existing_cycle_checkpoints_survive_witness :
  exists st0,
    setup 0%nat (Toy.args_with 1 1) None
      {[ "model-0.pth"%string := 7%nat; "model-3.pth"%string := 8%nat ]}
    = Some st0
    /\ ensemble_model_index st0 = 4
    /\ Forall
         (fun s => files s !! "model-0.pth"%string = Some 7%nat
                   /\ files s !! "model-3.pth"%string = Some 8%nat)
         (abort_points st0 (run (Toy.args_with 1 1) st0 Toy.epochs_stalling)).
Proof.
  destruct (setup 0%nat (Toy.args_with 1 1) None
              {[ "model-0.pth"%string := 7%nat; "model-3.pth"%string := 8%nat ]})
    as [st0|] eqn:E0; [|vm_compute in E0; discriminate].
  exists st0. split; [reflexivity|].
  destruct (existing_cycle_checkpoints_survive 0%nat (Toy.args_with 1 1) None _
              st0 Toy.epochs_stalling E0) as (_ & _ & Hkeep).
  assert (Hfiles : files st0 !! cycle_file 0 = Some 7%nat
                   /\ files st0 !! cycle_file 3 = Some 8%nat
                   /\ ensemble_model_index st0 = 4).
  { vm_compute in E0. injection E0 as <-. vm_compute. repeat split. }
  destruct Hfiles as (F0 & F3 & Hidx).
  split; [exact Hidx|].
  apply Forall_lookup_2. intros n s Hs. split.
  - rewrite <- F0. apply (Hkeep n s 0 Hs). rewrite F0. eauto.
  - rewrite <- F3. apply (Hkeep n s 3 Hs). rewrite F3. eauto.
Defined.

End SlotFacts.

(** ** Per-cycle files in the order of their slots *)

Module ModelFilesFacts.

Import Train ModelFiles Slots SlotFacts.

(** *** The sort *)

Section Sort.

Context {A : Type}.

Lemma insert_by_key_perm (k : Z) (x : A) (l : list (Z * A)) :
  Permutation (insert_by_key k x l) ((k, x) :: l).
Proof.
  induction l as [|[k' y] l IH]; [reflexivity|].
  simpl. destruct (k <=? k'); [reflexivity|].
  rewrite IH. apply perm_swap.
Qed.

Lemma insert_by_key_sorted (k : Z) (x : A) (l : list (Z * A)) :
  StronglySorted by_key l -> StronglySorted by_key (insert_by_key k x l).
Proof.
  induction l as [|[k' y] l IH]; intros Hs.
  - repeat constructor.
  - simpl. apply StronglySorted_inv in Hs. destruct Hs as [Hl Hall].
    destruct (Z.leb_spec k k') as [Hle|Hgt].
    + constructor; [constructor; assumption|].
      constructor; [exact Hle|].
      eapply Forall_impl; [exact Hall|].
      intros e He. unfold by_key in *. simpl in *. lia.
    + constructor; [apply IH, Hl|].
      rewrite (insert_by_key_perm k x l).
      constructor; [unfold by_key; simpl; lia|exact Hall].
Qed.

Lemma foldr_insert_perm (l : list (Z * A)) :
  Permutation (foldr (fun e acc => insert_by_key (fst e) (snd e) acc) [] l) l.
Proof.
  induction l as [|[k x] l IH]; [reflexivity|].
  simpl. rewrite insert_by_key_perm, IH. reflexivity.
Qed.

Lemma foldr_insert_sorted (l : list (Z * A)) :
  StronglySorted by_key
    (foldr (fun e acc => insert_by_key (fst e) (snd e) acc) [] l).
Proof.
  induction l as [|[k x] l IH]; [constructor|].
  simpl. apply insert_by_key_sorted, IH.
Qed.

Lemma StronglySorted_lookup (R : Z * A -> Z * A -> Prop) (l : list (Z * A))
    (a b : nat) ea eb :
  StronglySorted R l -> (a < b)%nat ->
  l !! a = Some ea -> l !! b = Some eb -> R ea eb.
Proof.
  intros Hs. revert a b. induction Hs as [|e l Hs IH Hall]; intros a b Hab Ha Hb.
  - destruct a; discriminate.
  - destruct b as [|b]; [lia|]. simpl in Hb. destruct a as [|a].
    + injection Ha as <-. rewrite Forall_forall in Hall.
      apply Hall. eapply list_elem_of_lookup_2, Hb.
    + simpl in Ha. apply (IH a b); [lia|assumption|assumption].
Qed.

End Sort.

(** *** The key of a per-cycle file *)

Lemma list_ascii_of_string_app (s t : string) :
  list_ascii_of_string (s +:+ t)
  = list_ascii_of_string s ++ list_ascii_of_string t.
Proof.
  induction s as [|c s IH]; [reflexivity|].
  change (c :: list_ascii_of_string (s +:+ t)
          = c :: (list_ascii_of_string s ++ list_ascii_of_string t)).
  rewrite IH. reflexivity.
Qed.

(** [name[6:-4]] is what stands between ["model-"] and [".pth"]. *)
Lemma str_slice_cycle_name (d : string) :
  str_slice 6 (-4) ("model-" +:+ d +:+ ".pth") = d.
Proof.
  unfold str_slice. rewrite !list_ascii_of_string_app.
  set (m := list_ascii_of_string d).
  assert (E : Data.py_slice 6 (-4)
                (list_ascii_of_string "model-" ++ m ++ list_ascii_of_string ".pth")
              = m).
  { unfold Data.py_slice. rewrite !length_app.
    change (length (list_ascii_of_string "model-")) with 6%nat.
    change (length (list_ascii_of_string ".pth")) with 4%nat.
    change (6 <? 0) with false. change (-4 <? 0) with true. cbv iota.
    replace (Z.max 0 (Z.min (Z.of_nat (6 + (length m + 4))) 6)) with 6 by lia.
    replace (Z.max 0 (Z.min (Z.of_nat (6 + (length m + 4)))
                        (-4 + Z.of_nat (6 + (length m + 4)))))
      with (6 + Z.of_nat (length m)) by lia.
    replace (Z.to_nat (6 + Z.of_nat (length m) - 6)) with (length m) by lia.
    change (Z.to_nat 6) with (length (list_ascii_of_string "model-")).
    rewrite drop_app_length. apply take_app_length. }
  rewrite E. apply string_of_list_ascii_of_string.
Qed.

Lemma sort_key_cycle_file (i : Z) : sort_key (cycle_file i) = Some i.
Proof.
  unfold sort_key, cycle_file. rewrite str_slice_cycle_name.
  apply int_of_string_pretty.
Qed.

(** *** [find_sorted_model_files] *)

Lemma zip_keys_lookup (names : list string) (keys : list Z) (e : Z * string) :
  mapM sort_key names = Some keys ->
  e ∈ zip keys names -> sort_key (snd e) = Some (fst e) /\ snd e ∈ names.
Proof.
  intros Hk He. apply mapM_Some_1 in Hk.
  apply list_elem_of_lookup in He. destruct He as [n Hn].
  apply lookup_zip_with_Some in Hn.
  destruct Hn as (k & name & -> & Hkn & Hnn). simpl.
  split.
  - destruct (Forall2_lookup_l _ _ _ _ _ Hk Hnn) as (k' & Hk' & Hs).
    rewrite Hkn in Hk'. injection Hk' as <-. exact Hs.
  - eapply list_elem_of_lookup_2, Hnn.
Qed.

(** X22.  [find_sorted_model_files] raises exactly when a file matched by
    [model-*.pth] has something else than an integer between
    ["model-"] and [".pth"]; otherwise it returns the matched files,
    each once, ordered by that integer. *)
Theorem find_sorted_model_files_spec (listing : list string) :
  (find_sorted_model_files listing = None
   <-> exists name,
         name ∈ listing /\ glob_model_cycle name = true
         /\ sort_key name = None)
  /\ forall l,
       find_sorted_model_files listing = Some l ->
       Permutation l (List.filter glob_model_cycle listing)
       /\ forall (a b : nat) na nb,
            (a < b)%nat -> l !! a = Some na -> l !! b = Some nb ->
            exists ka kb,
              sort_key na = Some ka /\ sort_key nb = Some kb /\ ka <= kb.
Proof.
  unfold find_sorted_model_files.
  set (names := List.filter glob_model_cycle listing).
  split.
  - destruct (mapM sort_key names) as [keys|] eqn:Ek; cbn [mbind option_bind].
    + split; [discriminate|]. intros (name & Hin & Hg & Hn). exfalso.
      apply mapM_Some_1 in Ek.
      assert (Hnames : name ∈ names).
      { apply list_elem_of_In, filter_In. split; [apply list_elem_of_In, Hin|exact Hg]. }
      apply list_elem_of_lookup in Hnames. destruct Hnames as [n Hn'].
      destruct (Forall2_lookup_l _ _ _ _ _ Ek Hn') as (k & _ & Hs). congruence.
    + split; [|reflexivity]. intros _.
      apply mapM_None_1, Exists_exists in Ek. destruct Ek as (name & Hin & Hn).
      apply list_elem_of_In, filter_In in Hin. destruct Hin as [Hin Hg].
      exists name. split; [apply list_elem_of_In, Hin|]. split; assumption.
  - intros l H.
    destruct (mapM sort_key names) as [keys|] eqn:Ek; [|discriminate].
    cbn [mbind option_bind] in H. injection H as <-.
    unfold sorted_by_key.
    set (srt := foldr (fun e acc => insert_by_key (fst e) (snd e) acc) []
                  (zip keys names)).
    assert (Hperm : Permutation srt (zip keys names)) by apply foldr_insert_perm.
    assert (Hsorted : StronglySorted by_key srt) by apply foldr_insert_sorted.
    split.
    + rewrite Hperm. rewrite snd_zip; [reflexivity|].
      apply mapM_Some_1, Forall2_length in Ek. lia.
    + intros a b na nb Hab Ha Hb.
      rewrite list_lookup_fmap in Ha, Hb.
      destruct (srt !! a) as [ea|] eqn:Ea; [|discriminate].
      destruct (srt !! b) as [eb|] eqn:Eb; [|discriminate].
      injection Ha as <-. injection Hb as <-.
      assert (Hea : ea ∈ zip keys names)
        by (rewrite <- Hperm; eapply list_elem_of_lookup_2, Ea).
      assert (Heb : eb ∈ zip keys names)
        by (rewrite <- Hperm; eapply list_elem_of_lookup_2, Eb).
      exists (fst ea), (fst eb).
      split; [exact (proj1 (zip_keys_lookup _ _ _ Ek Hea))|].
      split; [exact (proj1 (zip_keys_lookup _ _ _ Ek Heb))|].
      exact (StronglySorted_lookup by_key srt a b ea eb Hsorted Hab Ea Eb).
Qed.

(** X23.  The per-cycle checkpoints written by [train.py] come in the order
    of their slots, by number and not by spelling: in the result for a
    directory listing (no name twice), the file of a slot stands before
    the file of every greater slot, and every per-cycle file of the
    directory is in the result. *)
Theorem sorted_model_files_follow_slots (listing l : list string) :
  NoDup listing ->
  find_sorted_model_files listing = Some l ->
  (forall i, cycle_file i ∈ listing -> cycle_file i ∈ l)
  /\ forall (a b : nat) (i j : Z),
       l !! a = Some (cycle_file i) -> l !! b = Some (cycle_file j) ->
       ((a < b)%nat <-> i < j).
Proof.
  intros Hnd H.
  destruct (proj2 (find_sorted_model_files_spec listing) l H) as [Hperm Hord].
  assert (Hndl : NoDup l).
  { rewrite Hperm. apply NoDup_ListNoDup, List.NoDup_filter, NoDup_ListNoDup, Hnd. }
  assert (Hlt : forall (a b : nat) (i j : Z),
             l !! a = Some (cycle_file i) -> l !! b = Some (cycle_file j) ->
             (a < b)%nat -> i < j).
  { intros a b i j Ha Hb Hab.
    destruct (Hord a b _ _ Hab Ha Hb) as (ka & kb & Hka & Hkb & Hle).
    rewrite sort_key_cycle_file in Hka, Hkb.
    injection Hka as <-. injection Hkb as <-.
    destruct (Z.eq_dec i j) as [->|Hne]; [|lia].
    pose proof (NoDup_lookup _ _ _ _ Hndl Ha Hb). lia. }
  split.
  - intros i Hi. rewrite Hperm. apply list_elem_of_In, filter_In.
    split; [apply list_elem_of_In, Hi|apply glob_model_cycle_cycle_file].
  - intros a b i j Ha Hb. split; [apply (Hlt a b i j Ha Hb)|].
    intros Hij. destruct (Nat.lt_trichotomy a b) as [Hab|[->|Hba]].
    + exact Hab.
    + assert (E : cycle_file i = cycle_file j) by congruence.
      apply CycleFacts.cycle_file_inj in E. lia.
    + pose proof (Hlt b a j i Hb Ha Hba). lia.
Qed.

(** A directory with the checkpoints of the slots 10, 9 and 100 and
    with [model.pth]. *)
Lemma sorted_model_files_follow_slots_witness :
  find_sorted_model_files
    ["model-10.pth"; "model.pth"; "model-9.pth"; "model-100.pth"]%string
  = Some ["model-9.pth"; "model-10.pth"; "model-100.pth"]%string
  /\ ((0 < 1)%nat <-> 9 < 10).
Proof.
  assert (H : find_sorted_model_files
                ["model-10.pth"; "model.pth"; "model-9.pth"; "model-100.pth"]%string
              = Some ["model-9.pth"; "model-10.pth"; "model-100.pth"]%string)
    by (vm_compute; reflexivity).
  split; [exact H|].
  refine (proj2 (sorted_model_files_follow_slots _ _ _ H) 0%nat 1%nat 9 10 _ _);
    [|reflexivity|reflexivity].
  apply NoDup_ListNoDup.
  repeat (constructor; [simpl; intuition discriminate|]). constructor.
Defined.

End ModelFilesFacts.

(** ** The lines of [draw_strokes] *)

Module DrawFacts.

Import Utils Draw.

(** A coordinate between 0 and 255 lands between [padding] and
    [255 - padding]. *)
Lemma scaled_range (padding v : Z) :
  0 <= padding <= 127 -> 0 <= v <= 255 ->
  padding <= scaled padding v <= 255 - padding.
Proof.
  intros Hp Hv. unfold scaled, scale_factor, draw_size.
  set (a := 256 - 2 * padding).
  assert (Ha : 1 <= a <= 256) by (unfold a; lia).
  assert (E : (inject_Z a / inject_Z 256 * inject_Z v == (a * v) # 256)%Q).
  { unfold Qeq, Qdiv, Qmult, Qinv, inject_Z. simpl. lia. }
  assert (Hnn : (0 <= inject_Z a / inject_Z 256 * inject_Z v)%Q).
  { rewrite E. unfold Qle. simpl. nia. }
  rewrite (TrainFacts.int_of_float_floor _ Hnn).
  rewrite (Qfloor_comp _ _ E).
  change (Qfloor ((a * v) # 256)) with ((a * v) / 256).
  assert (0 <= (a * v) / 256) by (apply Z.div_pos; nia).
  assert ((a * v) / 256 < a) by (apply Z.div_lt_upper_bound; nia).
  unfold a in *. lia.
Qed.

Lemma py_index_Forall {A : Type} (P : A -> Prop) (l : list A) (i : Z) :
  Forall P l -> 0 <= i < Z.of_nat (length l) ->
  exists x, Provider.py_index l i = Some x /\ P x.
Proof.
  intros Hl Hi.
  destruct (ProviderFacts.py_index_in_range l i Hi) as [x Hx].
  exists x. split; [exact Hx|].
  rewrite Forall_forall in Hl. apply Hl.
  exact (ProviderFacts.py_index_elem l i x Hx).
Qed.

(** The six colours: a stroke is drawn in [40 * (s mod 6)]. *)
Lemma stroke_color_cycle (s : Z) :
  0 <= s ->
  Provider.py_mod s (Z.of_nat (length [0; 40; 80; 120; 160; 200])) = Some (s mod 6)
  /\ Provider.py_index [0; 40; 80; 120; 160; 200] (s mod 6)
     = Some (40 * (s mod 6)).
Proof.
  intros Hs. split; [reflexivity|].
  assert (H : 0 <= s mod 6 < 6) by (apply Z.mod_pos_bound; lia).
  assert (H' : s mod 6 = 0 \/ s mod 6 = 1 \/ s mod 6 = 2 \/ s mod 6 = 3
               \/ s mod 6 = 4 \/ s mod 6 = 5) by lia.
  destruct H' as [->|[->|[->|[->|[->| ->]]]]]; reflexivity.
Qed.

(** What holds of every line drawn. *)
Lemma segment_simplified (padding : Z) (fliplr : bool) (xs ys : list Z)
    (stroke_color i : Z) :
  0 <= padding <= 127 ->
  length xs = length ys ->
  Forall (fun v => 0 <= v <= 255) xs ->
  Forall (fun v => 0 <= v <= 255) ys ->
  0 <= i -> i + 1 < Z.of_nat (length xs) ->
  exists c,
    segment padding fliplr [xs; ys] stroke_color i = Some c
    /\ inset padding fliplr (pt1 c) /\ inset padding fliplr (pt2 c)
    /\ line_color c = stroke_color.
Proof.
  intros Hp Hlen Hxs Hys Hi Hi'.
  destruct (py_index_Forall _ xs i Hxs) as (a0 & Ea0 & Ha0); [lia|].
  destruct (py_index_Forall _ ys i Hys) as (b0 & Eb0 & Hb0); [lia|].
  destruct (py_index_Forall _ xs (i + 1) Hxs) as (a1 & Ea1 & Ha1); [lia|].
  destruct (py_index_Forall _ ys (i + 1) Hys) as (b1 & Eb1 & Hb1); [lia|].
  unfold segment.
  change (Provider.py_index [xs; ys] 0) with (Some xs).
  change (Provider.py_index [xs; ys] 1) with (Some ys).
  cbn [mbind option_bind]. rewrite Ea0, Eb0, Ea1, Eb1. cbn [mbind option_bind].
  eexists. split; [reflexivity|].
  pose proof (scaled_range padding a0 Hp Ha0).
  pose proof (scaled_range padding b0 Hp Hb0).
  pose proof (scaled_range padding a1 Hp Ha1).
  pose proof (scaled_range padding b1 Hp Hb1).
  unfold inset, draw_size. cbn [pt1 pt2 line_color fst snd].
  destruct fliplr; repeat split; lia.
Qed.

Lemma stroke_lines_simplified (padding : Z) (fliplr : bool) (s : stroke)
    (stroke_color : Z) :
  0 <= padding <= 127 -> simplified s ->
  exists calls,
    stroke_lines padding fliplr s stroke_color = Some calls
    /\ length calls = segments s
    /\ Forall
         (fun c => inset padding fliplr (pt1 c) /\ inset padding fliplr (pt2 c)
                   /\ line_color c = stroke_color)
         calls.
Proof.
  intros Hp (xs & ys & -> & Hlen & Hxs & Hys).
  unfold stroke_lines, stroke_points.
  change (Provider.py_index [xs; ys] 0) with (Some xs).
  cbn [mbind option_bind segments].
  set (f := segment padding fliplr [xs; ys] stroke_color).
  set (idxs := Provider.py_range (Z.of_nat (length xs) - 1)).
  assert (His : Forall (fun i => 0 <= i /\ i + 1 < Z.of_nat (length xs)) idxs).
  { unfold idxs, Provider.py_range. apply Forall_forall. intros i Hi.
    apply list_elem_of_fmap in Hi. destruct Hi as (k & -> & Hk).
    apply elem_of_seq in Hk. lia. }
  assert (Hsome : is_Some (mapM f idxs)).
  { apply mapM_is_Some_2. eapply Forall_impl; [exact His|].
    intros i [Hi Hi']. unfold compose, f.
    destruct (segment_simplified padding fliplr xs ys stroke_color i
                Hp Hlen Hxs Hys Hi Hi') as (c & -> & _). eauto. }
  destruct Hsome as [calls Hcalls]. exists calls. split; [exact Hcalls|]. split.
  - rewrite <- (length_mapM _ _ _ Hcalls). unfold idxs, Provider.py_range.
    rewrite length_map, length_seq. lia.
  - apply mapM_Some_1 in Hcalls. apply Forall_forall. intros c Hc.
    apply list_elem_of_lookup in Hc. destruct Hc as [n Hn].
    destruct (Forall2_lookup_r _ _ _ _ _ Hcalls Hn) as (i & Hi & Hf).
    assert (Hin : i ∈ idxs) by (eapply list_elem_of_lookup_2, Hi).
    rewrite Forall_forall in His. destruct (His i Hin) as [H0 H1].
    destruct (segment_simplified padding fliplr xs ys stroke_color i
                Hp Hlen Hxs Hys H0 H1) as (c' & Ec' & Hc').
    unfold f in Hf. rewrite Ec' in Hf. injection Hf as <-. exact Hc'.
Qed.

Lemma draw_from_simplified (padding : Z) (fliplr : bool) (strokes : drawing) :
  0 <= padding <= 127 -> Forall simplified strokes ->
  forall s, 0 <= s ->
  exists calls,
    draw_from padding fliplr [0; 40; 80; 120; 160; 200] s strokes = Some calls
    /\ length calls = sum_list (map segments strokes)
    /\ Forall
         (fun c => inset padding fliplr (pt1 c) /\ inset padding fliplr (pt2 c)
                   /\ 0 <= line_color c <= 200 /\ line_color c mod 40 = 0)
         calls.
Proof.
  intros Hp Hd. induction Hd as [|stroke rest Hs Hrest IH]; intros s Hs0.
  - exists []. repeat split. constructor.
  - cbn [draw_from].
    destruct (stroke_color_cycle s Hs0) as [-> Hc]. cbn [mbind option_bind].
    rewrite Hc. cbn [mbind option_bind].
    destruct (stroke_lines_simplified padding fliplr stroke (40 * (s mod 6)) Hp Hs)
      as (ls & -> & Hlen & Hall).
    destruct (IH (s + 1) ltac:(lia)) as (r & -> & Hlenr & Hallr).
    cbn [mbind option_bind]. eexists. split; [reflexivity|]. split.
    + rewrite length_app, Hlen, Hlenr. reflexivity.
    + apply Forall_app. split; [|exact Hallr].
      eapply Forall_impl; [exact Hall|]. intros c (H1 & H2 & ->).
      assert (0 <= s mod 6 < 6) by (apply Z.mod_pos_bound; lia).
      split; [exact H1|]. split; [exact H2|]. split; [lia|].
      rewrite Z.mul_comm. apply Z.mod_mul. lia.
Qed.

(** X24.  On strokes with as many ys as xs and coordinates between 0 and 255,
    for a padding between 0 and 127, [draw_strokes] raises nothing and
    draws one line less than it has points for every stroke; every line
    keeps the distance [padding] from the border of the canvas, a
    mirrored x coordinate lying one pixel further to the right, between
    [padding + 1] and [256 - padding]; and every line has one of the
    colours 0, 40, ..., 200, never the background colour 255. *)
Theorem draw_strokes_lines (strokes : drawing) (padding : Z) (fliplr : bool) :
  0 <= padding <= 127 ->
  Forall simplified strokes ->
  exists calls,
    draw_strokes strokes padding fliplr = Some calls
    /\ length calls = sum_list (map segments strokes)
    /\ Forall
         (fun c => inset padding fliplr (pt1 c) /\ inset padding fliplr (pt2 c)
                   /\ 0 <= line_color c <= 200 /\ line_color c mod 40 = 0)
         calls.
Proof.
  intros Hp Hd. unfold draw_strokes.
  change (Epoch.py_range3 0 240 40) with (Some [0; 40; 80; 120; 160; 200]).
  cbn [mbind option_bind].
  apply draw_from_simplified; [exact Hp|exact Hd|lia].
Qed.

(** A drawing of two strokes, mirrored, with the default padding. *)
Lemma draw_strokes_lines_witness :
  exists calls,
    draw_strokes [[[0; 255; 128]; [0; 0; 255]]; [[10; 20]; [30; 40]]] 3 true
    = Some calls
    /\ length calls = 3%nat
    /\ Forall
         (fun c => inset 3 true (pt1 c) /\ inset 3 true (pt2 c)
                   /\ 0 <= line_color c <= 200 /\ line_color c mod 40 = 0)
         calls.
Proof.
  apply (draw_strokes_lines
           [[[0; 255; 128]; [0; 0; 255]]; [[10; 20]; [30; 40]]] 3 true).
  - lia.
  - apply Forall_cons. split.
    + exists [0; 255; 128], [0; 0; 255].
      split; [reflexivity|]. split; [reflexivity|].
      split; repeat (apply Forall_cons; split; [lia|]); apply Forall_nil_2.
    + apply Forall_cons. split; [|apply Forall_nil_2].
      exists [10; 20], [30; 40].
      split; [reflexivity|]. split; [reflexivity|].
      split; repeat (apply Forall_cons; split; [lia|]); apply Forall_nil_2.
Defined.

End DrawFacts.

(** ** Restarts are a cycle apart *)

Module RestartFacts.

Import Train TrainFacts.

Section Main.

Context {Weights : Type}.
Variable fresh_weights : Weights.

Implicit Types (a : args) (st : loop_state Weights) (o : epoch_obs Weights)
  (r : epoch_result Weights) (epoch : Z).

(** What an epoch does to the end of the cycle. *)
Lemma epoch_step_cycle_end a epoch st o r :
  epoch_step a epoch st o = Some r ->
  (r_sgdr_reset r = true ->
   sgdr_next_cycle_end_epoch st <= epoch + 1
   /\ sgdr_next_cycle_end_epoch (r_state r)
      = epoch + 1 + current_sgdr_cycle_epochs (r_state r)
        + sgdr_cycle_end_prolongation a)
  /\ (r_sgdr_reset r = false ->
      sgdr_next_cycle_end_epoch (r_state r) = sgdr_next_cycle_end_epoch st).
Proof.
  intros H. destruct (epoch_step_inv a epoch st o r H) as (avgs & _ & _ & Hinv).
  cbv zeta in Hinv.
  destruct Hinv as (_ & Hr & _ & _ & _ & _ & _ & Hc & Hn & _).
  destruct (checkpoint_decisions_cycle epoch st o (r_val_mapk_avg r))
    as (_ & Hn1 & _).
  cbv zeta in Hn1.
  rewrite Hc, Hn, Hr. unfold after_restart_test.
  destruct (restart_due a epoch (fst (checkpoint_decisions epoch st o (r_val_mapk_avg r))))
    eqn:Ed.
  - split; [|discriminate]. intros _. split.
    + unfold restart_due in Ed. apply andb_true_iff in Ed. destruct Ed as [Ed _].
      apply Z.leb_le in Ed. rewrite Hn1 in Ed. exact Ed.
    + reflexivity.
  - split; [discriminate|]. intros _. exact Hn1.
Qed.

(** As long as the end of the cycle is ahead, no restart fires and the
    end of the cycle stays where it is. *)
Lemma no_restart_before_cycle_end a st0 (obs : list (epoch_obs Weights))
    (n : nat) s (e : Z) :
  abort_points st0 (main_loop a 0 st0 obs) !! n = Some s ->
  sgdr_next_cycle_end_epoch s = e ->
  forall (k : nat) r,
    Z.of_nat (n + k) + 1 < e ->
    main_loop a 0 st0 obs !! (n + k)%nat = Some r ->
    r_sgdr_reset r = false /\ sgdr_next_cycle_end_epoch (r_state r) = e.
Proof.
  intros Hs He. induction k as [|k IH]; intros r Hk Hr.
  - rewrite Nat.add_0_r in *.
    destruct (main_loop_lookup a 0 st0 obs n r Hr) as (before & o & Hb & _ & Hstep).
    rewrite Hs in Hb. injection Hb as <-.
    destruct (epoch_step_cycle_end a _ s o r Hstep) as [Ht Hf].
    destruct (r_sgdr_reset r).
    + destruct (Ht eq_refl) as [Hle _]. lia.
    + split; [reflexivity|]. rewrite (Hf eq_refl). exact He.
  - rewrite Nat.add_succ_r in *.
    destruct (main_loop_lookup a 0 st0 obs _ r Hr) as (before & o & Hb & _ & Hstep).
    rewrite abort_points_S in Hb.
    destruct (main_loop a 0 st0 obs !! (n + k)%nat) as [r'|] eqn:Er'; [|discriminate].
    injection Hb as <-.
    destruct (IH r' ltac:(lia) eq_refl) as [_ He'].
    destruct (epoch_step_cycle_end a _ (r_state r') o r Hstep) as [Ht Hf].
    destruct (r_sgdr_reset r).
    + destruct (Ht eq_refl) as [Hle _]. lia.
    + split; [reflexivity|]. rewrite (Hf eq_refl). exact He'.
Qed.

(** X25.  Restarts are at least a cycle apart.  No restart fires in the
    first [sgdr_cycle_epochs + sgdr_cycle_end_prolongation - 1] epochs
    of a run, and after a restart none fires in the following epochs
    until the new cycle length plus the prolongation have gone by. *)
Theorem restarts_are_a_cycle_apart a base out st0
    (obs : list (epoch_obs Weights)) (m : nat) rm :
  setup fresh_weights a base out = Some st0 ->
  run a st0 obs !! m = Some rm ->
  (Z.of_nat m + 1 < sgdr_cycle_epochs a + sgdr_cycle_end_prolongation a ->
   r_sgdr_reset rm = false)
  /\ forall (n : nat) rn,
       (n < m)%nat ->
       run a st0 obs !! n = Some rn ->
       r_sgdr_reset rn = true ->
       Z.of_nat m
       < Z.of_nat n + current_sgdr_cycle_epochs (r_state rn)
         + sgdr_cycle_end_prolongation a ->
       r_sgdr_reset rm = false.
Proof.
  intros Hsetup Hm. unfold run in *.
  set (obs' := take (Z.to_nat (epochs_to_train a)) obs) in *.
  destruct (setup_inv fresh_weights a base out st0 Hsetup)
    as (_ & _ & _ & _ & Hn0 & _).
  split.
  - intros Hlt.
    refine (proj1 (no_restart_before_cycle_end a st0 obs' 0 st0 _
                     (abort_points_0 _ _) Hn0 m rm _ Hm)).
    simpl. lia.
  - intros n rn Hnm Hn Hreset Hlt.
    destruct (main_loop_lookup a 0 st0 obs' n rn Hn) as (before & o & _ & _ & Hstep).
    destruct (proj1 (epoch_step_cycle_end a _ before o rn Hstep) Hreset) as [_ He].
    assert (Hs : abort_points st0 (main_loop a 0 st0 obs') !! S n
                 = Some (r_state rn))
      by (rewrite abort_points_S, Hn; reflexivity).
    assert (Ek : exists k : nat, m = (S n + k)%nat) by (exists (m - S n)%nat; lia).
    destruct Ek as [k ->].
    refine (proj1 (no_restart_before_cycle_end a st0 obs' (S n) (r_state rn) _
                     Hs He k rm _ Hm)).
    lia.
Qed.

End Main.

(** The run of seven epochs with a cycle-end patience of 1: the restart
    of the fifth epoch starts a cycle of five epochs, and the sixth and
    seventh epoch do not restart. *)
Lemma restarts_are_a_cycle_apart_witness :
  exists rn rm,
    run (Toy.args_with 1 1) Toy.start_state Toy.epochs_stalling !! 4%nat
      = Some rn
    /\ run (Toy.args_with 1 1) Toy.start_state Toy.epochs_stalling !! 6%nat
       = Some rm
    /\ r_sgdr_reset rn = true
    /\ r_sgdr_reset rm = false.
Proof.
  destruct (run (Toy.args_with 1 1) Toy.start_state Toy.epochs_stalling !! 4%nat)
    as [rn|] eqn:En; [|vm_compute in En; discriminate].
  destruct (run (Toy.args_with 1 1) Toy.start_state Toy.epochs_stalling !! 6%nat)
    as [rm|] eqn:Em; [|vm_compute in Em; discriminate].
  exists rn, rm. split; [reflexivity|]. split; [reflexivity|].
  assert (Hn : r_sgdr_reset rn = true /\ current_sgdr_cycle_epochs (r_state rn) = 5)
    by (vm_compute in En; injection En as <-; split; reflexivity).
  destruct Hn as [Hreset Hcur]. split; [exact Hreset|].
  refine (proj2 (restarts_are_a_cycle_apart 0%nat (Toy.args_with 1 1) None ∅
                   Toy.start_state Toy.epochs_stalling 6 rm
                   (Scenarios.setup_default 1 1) Em) 4%nat rn _ En Hreset _).
  - lia.
  - rewrite Hcur. reflexivity.
Defined.

End RestartFacts.

(** ** Predicted words are read back *)

Module WordsFacts.

Import Words Slots SlotFacts.

Lemma split_nonempty (sep : ascii) (s : string) : split sep s <> [].
Proof.
  destruct s as [|c s]; [discriminate|]. simpl.
  destruct (Ascii.eqb c sep); [discriminate|].
  destruct (split sep s); discriminate.
Qed.

(** A piece without the separator in front of a string joins the first
    piece of that string. *)
Lemma split_app (sep : ascii) (x t : string) :
  all_chars (fun c => negb (Ascii.eqb c sep)) x = true ->
  split sep (x +:+ t)
  = match split sep t with
    | w :: ws => (x +:+ w) :: ws
    | [] => []
    end.
Proof.
  induction x as [|c x IH]; intros H.
  - change (EmptyString +:+ t) with t.
    destruct (split sep t) as [|w ws] eqn:E; [|reflexivity].
    exfalso. exact (split_nonempty sep t E).
  - simpl in H. apply andb_true_iff in H. destruct H as [Hc Hx].
    apply negb_true_iff in Hc.
    change (String c x +:+ t) with (String c (x +:+ t)).
    cbn [split]. rewrite Hc, (IH Hx).
    destruct (split sep t) as [|w ws] eqn:E; [|reflexivity].
    exfalso. exact (split_nonempty sep t E).
Qed.

Lemma split_none (sep : ascii) (x : string) :
  all_chars (fun c => negb (Ascii.eqb c sep)) x = true -> split sep x = [x].
Proof.
  intros H. rewrite <- (string_app_nil_r x) at 1.
  rewrite (split_app sep x EmptyString H). simpl.
  rewrite string_app_nil_r. reflexivity.
Qed.

(** Splitting undoes joining when no piece holds the separator and
    there is a piece. *)
Lemma split_join (sep : ascii) (l : list string) :
  l <> [] ->
  Forall (fun x => all_chars (fun c => negb (Ascii.eqb c sep)) x = true) l ->
  split sep (join (String sep EmptyString) l) = l.
Proof.
  intros Hne Hl. induction Hl as [|x rest Hx Hrest IH]; [contradiction|].
  destruct rest as [|y rest].
  - simpl. apply split_none, Hx.
  - change (join (String sep EmptyString) (x :: y :: rest))
      with (x +:+ String sep EmptyString +:+ join (String sep EmptyString) (y :: rest)).
    rewrite (split_app sep x _ Hx).
    change (String sep EmptyString +:+ join (String sep EmptyString) (y :: rest))
      with (String sep (join (String sep EmptyString) (y :: rest))).
    cbn [split]. rewrite Ascii.eqb_refl.
    rewrite IH by discriminate. rewrite string_app_nil_r. reflexivity.
Qed.

Lemma replace_char_without (old new : ascii) (s : string) :
  old <> new ->
  all_chars (fun c => negb (Ascii.eqb c old)) (replace_char old new s) = true.
Proof.
  intros Hne. induction s as [|c s IH]; [reflexivity|].
  simpl. rewrite IH, andb_true_r. apply negb_true_iff.
  destruct (Ascii.eqb c old) eqn:E; [|exact E].
  apply Ascii.eqb_neq. congruence.
Qed.

Lemma replace_char_back (old new : ascii) (s : string) :
  all_chars (fun c => negb (Ascii.eqb c new)) s = true ->
  replace_char new old (replace_char old new s) = s.
Proof.
  induction s as [|c s IH]; intros H; [reflexivity|].
  simpl in H. apply andb_true_iff in H. destruct H as [Hc Hs].
  apply negb_true_iff in Hc. simpl. rewrite (IH Hs). f_equal.
  destruct (Ascii.eqb c old) eqn:E.
  - rewrite Ascii.eqb_refl. apply Ascii.eqb_eq in E. congruence.
  - rewrite Hc. reflexivity.
Qed.

Lemma py_index_map {A B : Type} (f : A -> B) (l : list A) (i : Z) :
  Provider.py_index (map f l) i = f <$> Provider.py_index l i.
Proof.
  unfold Provider.py_index. rewrite length_map.
  destruct ((0 <=? i) && (i <? Z.of_nat (length l)));
    [apply list_lookup_fmap|].
  destruct ((- Z.of_nat (length l) <=? i) && (i <? 0));
    [apply list_lookup_fmap|reflexivity].
Qed.

Lemma mapM_py_index_map {A B : Type} (f : A -> B) (l : list A) (pc : list Z) :
  mapM (Provider.py_index (map f l)) pc
  = map f <$> mapM (Provider.py_index l) pc.
Proof.
  induction pc as [|i pc IH]; [reflexivity|].
  cbn [mapM]. rewrite IH, py_index_map.
  destruct (Provider.py_index l i); [|reflexivity].
  destruct (mapM (Provider.py_index l) pc); reflexivity.
Qed.

(** X26.  Round trip from [predict] to the converter of
    confusion_analysis.py: when no category name has an underscore, the
    word written for a sample with at least one predicted id is read
    back as the names of the predicted categories, in order. *)
Theorem predicted_word_read_back (categories : list string) (pc : list Z)
    (word : string) :
  Forall (fun c => all_chars (fun ch => negb (Ascii.eqb ch "_")) c = true)
    categories ->
  pc <> [] ->
  predicted_word categories pc = Some word ->
  mapM (Provider.py_index categories) pc = Some (word_converter word).
Proof.
  intros Hcats Hpc H. unfold predicted_word in H.
  rewrite mapM_py_index_map in H.
  destruct (mapM (Provider.py_index categories) pc) as [names|] eqn:En;
    [|discriminate].
  cbn in H. injection H as <-. f_equal.
  assert (Hlen : length pc = length names) by (eapply length_mapM, En).
  assert (Hnames : Forall (fun c => all_chars (fun ch => negb (Ascii.eqb ch "_")) c = true)
                     names).
  { apply mapM_Some_1 in En. apply Forall_forall. intros n Hn.
    apply list_elem_of_lookup in Hn. destruct Hn as [k Hk].
    destruct (Forall2_lookup_r _ _ _ _ _ En Hk) as (i & _ & Hi).
    rewrite Forall_forall in Hcats. apply Hcats.
    exact (ProviderFacts.py_index_elem _ _ _ Hi). }
  unfold word_converter.
  rewrite (split_join " " (map (replace_char " " "_") names)).
  - rewrite map_map. clear En Hlen.
    induction Hnames as [|n rest Hn Hrest IH]; [reflexivity|].
    simpl. rewrite (replace_char_back " " "_" n Hn). f_equal. exact IH.
  - destruct names; [destruct pc; [contradiction|discriminate]|discriminate].
  - apply Forall_forall. intros x Hx.
    apply list_elem_of_fmap in Hx. destruct Hx as (n & -> & _).
    apply replace_char_without. discriminate.
Qed.

(** The three best categories of a sample, two of them with a blank in
    their names. *)
Lemma predicted_word_read_back_witness :
  predicted_word ["alarm clock"; "bee"; "ice cream"]%string [2; 0; 1]
  = Some "ice_cream alarm_clock bee"%string
  /\ mapM (Provider.py_index ["alarm clock"; "bee"; "ice cream"]%string) [2; 0; 1]
     = Some (word_converter "ice_cream alarm_clock bee").
Proof.
  assert (H : predicted_word ["alarm clock"; "bee"; "ice cream"]%string [2; 0; 1]
              = Some "ice_cream alarm_clock bee"%string)
    by (vm_compute; reflexivity).
  split; [exact H|].
  apply (predicted_word_read_back _ _ _); [|discriminate|exact H].
  repeat (apply Forall_cons; split; [vm_compute; reflexivity|]).
  apply Forall_nil_2.
Defined.

End WordsFacts.
